(** * KhetBuddy marketplace backend: price prediction and forecast

    A shallow embedding of [server/storage.ts] (class [MemStorage]) and of
    the two AI routes of the server's route table ([POST /api/predict-price],
    [GET /api/forecast]), with the properties the specification states
    about them.

    Modelling conventions.
    - A JavaScript [number] that carries a price or a random draw is a
      binary64 number.  The storage and the world hold such numbers as the
      rationals they are ([Q]).  The arithmetic on them is given twice:
      on binary64 numbers, each operation rounded as the runtime rounds it
      ([Binary64]), for what is stated of the figures computed; and on
      rationals without rounding, for what does not depend on the last
      digits (which branch is taken, what is stored, signs and whole
      defaults).  Identifiers, timestamps and forecast points are integers
      ([Z]).
    - [String.prototype.toLowerCase] is the runtime's ([Runtime]); only its
      action on ASCII strings is assumed.
    - A [Map] is an association list in insertion order, the order in which
      [Map.prototype.values] iterates.
    - An [async] method is a computation over the [World]: the storage
      object, the stream [Math.random] draws from and the clock.  It
      completes normally or throws.  No method awaits anything but other
      methods of the storage, so calls run to completion one after another.
    - Values that arrive unvalidated in a request body are [JsValue]s, with
      JavaScript's truthiness and strict equality. *)

From Stdlib Require Import ZArith QArith Qround Qabs String Ascii List Bool.
From Stdlib Require Import Lia Lqa Permutation Sorted DecimalString Floats.
Import ListNotations.

Local Open Scope string_scope.
Local Open Scope list_scope.
Local Open Scope Z_scope.

(* 0.9 and 1.1 are written as in the source; as binary64 literals they
   denote the nearest binary64 numbers. *)
Set Warnings "-inexact-float".

(** ** JavaScript values *)

Inductive JsValue : Type :=
| JUndefined
| JNull
| JBool (b : bool)
| JNumber (n : Q)
| JString (s : string)
| JObject (ref : nat).

(** [!!v]: undefined, null, false, 0 and the empty string are falsy. *)
Definition truthy (v : JsValue) : bool :=
  match v with
  | JUndefined | JNull => false
  | JBool b => b
  | JNumber n => negb (Qeq_bool n 0)
  | JString s => negb (String.eqb s "")
  | JObject _ => true
  end.

(** [a === b]: no coercion; objects compare by reference. *)
Definition strictEq (a b : JsValue) : bool :=
  match a, b with
  | JUndefined, JUndefined => true
  | JNull, JNull => true
  | JBool x, JBool y => Bool.eqb x y
  | JNumber x, JNumber y => Qeq_bool x y
  | JString x, JString y => String.eqb x y
  | JObject x, JObject y => Nat.eqb x y
  | _, _ => false
  end.

Definition JsInt (z : Z) : JsValue := JNumber (inject_Z z).

(** ** Strings *)

(** Lowercasing of the letters A to Z; every other byte is kept. *)
Definition lowerAscii (c : ascii) : ascii :=
  let n := nat_of_ascii c in
  if (andb (Nat.leb 65 n) (Nat.leb n 90)) then ascii_of_nat (n + 32) else c.

Fixpoint asciiToLowerCase (s : string) : string :=
  match s with
  | EmptyString => EmptyString
  | String c r => String (lowerAscii c) (asciiToLowerCase r)
  end.

(** A string of ASCII characters only. *)
Fixpoint isAscii (s : string) : bool :=
  match s with
  | EmptyString => true
  | String c r => Nat.ltb (nat_of_ascii c) 128 && isAscii r
  end.

(** [String.prototype.toLowerCase] belongs to the runtime and follows the
    Unicode case mappings.  It is left open here: all that is used of it
    is that on a string of ASCII characters it lowercases the letters A to
    Z and keeps the rest. *)
Class Runtime := mkRuntime
  { toLowerCase : string -> string;
    toLowerCase_ascii :
      forall s, isAscii s = true -> toLowerCase s = asciiToLowerCase s }.

(** ** [Math] *)

(** [Math.floor]. *)
Definition Math_floor (x : Q) : Z := Qfloor x.

(** [Math.round]: the nearest integer, a tie going up. *)
Definition Math_round (x : Q) : Q := inject_Z (Qfloor (x + (1 # 2))%Q).

(** [Math.max] of two numbers. *)
Definition Math_max (x y : Q) : Q := if Qle_bool x y then y else x.

(** ** Arrays *)

(** [a.slice(s, e)] for [0 <= s] and [0 <= e]. *)
Definition slice {A} (s e : nat) (a : list A) : list A := skipn s (firstn e a).

(** [a.reduce(f, init)]. *)
Definition reduce {A B} (f : B -> A -> B) (init : B) (a : list A) : B :=
  fold_left f a init.

(** [a.sort(cmp)].  The sort is stable, and [x] stays in front of [y] when
    [cmp x y <= 0]; for a consistent comparator the result does not depend
    on the algorithm, here insertion from the right.  [sort] reorders the
    array it is called on; the one caller below calls it on the fresh array
    a [filter] returned, so no other holder of the array sees the change. *)
Fixpoint sort_insert {A} (cmp : A -> A -> Z) (x : A) (a : list A) : list A :=
  match a with
  | [] => [x]
  | y :: r => if cmp x y <=? 0 then x :: y :: r else y :: sort_insert cmp x r
  end.

Definition sort {A} (cmp : A -> A -> Z) (a : list A) : list A :=
  fold_right (sort_insert cmp) [] a.

(** [before cmp x y]: the comparator lets [x] stand in front of [y]. *)
Definition before {A} (cmp : A -> A -> Z) (x y : A) : Prop := cmp x y <= 0.

(** ** [Map] keyed by identifier, in insertion order *)

Definition JsMap (V : Type) : Type := list (Z * V).

Definition map_new {V} : JsMap V := [].

Fixpoint map_get {V} (k : Z) (m : JsMap V) : option V :=
  match m with
  | [] => None
  | (k', v) :: r => if k =? k' then Some v else map_get k r
  end.

(** [m.set(k, v)]: an existing key keeps its place, a new one goes last. *)
Fixpoint map_set {V} (k : Z) (v : V) (m : JsMap V) : JsMap V :=
  match m with
  | [] => [(k, v)]
  | (k', v') :: r => if k =? k' then (k, v) :: r else (k', v') :: map_set k v r
  end.

Definition map_values {V} (m : JsMap V) : list V := map snd m.

(** ** Records of [@shared/schema] held by the storage *)

Module User.
Record t := mk
  { id : Z; username : string; password : string; name : string;
    location : string; phoneNumber : string; role : string }.
End User.

Module CropType.
Record t := mk { id : Z; name : string }.
End CropType.

Module Listing.
Record t := mk
  { id : Z; userId : Z; cropTypeId : Z; quantity : Q; price : Q;
    quality : string; description : string; location : string;
    isActive : bool; createdAt : Z }.
End Listing.

Module Bid.
Record t := mk
  { id : Z; listingId : Z; userId : Z; amount : Q; createdAt : Z;
    status : string }.
End Bid.

Module BarterOffer.
Record t := mk
  { id : Z; offerUserId : Z; receiverUserId : Z; createdAt : Z;
    status : string }.
End BarterOffer.

Module PriceHistory.
Record t := mk
  { id : Z; cropTypeId : Z; location : string; price : Q;
    quality : string; recordedDate : Z }.
End PriceHistory.

Module InsertPriceHistory.
Record t := mk
  { cropTypeId : Z; location : string; price : Q; quality : string;
    recordedDate : option Z }.
End InsertPriceHistory.

(** ** The storage object and the world around it *)

Module MemStorage.
Record t := mk
  { users : JsMap User.t;
    cropTypes : JsMap CropType.t;
    listings : JsMap Listing.t;
    bids : JsMap Bid.t;
    barterOffers : JsMap BarterOffer.t;
    priceHistory : JsMap PriceHistory.t;
    userId : Z;
    cropTypeId : Z;
    listingId : Z;
    bidId : Z;
    barterOfferId : Z;
    priceHistoryId : Z }.

(** The fields as the constructor sets them, before [initSampleData]. *)
Definition empty : t :=
  mk map_new map_new map_new map_new map_new map_new 1 1 1 1 1 1.
End MemStorage.

Record World := mkWorld
  { storage : MemStorage.t;   (* [this] *)
    random : nat -> Q;        (* the successive results of [Math.random()] *)
    draws : nat;              (* how many of them were consumed *)
    clock : Z }.              (* [Date.now()] *)

Inductive JsError : Type :=
| TypeError (msg : string).

Inductive Completion (A : Type) : Type :=
| Normal (a : A)
| Throw (e : JsError).
Arguments Normal {A} a.
Arguments Throw {A} e.

Definition Promise (A : Type) : Type := World -> Completion A * World.

Definition ret {A} (a : A) : Promise A := fun w => (Normal a, w).

Definition bind {A B} (c : Promise A) (k : A -> Promise B) : Promise B :=
  fun w =>
    match c w with
    | (Normal a, w') => k a w'
    | (Throw e, w') => (Throw e, w')
    end.

Definition throw {A} (e : JsError) : Promise A := fun w => (Throw e, w).

(** [try { c } catch (error) { h error }]. *)
Definition try_catch {A} (c : Promise A) (h : JsError -> Promise A) : Promise A :=
  fun w =>
    match c w with
    | (Normal a, w') => (Normal a, w')
    | (Throw e, w') => h e w'
    end.

Declare Scope promise_scope.
Delimit Scope promise_scope with promise.
Notation "x <- c ;; k" := (bind c (fun x => k))
  (at level 61, c at next level, right associativity) : promise_scope.
Local Open Scope promise_scope.

Definition this : Promise MemStorage.t := fun w => (Normal (storage w), w).

Definition set_this (s : MemStorage.t) : Promise unit :=
  fun w => (Normal tt, mkWorld s (random w) (draws w) (clock w)).

Definition Math_random : Promise Q :=
  fun w => (Normal (random w (draws w)),
            mkWorld (storage w) (random w) (S (draws w)) (clock w)).

Definition Date_now : Promise Z := fun w => (Normal (clock w), w).

(** [a.map(f)] with a callback that has effects. *)
Fixpoint mapM {A B} (f : A -> Promise B) (a : list A) : Promise (list B) :=
  match a with
  | [] => ret []
  | x :: r => y <- f x ;; ys <- mapM f r ;; ret (y :: ys)
  end.

(** [a.forEach(f)], and a counting [for] loop over the values [a]. *)
Fixpoint forEach {A B} (f : A -> Promise B) (a : list A) : Promise unit :=
  match a with
  | [] => ret tt
  | x :: r => _ <- f x ;; forEach f r
  end.

(** ** [MemStorage]: crop types *)

Definition getCropTypes : Promise (list CropType.t) :=
  s <- this ;; ret (map_values (MemStorage.cropTypes s)).

Definition getCropType (id : Z) : Promise (option CropType.t) :=
  s <- this ;; ret (map_get id (MemStorage.cropTypes s)).

(** [name.toLowerCase()] on an argument the caller did not validate: a
    value that is not a string has no such method. *)
Definition call_toLowerCase {R : Runtime} (v : JsValue) : Promise string :=
  match v with
  | JString s => ret (toLowerCase s)
  | _ => throw (TypeError "toLowerCase is not a function")
  end.

(** The [for ... of] loop of [getCropTypeByName]. *)
Fixpoint getCropTypeByName_for {R : Runtime} (name : JsValue)
  (values : list CropType.t) : Promise (option CropType.t) :=
  match values with
  | [] => ret None
  | cropType :: rest =>
      lowered <- call_toLowerCase name ;;
      if String.eqb (toLowerCase (CropType.name cropType)) lowered
      then ret (Some cropType)
      else getCropTypeByName_for name rest
  end.

Definition getCropTypeByName {R : Runtime} (name : JsValue)
  : Promise (option CropType.t) :=
  s <- this ;; getCropTypeByName_for name (map_values (MemStorage.cropTypes s)).

Definition createCropType (name : string) : Promise CropType.t :=
  s <- this ;;
  let id := MemStorage.cropTypeId s in
  let newCropType := CropType.mk id name in
  _ <- set_this
         (MemStorage.mk (MemStorage.users s)
            (map_set id newCropType (MemStorage.cropTypes s))
            (MemStorage.listings s) (MemStorage.bids s)
            (MemStorage.barterOffers s) (MemStorage.priceHistory s)
            (MemStorage.userId s) (id + 1) (MemStorage.listingId s)
            (MemStorage.bidId s) (MemStorage.barterOfferId s)
            (MemStorage.priceHistoryId s)) ;;
  ret newCropType.

(** ** [MemStorage]: price history *)

Definition getPriceHistory : Promise (list PriceHistory.t) :=
  s <- this ;; ret (map_values (MemStorage.priceHistory s)).

Definition getPriceHistoryByCropTypeAndLocation (cropTypeId location : JsValue)
  : Promise (list PriceHistory.t) :=
  s <- this ;;
  ret (filter
         (fun history =>
            strictEq (JsInt (PriceHistory.cropTypeId history)) cropTypeId
            && strictEq (JString (PriceHistory.location history)) location)
         (map_values (MemStorage.priceHistory s))).

Definition createPriceHistory (priceHistoryData : InsertPriceHistory.t)
  : Promise PriceHistory.t :=
  s <- this ;;
  let id := MemStorage.priceHistoryId s in
  recordedDate <-
    match InsertPriceHistory.recordedDate priceHistoryData with
    | Some d => ret d
    | None => Date_now
    end ;;
  let newPriceHistory :=
    PriceHistory.mk id
      (InsertPriceHistory.cropTypeId priceHistoryData)
      (InsertPriceHistory.location priceHistoryData)
      (InsertPriceHistory.price priceHistoryData)
      (InsertPriceHistory.quality priceHistoryData)
      recordedDate in
  _ <- set_this
         (MemStorage.mk (MemStorage.users s) (MemStorage.cropTypes s)
            (MemStorage.listings s) (MemStorage.bids s)
            (MemStorage.barterOffers s)
            (map_set id newPriceHistory (MemStorage.priceHistory s))
            (MemStorage.userId s) (MemStorage.cropTypeId s)
            (MemStorage.listingId s) (MemStorage.bidId s)
            (MemStorage.barterOfferId s) (id + 1)) ;;
  ret newPriceHistory.

(** ** [MemStorage.initSampleData]: crop types and price history

    The sample users and listings, which neither the predictor nor the
    forecast reads, are left out. *)

Definition sampleCropTypes : list string :=
  ["Rice"; "Wheat"; "Tomato"; "Potato"; "Onion"; "Green Chillies";
   "Eggplant"; "Cauliflower"; "Cabbage"; "Carrots"].

Definition sampleLocations : list string :=
  ["Pune"; "Nashik"; "Nagpur"; "Mumbai"; "Ahmednagar"].

Definition sampleQualities : list string := ["A"; "B"; "C"].

Definition initSampleCropTypes : Promise unit :=
  forEach createCropType sampleCropTypes.

(** One pass of the innermost loop.  [monthsBefore t m] stands for the
    timestamp [date.setMonth(date.getMonth() - m)] leaves in a [date]
    created at [t]; the calendar is not modelled. *)
Definition initSamplePrice (monthsBefore : Z -> Z -> Z) (i : Z)
  (location quality : string) (month : Z) : Promise PriceHistory.t :=
  now <- Date_now ;;
  let date := monthsBefore now month in
  let basePrice :=
    (15 + (inject_Z i * 2)
     + (if String.eqb quality "A" then 10
        else if String.eqb quality "B" then 5 else 0))%Q in
  r <- Math_random ;;
  let basePrice := (basePrice + (r * 10 - 5))%Q in
  let basePrice := Math_max 5 basePrice in
  createPriceHistory
    (InsertPriceHistory.mk i location basePrice quality (Some date)).

Definition initSamplePriceHistory (monthsBefore : Z -> Z -> Z) : Promise unit :=
  forEach
    (fun i =>
       forEach
         (fun location =>
            forEach
              (fun quality =>
                 forEach (initSamplePrice monthsBefore i location quality)
                   [0; 1; 2; 3; 4; 5])
              sampleQualities)
         sampleLocations)
    (map Z.of_nat (seq 1 (length sampleCropTypes))).

Definition initSampleData (monthsBefore : Z -> Z -> Z) : Promise unit :=
  _ <- initSampleCropTypes ;; initSamplePriceHistory monthsBefore.

(** ** [MemStorage.predictPrice] *)

(** The comparator handed to [sort]: later dates first. *)
Definition byRecordedDateDesc (a b : PriceHistory.t) : Z :=
  PriceHistory.recordedDate b - PriceHistory.recordedDate a.

(** [recentPrices]: the first entries of the sorted quality history. *)
Definition recentPrices (qualityHistory : list PriceHistory.t)
  : list PriceHistory.t :=
  let sortedHistory := sort byRecordedDateDesc qualityHistory in
  slice 0 (Nat.min 3 (length sortedHistory)) sortedHistory.

(** [avgRecentPrice]: the prediction before the random factor. *)
Definition avgRecentPrice (qualityHistory : list PriceHistory.t) : Q :=
  let recent := recentPrices qualityHistory in
  (reduce (fun sum h => sum + PriceHistory.price h) 0 recent
   / inject_Z (Z.of_nat (length recent)))%Q.

(** The default price of the branch without history. *)
Definition defaultPrice (quality : JsValue) : Q :=
  (20 + (if strictEq quality (JString "A") then 10
         else if strictEq quality (JString "B") then 5 else 0))%Q.

(** [predictionFactor] for a draw [r] of [Math.random]. *)
Definition predictionFactor (r : Q) : Q := (1 + (r * 0.1 - 0.05))%Q.

Definition predictPrice (cropTypeId location quality : JsValue) : Promise Q :=
  history <- getPriceHistoryByCropTypeAndLocation cropTypeId location ;;
  let qualityHistory :=
    filter (fun h => strictEq (JString (PriceHistory.quality h)) quality)
      history in
  if Nat.eqb (length qualityHistory) 0 then
    ret (defaultPrice quality)
  else
    r <- Math_random ;;
    ret (avgRecentPrice qualityHistory * predictionFactor r)%Q.

(** ** [MemStorage.getForecastData] *)

Record Dataset := mkDataset
  { cropId : Z; cropName : string; data : list Z }.

Record DemandGroups := mkDemandGroups
  { high : list string; moderate : list string; low : list string }.

Record ForecastReport := mkForecastReport
  { labels : list string; datasets : list Dataset;
    demandGroups : DemandGroups }.

Definition months : list string := ["May"; "Jun"; "Jul"; "Aug"; "Sep"; "Oct"].

(** The [data] of one top crop. *)
Definition cropData (crop : CropType.t) : Promise (list Z) :=
  if String.eqb (CropType.name crop) "Tomato" then
    ret [30; 45; 60; 70; 65; 55]
  else if String.eqb (CropType.name crop) "Rice" then
    ret [50; 55; 52; 50; 48; 45]
  else if String.eqb (CropType.name crop) "Onion" then
    ret [20; 25; 40; 50; 65; 70]
  else
    mapM (fun _ => r <- Math_random ;; ret (Math_floor (r * 50) + 20)) months.

Definition cropDataset (crop : CropType.t) : Promise Dataset :=
  data <- cropData crop ;;
  ret (mkDataset (CropType.id crop) (CropType.name crop) data).

Definition getForecastData : Promise ForecastReport :=
  cropTypes <- getCropTypes ;;
  let topCrops := slice 0 3 cropTypes in
  datasets <- mapM cropDataset topCrops ;;
  let highDemandCrops := ["Green Chillies"; "Tomato"; "Eggplant"] in
  let moderateDemandCrops := ["Rice"; "Onion"; "Cauliflower"] in
  let lowDemandCrops := ["Potato"; "Cabbage"; "Carrots"] in
  ret (mkForecastReport months datasets
         (mkDemandGroups highDemandCrops moderateDemandCrops lowDemandCrops)).

(** ** The API layer: [POST /api/predict-price] and [GET /api/forecast] *)

Module PredictBody.
(** The fields the handler destructures from [req.body]; a field the
    request does not carry is [JUndefined]. *)
Record t := mk
  { cropTypeId : JsValue; cropTypeName : JsValue; location : JsValue;
    quality : JsValue }.
End PredictBody.

Inductive ResponseBody : Type :=
| Message (message : string)
| Prediction (minPrice maxPrice : Q) (priceRange : string)
    (averagePrice : Q) (marketComparison : string)
| Forecast (report : ForecastReport).

Record Response := mkResponse { status : Z; json : ResponseBody }.

Definition digitsToString (d : Z) : string :=
  NilZero.string_of_uint (N.to_uint (Z.to_N d)).

(** The text a template literal gives a number that has at most two
    fractional digits and is below 1e21 in magnitude: the shortest decimal
    notation, without trailing zeros. *)
Definition numberToString (x : Q) : string :=
  let hundredths := Qfloor (Qabs x * 100)%Q in
  let whole := hundredths / 100 in
  let frac := hundredths mod 100 in
  ((if Qle_bool 0 x then "" else "-")
   ++ digitsToString whole
   ++ (if (frac =? 0)%Z then ""
       else "." ++ digitsToString (frac / 10)%Z
                ++ (if (frac mod 10 =? 0)%Z then ""
                    else digitsToString (frac mod 10)%Z)))%string.

(** [Math.round(x * 100) / 100]. *)
Definition round2 (x : Q) : Q := (Math_round (x * 100) / 100)%Q.

Definition rupee : string := "₹".

Definition badRequest (message : string) : Response :=
  mkResponse 400 (Message message).

Definition internalServerError : Response :=
  mkResponse 500 (Message "Internal server error").

(** The conversion of a crop type name to an identifier.  [inl] is the
    early [return res.status(400)...], [inr] the [resolvedCropTypeId] the
    handler goes on with. *)
Definition resolveCropTypeId {R : Runtime} (body : PredictBody.t)
  : Promise (Response + JsValue) :=
  let resolvedCropTypeId := PredictBody.cropTypeId body in
  if negb (truthy resolvedCropTypeId) && truthy (PredictBody.cropTypeName body)
  then
    cropType <- getCropTypeByName (PredictBody.cropTypeName body) ;;
    match cropType with
    | None => ret (inl (badRequest "Invalid crop type name"))
    | Some c => ret (inr (JsInt (CropType.id c)))
    end
  else ret (inr resolvedCropTypeId).

(** The response built from the predicted [price]; [coin] is the draw of
    [Math.random] behind [marketComparison]. *)
Definition predictionResponse (price coin : Q) : Response :=
  let roundedPrice := round2 price in
  let minPrice := round2 (roundedPrice * 0.9) in
  let maxPrice := round2 (roundedPrice * 1.1) in
  mkResponse 200
    (Prediction minPrice maxPrice
       (rupee ++ numberToString minPrice ++ "-" ++ numberToString maxPrice)%string
       roundedPrice
       (if Qle_bool coin 0.5 then "below" else "above")).

(** The body of the [try] block of the prediction route. *)
Definition predictPriceRoute_try {R : Runtime} (body : PredictBody.t)
  : Promise Response :=
  let location := PredictBody.location body in
  let quality := PredictBody.quality body in
  resolution <- resolveCropTypeId body ;;
  match resolution with
  | inl response => ret response
  | inr resolvedCropTypeId =>
      if negb (truthy resolvedCropTypeId) || negb (truthy location)
         || negb (truthy quality)
      then ret (badRequest "Missing required fields")
      else
        price <- predictPrice resolvedCropTypeId location quality ;;
        coin <- Math_random ;;
        ret (predictionResponse price coin)
  end.

Definition predictPriceRoute {R : Runtime} (body : PredictBody.t)
  : Promise Response :=
  try_catch (predictPriceRoute_try body) (fun _ => ret internalServerError).

Definition forecastRoute : Promise Response :=
  try_catch (forecastData <- getForecastData ;;
             ret (mkResponse 200 (Forecast forecastData)))
    (fun _ => ret internalServerError).

(** ** Numbers as the runtime has them

    A [number] is a binary64 floating-point number, and every operation on
    numbers rounds its exact result to the nearest one.  What follows is
    [predictPrice] and the prediction route once more, on the binary64
    numbers of the standard library, whose operations are those of
    IEEE 754.  A price of the storage and a draw of the world are read as
    the binary64 number nearest to the rational held, which is that number
    itself where the rational is a binary64 number. *)
Module Binary64.

(** The binary64 number nearest to the integer [z], a tie going to the
    even significand. *)
Definition ofZ (z : Z) : float :=
  SF2Prim (binary_normalize prec emax z 0 false).

(** The binary64 number nearest to the rational [q].  The quotient is cut
    below every bit the rounding looks at and a remainder is kept as a
    last odd bit, so that the rounding is that of the exact quotient. *)
Definition ofQ (q : Q) : float :=
  let n := Qnum q * 2 ^ 1100 in
  let d := Z.pos (Qden q) in
  let sticky := if n mod d =? 0 then 0 else 1 in
  SF2Prim (binary_normalize prec emax (2 * (n / d) + sticky) (-1101) false).

(** The rational a finite binary64 number is. *)
Definition toQ (x : float) : Q :=
  match Prim2SF x with
  | S754_finite s m e =>
      (inject_Z (if s then Z.neg m else Z.pos m) * Qpower 2 e)%Q
  | _ => 0%Q
  end.

(** [Math.round]: the integer nearest to [x], the upper one of two equally
    near.  Zeros, infinities and NaN are returned as they are, and a result
    of zero keeps the sign of [x]. *)
Definition Math_round (x : float) : float :=
  match Prim2SF x with
  | S754_finite s _ _ =>
      SF2Prim (binary_normalize prec emax (Qfloor (toQ x + (1 # 2))%Q) 0 s)
  | _ => x
  end.

(** [Math.round(x * 100) / 100]. *)
Definition round2 (x : float) : float := (Math_round (x * 100) / 100)%float.

(** [Math.random()]. *)
Definition Math_random : Promise float := r <- Math_random ;; ret (ofQ r).

(** *** [Number::toString], the text a template literal gives a number *)

(** [n] with [10^(n-1) <= q < 10^n], for [0 < q]. *)
Fixpoint exponentUp (fuel : nat) (n : Z) (q : Q) : Z :=
  match fuel with
  | O => n
  | S fuel => if Qle_bool (Qpower 10 n) q then exponentUp fuel (n + 1) q else n
  end.

Fixpoint exponentDown (fuel : nat) (n : Z) (q : Q) : Z :=
  match fuel with
  | O => n
  | S fuel =>
      if Qle_bool (Qpower 10 (n - 1)) q then n else exponentDown fuel (n - 1) q
  end.

Definition decimalExponent (q : Q) : Z :=
  let estimate := (Z.log2 (Qnum q) - Z.log2 (Z.pos (Qden q))) * 3 / 10 in
  exponentDown 700 (exponentUp 700 estimate q) q.

(** The decimal [s * 10^(n-k)]. *)
Definition decimal (s n k : Z) : Q := (inject_Z s * Qpower 10 (n - k))%Q.

(** The decimals of [k] digits next to [q], below and above, as pairs
    [(s, n)]. *)
Definition neighbours (q : Q) (n : Z) (k : Z) : list (Z * Z) :=
  let s := Qfloor (q * Qpower 10 (k - n))%Q in
  [(s, n); (if s + 1 =? 10 ^ k then (10 ^ (k - 1), n + 1) else (s + 1, n))].

(** Of the decimals of [k] digits that read back as [x], the one closest
    to [x], the even one of two equally close. *)
Definition shortest (x : float) (q : Q) (n : Z) (k : Z) : option (Z * Z) :=
  let readsBack '(s, n') := PrimFloat.eqb (ofQ (decimal s n' k)) x in
  match neighbours q n k with
  | [lo; hi] =>
      let dlo := (q - decimal (fst lo) (snd lo) k)%Q in
      let dhi := (decimal (fst hi) (snd hi) k - q)%Q in
      match readsBack lo, readsBack hi with
      | true, true =>
          if Qeq_bool dlo dhi then Some (if Z.even (fst lo) then lo else hi)
          else if Qle_bool dlo dhi then Some lo else Some hi
      | true, false => Some lo
      | false, true => Some hi
      | false, false => None
      end
  | _ => None
  end.

(** The least number of digits with such a decimal; 17 always do. *)
Fixpoint shortestFrom (fuel : nat) (x : float) (q : Q) (n : Z) (k : Z)
  : Z * Z * Z :=
  match fuel with
  | O => (0, n, k)
  | S fuel =>
      match shortest x q n k with
      | Some (s, n') => (s, n', k)
      | None => shortestFrom fuel x q n (k + 1)
      end
  end.

Fixpoint zeros (n : nat) : string :=
  match n with O => "" | S n => String "0" (zeros n) end.

(** The text of a positive finite number. *)
Definition positiveToString (x : float) : string :=
  let q := toQ x in
  let '(s, n, k) := shortestFrom 17 x q (decimalExponent q) 1 in
  let digits := digitsToString s in
  if (k <=? n) && (n <=? 21) then (digits ++ zeros (Z.to_nat (n - k)))%string
  else if (0 <? n) && (n <=? 21) then
    (substring 0 (Z.to_nat n) digits ++ "."
     ++ substring (Z.to_nat n) (Z.to_nat (k - n)) digits)%string
  else if (-6 <? n) && (n <=? 0) then
    ("0." ++ zeros (Z.to_nat (- n)) ++ digits)%string
  else
    let e := n - 1 in
    let sign := if 0 <=? e then "+" else "-" in
    let exponent := (sign ++ digitsToString (Z.abs e))%string in
    if k =? 1 then (digits ++ "e" ++ exponent)%string
    else (substring 0 1 digits ++ "." ++ substring 1 (Z.to_nat (k - 1)) digits
          ++ "e" ++ exponent)%string.

Definition numberToString (x : float) : string :=
  match Prim2SF x with
  | S754_nan => "NaN"
  | S754_zero _ => "0"
  | S754_infinity s => if s then "-Infinity" else "Infinity"
  | S754_finite s _ _ =>
      if s then ("-" ++ positiveToString (- x)%float)%string
      else positiveToString x
  end.

(** *** [MemStorage.predictPrice] *)

(** [h.price]. *)
Definition price (h : PriceHistory.t) : float := ofQ (PriceHistory.price h).

Definition avgRecentPrice (qualityHistory : list PriceHistory.t) : float :=
  let recent := recentPrices qualityHistory in
  (reduce (fun sum h => sum + price h) 0 recent
   / ofZ (Z.of_nat (length recent)))%float.

Definition defaultPrice (quality : JsValue) : float :=
  (20 + (if strictEq quality (JString "A") then 10
         else if strictEq quality (JString "B") then 5 else 0))%float.

Definition predictionFactor (r : float) : float := (1 + (r * 0.1 - 0.05))%float.

Definition predictPrice (cropTypeId location quality : JsValue)
  : Promise float :=
  history <- getPriceHistoryByCropTypeAndLocation cropTypeId location ;;
  let qualityHistory :=
    filter (fun h => strictEq (JString (PriceHistory.quality h)) quality)
      history in
  if Nat.eqb (length qualityHistory) 0 then
    ret (defaultPrice quality)
  else
    r <- Math_random ;;
    ret (avgRecentPrice qualityHistory * predictionFactor r)%float.

(** *** [POST /api/predict-price] *)

Inductive ResponseBody : Type :=
| Message (message : string)
| Prediction (minPrice maxPrice : float) (priceRange : string)
    (averagePrice : float) (marketComparison : string).

Record Response := mkResponse { status : Z; json : ResponseBody }.

Definition badRequest (message : string) : Response :=
  mkResponse 400 (Message message).

Definition internalServerError : Response :=
  mkResponse 500 (Message "Internal server error").

Definition resolveCropTypeId {R : Runtime} (body : PredictBody.t)
  : Promise (Response + JsValue) :=
  let resolvedCropTypeId := PredictBody.cropTypeId body in
  if negb (truthy resolvedCropTypeId) && truthy (PredictBody.cropTypeName body)
  then
    cropType <- getCropTypeByName (PredictBody.cropTypeName body) ;;
    match cropType with
    | None => ret (inl (badRequest "Invalid crop type name"))
    | Some c => ret (inr (JsInt (CropType.id c)))
    end
  else ret (inr resolvedCropTypeId).

Definition predictionResponse (price coin : float) : Response :=
  let roundedPrice := round2 price in
  let minPrice := round2 (roundedPrice * 0.9) in
  let maxPrice := round2 (roundedPrice * 1.1) in
  mkResponse 200
    (Prediction minPrice maxPrice
       (rupee ++ numberToString minPrice ++ "-" ++ numberToString maxPrice)%string
       roundedPrice
       (if (0.5 <? coin)%float then "above" else "below")).

Definition predictPriceRoute_try {R : Runtime} (body : PredictBody.t)
  : Promise Response :=
  let location := PredictBody.location body in
  let quality := PredictBody.quality body in
  resolution <- resolveCropTypeId body ;;
  match resolution with
  | inl response => ret response
  | inr resolvedCropTypeId =>
      if negb (truthy resolvedCropTypeId) || negb (truthy location)
         || negb (truthy quality)
      then ret (badRequest "Missing required fields")
      else
        price <- predictPrice resolvedCropTypeId location quality ;;
        coin <- Math_random ;;
        ret (predictionResponse price coin)
  end.

Definition predictPriceRoute {R : Runtime} (body : PredictBody.t)
  : Promise Response :=
  try_catch (predictPriceRoute_try body) (fun _ => ret internalServerError).

(** *** Vocabulary *)

(** The mean of numbers as binary64 arithmetic gives it: the numbers are
    added one after another to 0, in the order of the list, and the sum is
    divided by their count; each sum and the quotient are rounded. *)
Definition mean (prices : list float) : float :=
  (fold_left PrimFloat.add prices 0 / ofZ (Z.of_nat (length prices)))%float.

(** The draw of [Math.random] a world is about to give. *)
Definition nextDraw (w : World) : float := ofQ (random w (draws w)).

End Binary64.

(** * Vocabulary of the specification *)

(** The entries a request selects: entry by entry, the comparison of
    [getPriceHistoryByCropTypeAndLocation] and the quality filter. *)
Definition matchesRequest (cropTypeId location quality : JsValue)
  (h : PriceHistory.t) : bool :=
  strictEq (JsInt (PriceHistory.cropTypeId h)) cropTypeId
  && strictEq (JString (PriceHistory.location h)) location
  && strictEq (JString (PriceHistory.quality h)) quality.

Definition matchingHistory (w : World) (cropTypeId location quality : JsValue)
  : list PriceHistory.t :=
  filter (matchesRequest cropTypeId location quality)
    (map_values (MemStorage.priceHistory (storage w))).

(** The quality bonus as the specification words it. *)
Definition bonus (quality : JsValue) : Q :=
  if strictEq quality (JString "A") then 10%Q
  else if strictEq quality (JString "B") then 5%Q
  else 0%Q.

(** The world after one draw of [Math.random]. *)
Definition afterDraw (w : World) : World :=
  mkWorld (storage w) (random w) (S (draws w)) (clock w).

(** The arithmetic mean of the prices of a list of entries. *)
Definition sumPrices (a : list PriceHistory.t) : Q :=
  fold_right (fun h acc => PriceHistory.price h + acc)%Q 0%Q a.

Definition meanPrice (a : list PriceHistory.t) : Q :=
  (sumPrices a / inject_Z (Z.of_nat (length a)))%Q.

(** [a] is recorded no earlier than [b]. *)
Definition noOlder (a b : PriceHistory.t) : Prop :=
  PriceHistory.recordedDate b <= PriceHistory.recordedDate a.

(** A request field is absent when the request does not carry it. *)
Definition absent (v : JsValue) : Prop := v = JUndefined.

(** A field the handler's [!field] test rejects: an absent one, and one
    that carries [null], [false], the number 0 or the empty string. *)
Definition falsy (v : JsValue) : Prop := truthy v = false.

(** The handler turns to the name when no [cropTypeId] came and a name did. *)
Definition nameConsulted (body : PredictBody.t) : bool :=
  negb (truthy (PredictBody.cropTypeId body))
  && truthy (PredictBody.cropTypeName body).

(** [c] is the first of the crop types [stored] whose name is [s], letter
    case apart. *)
Definition firstNamed {R : Runtime} (s : string) (stored : list CropType.t)
  (c : CropType.t) : Prop :=
  exists before after,
    stored = before ++ c :: after
    /\ toLowerCase (CropType.name c) = toLowerCase s
    /\ Forall (fun b => toLowerCase (CropType.name b) <> toLowerCase s) before.

(** The name is a string and, letter case apart, the name of no stored
    crop type.  A name that is not a string is the name of no crop type
    either, but passes for unknown only where nothing is stored. *)
Definition namesNoCropType {R : Runtime} (name : JsValue) (w : World) : Prop :=
  let stored := map_values (MemStorage.cropTypes (storage w)) in
  match name with
  | JString s =>
      Forall (fun c => toLowerCase (CropType.name c) <> toLowerCase s) stored
  | _ => stored = []
  end.

(** The name, consulted, resolves to no stored crop type. *)
Definition unknownCropType {R : Runtime} (body : PredictBody.t) (w : World)
  : Prop :=
  nameConsulted body = true
  /\ namesNoCropType (PredictBody.cropTypeName body) w.

(** [resolved] is the [cropTypeId] after name resolution: the identifier
    of the request, or, where the name is consulted, the identifier of the
    first stored crop type of that name. *)
Definition resolvesTo {R : Runtime} (body : PredictBody.t) (w : World)
  (resolved : JsValue) : Prop :=
  if nameConsulted body then
    exists s c,
      PredictBody.cropTypeName body = JString s
      /\ firstNamed s (map_values (MemStorage.cropTypes (storage w))) c
      /\ resolved = JsInt (CropType.id c)
  else resolved = PredictBody.cropTypeId body.

Definition missingRequiredField {R : Runtime} (body : PredictBody.t)
  (w : World) : Prop :=
  exists resolved,
    resolvesTo body w resolved
    /\ (falsy resolved \/ falsy (PredictBody.location body)
        \/ falsy (PredictBody.quality body)).

(** All three fields pass the handler's test. *)
Definition allPresent (resolved : JsValue) (body : PredictBody.t) : bool :=
  truthy resolved && truthy (PredictBody.location body)
  && truthy (PredictBody.quality body).


(** The hand-written curves of the forecast. *)
Definition tomatoCurve : list Z := [30; 45; 60; 70; 65; 55].
Definition riceCurve : list Z := [50; 55; 52; 50; 48; 45].
Definition onionCurve : list Z := [20; 25; 40; 50; 65; 70].

(** A forecast point of a crop without a curve. *)
Definition inForecastRange (v : Z) : Prop := 20 <= v <= 69.

(** What the forecast promises for the series of the crop called [name]. *)
Definition seriesFor (name : string) (series : list Z) : Prop :=
  length series = 6%nat
  /\ (name = "Tomato" -> series = tomatoCurve)
  /\ (name = "Rice" -> series = riceCurve)
  /\ (name = "Onion" -> series = onionCurve)
  /\ (name <> "Tomato" -> name <> "Rice" -> name <> "Onion" ->
      Forall inForecastRange series).

(** The dataset of a top crop. *)
Definition datasetFor (crop : CropType.t) (d : Dataset) : Prop :=
  cropId d = CropType.id crop /\ cropName d = CropType.name crop
  /\ seriesFor (CropType.name crop) (data d).

(** The demand tiers of the forecast. *)
Definition fixedDemandGroups : DemandGroups :=
  mkDemandGroups ["Green Chillies"; "Tomato"; "Eggplant"]
    ["Rice"; "Onion"; "Cauliflower"] ["Potato"; "Cabbage"; "Carrots"].

(** Two worlds with the same storage, stream of draws and clock; only the
    number of draws consumed may differ. *)
Definition sameButDraws (w w' : World) : Prop :=
  storage w' = storage w /\ random w' = random w /\ clock w' = clock w.

(** The crops the forecast reports on. *)
Definition topCrops (w : World) : list CropType.t :=
  firstn 3 (map_values (MemStorage.cropTypes (storage w))).

(** No stored crop type has the identifier [n]. *)
Definition identifiesNoCropType (s : MemStorage.t) (n : Q) : Prop :=
  forall c, In c (map_values (MemStorage.cropTypes s)) ->
            ~ (inject_Z (CropType.id c) == n)%Q.

(** Crop type identifiers start at 1. *)
Definition cropTypeIdsPositive (s : MemStorage.t) : Prop :=
  forall c, In c (map_values (MemStorage.cropTypes s)) -> 0 < CropType.id c.

(** The entries [getPriceHistoryByCropTypeAndLocation] returns. *)
Definition matchingLocation (w : World) (cropTypeId location : JsValue)
  : list PriceHistory.t :=
  match fst (getPriceHistoryByCropTypeAndLocation cropTypeId location w) with
  | Normal history => history
  | Throw _ => []
  end.

(** Every price on record is positive. *)
Definition pricesPositive (s : MemStorage.t) : Prop :=
  forall h, In h (map_values (MemStorage.priceHistory s)) ->
            (0 < PriceHistory.price h)%Q.

(** Every price on record belongs to a stored crop type. *)
Definition historyRefersToCropTypes (s : MemStorage.t) : Prop :=
  forall h, In h (map_values (MemStorage.priceHistory s)) ->
  exists c, In c (map_values (MemStorage.cropTypes s))
            /\ CropType.id c = PriceHistory.cropTypeId h.

(** [Math.random] stays in its range. *)
Definition randomInRange (w : World) : Prop :=
  forall n, (0 <= random w n)%Q /\ (random w n < 1)%Q.

(** The crop type collection after [initSampleData]. *)
Definition seededCropTypes : JsMap CropType.t :=
  [(1, CropType.mk 1 "Rice"); (2, CropType.mk 2 "Wheat");
   (3, CropType.mk 3 "Tomato"); (4, CropType.mk 4 "Potato");
   (5, CropType.mk 5 "Onion"); (6, CropType.mk 6 "Green Chillies");
   (7, CropType.mk 7 "Eggplant"); (8, CropType.mk 8 "Cauliflower");
   (9, CropType.mk 9 "Cabbage"); (10, CropType.mk 10 "Carrots")].

(** What holds of the storage while and after the sample prices are
    created: the ten crop types, and prices of at least 5 for them. *)
Definition seeded (s : MemStorage.t) : Prop :=
  MemStorage.cropTypes s = seededCropTypes
  /\ forall h, In h (map_values (MemStorage.priceHistory s)) ->
               (5 <= PriceHistory.price h)%Q
               /\ 1 <= PriceHistory.cropTypeId h <= 10.

(** ** A sample world

    The storage after [initSampleData], for one choice of the draws, the
    clock and the calendar. *)

Definition sampleMonthsBefore (t m : Z) : Z := t - m * 2629800000.

Definition sampleRandom (n : nat) : Q := Z.of_nat (Nat.modulo n 10) # 10.

(** The runtime of the examples.  Their strings are ASCII, where every
    runtime lowercases alike. *)
Definition asciiRuntime : Runtime :=
  mkRuntime asciiToLowerCase (fun _ _ => eq_refl).

Definition freshWorld : World :=
  mkWorld MemStorage.empty sampleRandom 0 1700000000000.

Definition sampleWorld : World :=
  snd (initSampleData sampleMonthsBefore freshWorld).

(** A storage with three prices for one request, each the binary64 number
    0.1. *)
Definition tenthsWorld : World :=
  snd (forEach createPriceHistory
         [InsertPriceHistory.mk 1 "Pune" (Binary64.toQ 0.1) "A" (Some 3);
          InsertPriceHistory.mk 1 "Pune" (Binary64.toQ 0.1) "A" (Some 2);
          InsertPriceHistory.mk 1 "Pune" (Binary64.toQ 0.1) "A" (Some 1)]
         freshWorld).


From Stdlib Require Import DecimalPos DecimalN.

(** * The rest of [MemStorage]

    The methods for users, listings, bids and barter offers.  The records
    carry the columns the storage and the routes read; what a method does
    to a record, it does to these columns. *)

Module InsertUser.
Record t := mk
  { username : string; password : string; name : string; location : string;
    phoneNumber : string; role : string }.
End InsertUser.

Module InsertListing.
Record t := mk
  { userId : Z; cropTypeId : Z; quantity : Q; price : Q; quality : string;
    description : string; location : string; isActive : bool }.
End InsertListing.

Module PartialListing.
(** [Partial<Listing>]: every column may be given or not. *)
Record t := mk
  { id : option Z; userId : option Z; cropTypeId : option Z;
    quantity : option Q; price : option Q; quality : option string;
    description : option string; location : option string;
    isActive : option bool; createdAt : option Z }.
End PartialListing.

Module InsertBid.
Record t := mk { listingId : Z; userId : Z; amount : Q }.
End InsertBid.

Module InsertBarterOffer.
Record t := mk { offerUserId : Z; receiverUserId : Z }.
End InsertBarterOffer.

(** [this.users = ...; this.userId = ...] and its like for the other
    collections. *)
Definition set_users (s : MemStorage.t) (m : JsMap User.t) (n : Z)
  : MemStorage.t :=
  MemStorage.mk m (MemStorage.cropTypes s) (MemStorage.listings s)
    (MemStorage.bids s) (MemStorage.barterOffers s) (MemStorage.priceHistory s)
    n (MemStorage.cropTypeId s) (MemStorage.listingId s) (MemStorage.bidId s)
    (MemStorage.barterOfferId s) (MemStorage.priceHistoryId s).

Definition set_listings (s : MemStorage.t) (m : JsMap Listing.t) (n : Z)
  : MemStorage.t :=
  MemStorage.mk (MemStorage.users s) (MemStorage.cropTypes s) m
    (MemStorage.bids s) (MemStorage.barterOffers s) (MemStorage.priceHistory s)
    (MemStorage.userId s) (MemStorage.cropTypeId s) n (MemStorage.bidId s)
    (MemStorage.barterOfferId s) (MemStorage.priceHistoryId s).

Definition set_bids (s : MemStorage.t) (m : JsMap Bid.t) (n : Z)
  : MemStorage.t :=
  MemStorage.mk (MemStorage.users s) (MemStorage.cropTypes s)
    (MemStorage.listings s) m (MemStorage.barterOffers s)
    (MemStorage.priceHistory s)
    (MemStorage.userId s) (MemStorage.cropTypeId s) (MemStorage.listingId s) n
    (MemStorage.barterOfferId s) (MemStorage.priceHistoryId s).

Definition set_barterOffers (s : MemStorage.t) (m : JsMap BarterOffer.t)
  (n : Z) : MemStorage.t :=
  MemStorage.mk (MemStorage.users s) (MemStorage.cropTypes s)
    (MemStorage.listings s) (MemStorage.bids s) m (MemStorage.priceHistory s)
    (MemStorage.userId s) (MemStorage.cropTypeId s) (MemStorage.listingId s)
    (MemStorage.bidId s) n (MemStorage.priceHistoryId s).

(** ** Users *)

Definition getUser (id : Z) : Promise (option User.t) :=
  s <- this ;; ret (map_get id (MemStorage.users s)).

(** The [for ... of] loop of [getUserByUsername]. *)
Fixpoint getUserByUsername_for (username : string) (values : list User.t)
  : option User.t :=
  match values with
  | [] => None
  | user :: rest =>
      if String.eqb (User.username user) username then Some user
      else getUserByUsername_for username rest
  end.

Definition getUserByUsername (username : string) : Promise (option User.t) :=
  s <- this ;;
  ret (getUserByUsername_for username (map_values (MemStorage.users s))).

Definition createUser (user : InsertUser.t) : Promise User.t :=
  s <- this ;;
  let id := MemStorage.userId s in
  let newUser :=
    User.mk id (InsertUser.username user) (InsertUser.password user)
      (InsertUser.name user) (InsertUser.location user)
      (InsertUser.phoneNumber user) (InsertUser.role user) in
  _ <- set_this (set_users s (map_set id newUser (MemStorage.users s)) (id + 1)) ;;
  ret newUser.

(** ** Listings *)

Definition getListings : Promise (list Listing.t) :=
  s <- this ;; ret (map_values (MemStorage.listings s)).

Definition getListing (id : Z) : Promise (option Listing.t) :=
  s <- this ;; ret (map_get id (MemStorage.listings s)).

Definition getListingsByUserId (userId : Z) : Promise (list Listing.t) :=
  s <- this ;;
  ret (filter (fun listing => Listing.userId listing =? userId)
         (map_values (MemStorage.listings s))).

Definition createListing (listing : InsertListing.t) : Promise Listing.t :=
  s <- this ;;
  let id := MemStorage.listingId s in
  now <- Date_now ;;
  let newListing :=
    Listing.mk id (InsertListing.userId listing)
      (InsertListing.cropTypeId listing) (InsertListing.quantity listing)
      (InsertListing.price listing) (InsertListing.quality listing)
      (InsertListing.description listing) (InsertListing.location listing)
      (InsertListing.isActive listing) now in
  _ <- set_this
         (set_listings s (map_set id newListing (MemStorage.listings s))
            (id + 1)) ;;
  ret newListing.

(** One column of [{ ...listing, ...listingUpdate }]. *)
Definition spread {A} (old : A) (update : option A) : A :=
  match update with
  | Some new => new
  | None => old
  end.

Definition mergeListing (listing : Listing.t) (u : PartialListing.t)
  : Listing.t :=
  Listing.mk
    (spread (Listing.id listing) (PartialListing.id u))
    (spread (Listing.userId listing) (PartialListing.userId u))
    (spread (Listing.cropTypeId listing) (PartialListing.cropTypeId u))
    (spread (Listing.quantity listing) (PartialListing.quantity u))
    (spread (Listing.price listing) (PartialListing.price u))
    (spread (Listing.quality listing) (PartialListing.quality u))
    (spread (Listing.description listing) (PartialListing.description u))
    (spread (Listing.location listing) (PartialListing.location u))
    (spread (Listing.isActive listing) (PartialListing.isActive u))
    (spread (Listing.createdAt listing) (PartialListing.createdAt u)).

Definition updateListing (id : Z) (listingUpdate : PartialListing.t)
  : Promise (option Listing.t) :=
  s <- this ;;
  match map_get id (MemStorage.listings s) with
  | None => ret None
  | Some listing =>
      let updatedListing := mergeListing listing listingUpdate in
      _ <- set_this
             (set_listings s (map_set id updatedListing (MemStorage.listings s))
                (MemStorage.listingId s)) ;;
      ret (Some updatedListing)
  end.

(** ** Bids *)

Definition getBids : Promise (list Bid.t) :=
  s <- this ;; ret (map_values (MemStorage.bids s)).

Definition getBid (id : Z) : Promise (option Bid.t) :=
  s <- this ;; ret (map_get id (MemStorage.bids s)).

Definition getBidsByListingId (listingId : Z) : Promise (list Bid.t) :=
  s <- this ;;
  ret (filter (fun bid => Bid.listingId bid =? listingId)
         (map_values (MemStorage.bids s))).

Definition getBidsByUserId (userId : Z) : Promise (list Bid.t) :=
  s <- this ;;
  ret (filter (fun bid => Bid.userId bid =? userId)
         (map_values (MemStorage.bids s))).

Definition createBid (bid : InsertBid.t) : Promise Bid.t :=
  s <- this ;;
  let id := MemStorage.bidId s in
  now <- Date_now ;;
  let newBid :=
    Bid.mk id (InsertBid.listingId bid) (InsertBid.userId bid)
      (InsertBid.amount bid) now "pending" in
  _ <- set_this (set_bids s (map_set id newBid (MemStorage.bids s)) (id + 1)) ;;
  ret newBid.

Definition updateBidStatus (id : Z) (status : string) : Promise (option Bid.t) :=
  s <- this ;;
  match map_get id (MemStorage.bids s) with
  | None => ret None
  | Some bid =>
      let updatedBid :=
        Bid.mk (Bid.id bid) (Bid.listingId bid) (Bid.userId bid)
          (Bid.amount bid) (Bid.createdAt bid) status in
      _ <- set_this
             (set_bids s (map_set id updatedBid (MemStorage.bids s))
                (MemStorage.bidId s)) ;;
      ret (Some updatedBid)
  end.

(** ** Barter offers *)

Definition getBarterOffers : Promise (list BarterOffer.t) :=
  s <- this ;; ret (map_values (MemStorage.barterOffers s)).

Definition getBarterOffer (id : Z) : Promise (option BarterOffer.t) :=
  s <- this ;; ret (map_get id (MemStorage.barterOffers s)).

Definition getBarterOffersByUserId (userId : Z) : Promise (list BarterOffer.t) :=
  s <- this ;;
  ret (filter
         (fun offer => (BarterOffer.offerUserId offer =? userId)
                       || (BarterOffer.receiverUserId offer =? userId))
         (map_values (MemStorage.barterOffers s))).

Definition createBarterOffer (barterOffer : InsertBarterOffer.t)
  : Promise BarterOffer.t :=
  s <- this ;;
  let id := MemStorage.barterOfferId s in
  now <- Date_now ;;
  let newBarterOffer :=
    BarterOffer.mk id (InsertBarterOffer.offerUserId barterOffer)
      (InsertBarterOffer.receiverUserId barterOffer) now "pending" in
  _ <- set_this
         (set_barterOffers s
            (map_set id newBarterOffer (MemStorage.barterOffers s)) (id + 1)) ;;
  ret newBarterOffer.

Definition updateBarterOfferStatus (id : Z) (status : string)
  : Promise (option BarterOffer.t) :=
  s <- this ;;
  match map_get id (MemStorage.barterOffers s) with
  | None => ret None
  | Some barterOffer =>
      let updatedBarterOffer :=
        BarterOffer.mk (BarterOffer.id barterOffer)
          (BarterOffer.offerUserId barterOffer)
          (BarterOffer.receiverUserId barterOffer)
          (BarterOffer.createdAt barterOffer) status in
      _ <- set_this
             (set_barterOffers s
                (map_set id updatedBarterOffer (MemStorage.barterOffers s))
                (MemStorage.barterOfferId s)) ;;
      ret (Some updatedBarterOffer)
  end.


(** ** Vocabulary for the storage as a whole *)

Definition keys {V} (m : JsMap V) : list Z := map fst m.

(** The keys of a collection are distinct and below its counter. *)
Definition wellKeyed {V} (counter : Z) (m : JsMap V) : Prop :=
  NoDup (keys m) /\ forall k, In k (keys m) -> k < counter.

(** Every record is stored under its own identifier. *)
Definition indexed {V} (id : V -> Z) (m : JsMap V) : Prop :=
  forall k v, In (k, v) m -> id v = k.

(** What every sequence of storage calls keeps.  Listings are stored under
    distinct keys like the rest, but [updateListing] may rewrite the [id]
    column, so they are not claimed to be [indexed]. *)
Definition consistent (s : MemStorage.t) : Prop :=
  (wellKeyed (MemStorage.userId s) (MemStorage.users s)
   /\ indexed User.id (MemStorage.users s))
  /\ (wellKeyed (MemStorage.cropTypeId s) (MemStorage.cropTypes s)
      /\ indexed CropType.id (MemStorage.cropTypes s))
  /\ wellKeyed (MemStorage.listingId s) (MemStorage.listings s)
  /\ (wellKeyed (MemStorage.bidId s) (MemStorage.bids s)
      /\ indexed Bid.id (MemStorage.bids s))
  /\ (wellKeyed (MemStorage.barterOfferId s) (MemStorage.barterOffers s)
      /\ indexed BarterOffer.id (MemStorage.barterOffers s))
  /\ (wellKeyed (MemStorage.priceHistoryId s) (MemStorage.priceHistory s)
      /\ indexed PriceHistory.id (MemStorage.priceHistory s)).

(** ** The constructor

    [initSampleData] in full.  Besides the crop types and the prices it
    creates four users and three listings, here with the columns above. *)

Definition sampleUsers : list InsertUser.t :=
  [InsertUser.mk "farmer1" "password" "Rajesh Kumar" "Nashik" "+911234567890"
     "farmer";
   InsertUser.mk "farmer2" "password" "Anita Singh" "Pune" "+911234567891"
     "farmer";
   InsertUser.mk "farmer3" "password" "Suresh Kumar" "Nagpur" "+911234567892"
     "farmer";
   InsertUser.mk "buyer1" "password" "Mohan Patel" "Mumbai" "+911234567893"
     "buyer"].

Definition sampleListings : list InsertListing.t :=
  [InsertListing.mk 1 1 100 42 "A" "Premium Basmati Rice" "Nashik" true;
   InsertListing.mk 2 3 50 25 "A" "Fresh Tomatoes" "Pune" true;
   InsertListing.mk 3 2 200 32 "B" "Organic Wheat" "Nagpur" true].

Definition initSampleData_full (monthsBefore : Z -> Z -> Z) : Promise unit :=
  _ <- initSampleCropTypes ;;
  _ <- forEach createUser sampleUsers ;;
  _ <- forEach createListing sampleListings ;;
  initSamplePriceHistory monthsBefore.

(** [new MemStorage()]: empty collections, counters at 1, then the sample
    data.  The session store is not modelled. *)
Definition MemStorage_constructor (monthsBefore : Z -> Z -> Z) : Promise unit :=
  _ <- set_this MemStorage.empty ;; initSampleData_full monthsBefore.

(** A call of a public method of the storage, with its arguments. *)
Inductive Call : Type :=
| CreateUser (user : InsertUser.t)
| CreateCropType (name : string)
| CreateListing (listing : InsertListing.t)
| UpdateListing (id : Z) (listingUpdate : PartialListing.t)
| CreateBid (bid : InsertBid.t)
| UpdateBidStatus (id : Z) (status : string)
| CreateBarterOffer (barterOffer : InsertBarterOffer.t)
| UpdateBarterOfferStatus (id : Z) (status : string)
| CreatePriceHistory (priceHistoryData : InsertPriceHistory.t)
| PredictPrice (cropTypeId location quality : JsValue)
| GetForecastData.

Definition call (c : Call) : Promise unit :=
  match c with
  | CreateUser user => _ <- createUser user ;; ret tt
  | CreateCropType name => _ <- createCropType name ;; ret tt
  | CreateListing listing => _ <- createListing listing ;; ret tt
  | UpdateListing id u => _ <- updateListing id u ;; ret tt
  | CreateBid bid => _ <- createBid bid ;; ret tt
  | UpdateBidStatus id status => _ <- updateBidStatus id status ;; ret tt
  | CreateBarterOffer offer => _ <- createBarterOffer offer ;; ret tt
  | UpdateBarterOfferStatus id status =>
      _ <- updateBarterOfferStatus id status ;; ret tt
  | CreatePriceHistory data => _ <- createPriceHistory data ;; ret tt
  | PredictPrice c l q => _ <- predictPrice c l q ;; ret tt
  | GetForecastData => _ <- getForecastData ;; ret tt
  end.

(** The value a computation completes with, if it does. *)
Definition result {A} (c : Promise A) (w : World) : option A :=
  match fst (c w) with
  | Normal a => Some a
  | Throw _ => None
  end.

(** ** A sample market

    The storage as the constructor leaves it for the draws, the clock and
    the calendar of the sample world, then two bids of the buyer on the
    first listing and a barter offer between two farmers. *)
Definition serverWorld : World :=
  snd (MemStorage_constructor sampleMonthsBefore freshWorld).

Definition marketCalls : list Call :=
  [CreateBid (InsertBid.mk 1 4 40); CreateBid (InsertBid.mk 1 4 41);
   CreateBarterOffer (InsertBarterOffer.mk 1 2)].

Definition marketWorld : World := snd (forEach call marketCalls serverWorld).


(** ** Vocabulary for the sample data *)

(** The price [initSampleData] starts from for crop [i] and a quality,
    before the random part. *)
Definition seedBasePrice (i : Z) (quality : string) : Q :=
  (15 + (inject_Z i * 2)
   + (if String.eqb quality "A" then 10
      else if String.eqb quality "B" then 5 else 0))%Q.

(** A price record as [initSampleData] creates them: within 5 of the base
    price, either bound included, since the sum is rounded. *)
Definition seededPrice (h : PriceHistory.t) : Prop :=
  1 <= PriceHistory.cropTypeId h <= 10
  /\ In (PriceHistory.location h) sampleLocations
  /\ In (PriceHistory.quality h) sampleQualities
  /\ (seedBasePrice (PriceHistory.cropTypeId h) (PriceHistory.quality h) - 5
      <= PriceHistory.price h)%Q
  /\ (PriceHistory.price h
      <= seedBasePrice (PriceHistory.cropTypeId h) (PriceHistory.quality h) + 5)%Q.

(** What a price record is filed under. *)
Definition historyKey (h : PriceHistory.t) : Z * string * string :=
  (PriceHistory.cropTypeId h, PriceHistory.location h, PriceHistory.quality h).

Definition sameKey (k k' : Z * string * string) : bool :=
  let '(i, l, q) := k in
  let '(i', l', q') := k' in
  (i =? i') && String.eqb l l' && String.eqb q q'.

(** The keys of the sample prices in the order of their creation. *)
Definition seedKeys : list (Z * string * string) :=
  flat_map
    (fun i =>
       flat_map
         (fun l => flat_map (fun q => repeat (i, l, q) 6) sampleQualities)
         sampleLocations)
    (map Z.of_nat (seq 1 (length sampleCropTypes))).

(** ** Vocabulary for the forecast *)

(** The crop has a hand-written curve. *)
Definition hasCurve (crop : CropType.t) : bool :=
  String.eqb (CropType.name crop) "Tomato"
  || String.eqb (CropType.name crop) "Rice"
  || String.eqb (CropType.name crop) "Onion".

(** ** Vocabulary for the constructor *)

(** The users and listings the constructor leaves, the listings created
    at the time [c]. *)
Definition seededUsers : JsMap User.t :=
  [(1, User.mk 1 "farmer1" "password" "Rajesh Kumar" "Nashik" "+911234567890"
         "farmer");
   (2, User.mk 2 "farmer2" "password" "Anita Singh" "Pune" "+911234567891"
         "farmer");
   (3, User.mk 3 "farmer3" "password" "Suresh Kumar" "Nagpur" "+911234567892"
         "farmer");
   (4, User.mk 4 "buyer1" "password" "Mohan Patel" "Mumbai" "+911234567893"
         "buyer")].

Definition seededListings (c : Z) : JsMap Listing.t :=
  [(1, Listing.mk 1 1 1 100 42 "A" "Premium Basmati Rice" "Nashik" true c);
   (2, Listing.mk 2 2 3 50 25 "A" "Fresh Tomatoes" "Pune" true c);
   (3, Listing.mk 3 3 2 200 32 "B" "Organic Wheat" "Nagpur" true c)].


(** * The routes over the storage

    [parseInt], as the routes call it on a path parameter, and the routes
    for one user, one listing and the status of a barter offer. *)

(** ** [parseInt(string)] *)

Definition bytes (codes : list nat) : string :=
  fold_right (fun n s => String (ascii_of_nat n) s) EmptyString codes.

(** The white space and line terminators [parseInt] skips, in UTF-8: tab,
    line feed, vertical tab, form feed, carriage return, space, U+00A0,
    U+1680, U+2000 to U+200A, U+2028, U+2029, U+202F, U+205F, U+3000 and
    U+FEFF. *)
Definition whiteSpace : list string :=
  map bytes
    [[9]; [10]; [11]; [12]; [13]; [32]; [194; 160]; [225; 154; 128];
     [226; 128; 128]; [226; 128; 129]; [226; 128; 130]; [226; 128; 131];
     [226; 128; 132]; [226; 128; 133]; [226; 128; 134]; [226; 128; 135];
     [226; 128; 136]; [226; 128; 137]; [226; 128; 138]; [226; 128; 168];
     [226; 128; 169]; [226; 128; 175]; [226; 129; 159]; [227; 128; 128];
     [239; 187; 191]]%nat.

Fixpoint stripPrefix (p s : string) : option string :=
  match p, s with
  | EmptyString, _ => Some s
  | String a p', String b s' => if Ascii.eqb a b then stripPrefix p' s' else None
  | String _ _, EmptyString => None
  end.

Fixpoint stripAny (ps : list string) (s : string) : option string :=
  match ps with
  | [] => None
  | p :: ps' =>
      match stripPrefix p s with
      | Some r => Some r
      | None => stripAny ps' s
      end
  end.

Fixpoint trimStart_from (fuel : nat) (s : string) : string :=
  match fuel with
  | O => s
  | S fuel' =>
      match stripAny whiteSpace s with
      | Some r => trimStart_from fuel' r
      | None => s
      end
  end.

Definition trimStart (s : string) : string := trimStart_from (String.length s) s.

(** The value of a digit, letters counting from ten. *)
Definition digitValue (c : ascii) : option Z :=
  let n := Z.of_nat (nat_of_ascii c) in
  if (48 <=? n) && (n <=? 57) then Some (n - 48)
  else if (97 <=? n) && (n <=? 122) then Some (n - 87)
  else if (65 <=? n) && (n <=? 90) then Some (n - 55)
  else None.

(** The longest run of digits of the radix at the start of [s]; [acc] is
    the value read so far, [None] while no digit was read. *)
Fixpoint parseDigits (radix : Z) (s : string) (acc : option Z) : option Z :=
  match s with
  | EmptyString => acc
  | String c r =>
      match digitValue c with
      | Some v =>
          if v <? radix then
            parseDigits radix r
              (Some (match acc with Some a => a * radix + v | None => v end))
          else acc
      | None => acc
      end
  end.

(** A leading sign, and the string after it. *)
Definition readSign (s : string) : Z * string :=
  match s with
  | String c r =>
      if Ascii.eqb c "-" then (-1, r)
      else if Ascii.eqb c "+" then (1, r) else (1, s)
  | EmptyString => (1, s)
  end.

(** The radix: 16 after a prefix [0x] or [0X], which is dropped, else 10. *)
Definition readRadix (s : string) : Z * string :=
  match s with
  | String c (String x r) =>
      if Ascii.eqb c "0" && (Ascii.eqb x "x" || Ascii.eqb x "X")
      then (16, r) else (10, s)
  | _ => (10, s)
  end.

(** [parseInt(s)] without a radix; [None] is [NaN].  Integers are exact
    here; the runtime rounds those beyond 2^53. *)
Definition parseInt (input : string) : option Z :=
  let (sign, s) := readSign (trimStart input) in
  let (radix, s) := readRadix s in
  match parseDigits radix s None with
  | Some v => Some (sign * v)
  | None => None
  end.

(** ** Answers *)

Inductive Reply (A : Type) : Type :=
| Answer (status : Z) (body : A)
| Refusal (status : Z) (message : string).
Arguments Answer {A} status body.
Arguments Refusal {A} status message.

Definition replyStatus {A} (r : Reply A) : Z :=
  match r with
  | Answer status _ => status
  | Refusal status _ => status
  end.

Definition internalError {A} : Reply A := Refusal 500 "Internal server error".

(** ** [GET /api/users/:id] *)

Module PublicUser.
Record t := mk
  { id : Z; username : string; name : string; location : string;
    phoneNumber : string; role : string }.
End PublicUser.

Definition getUserRoute (id : string) : Promise (Reply PublicUser.t) :=
  try_catch
    (match parseInt id with
     | None => ret (Refusal 400 "Invalid user ID")
     | Some userId =>
         user <- getUser userId ;;
         match user with
         | None => ret (Refusal 404 "User not found")
         | Some user =>
             ret (Answer 200
                    (PublicUser.mk (User.id user) (User.username user)
                       (User.name user) (User.location user)
                       (User.phoneNumber user) (User.role user)))
         end
     end)
    (fun _ => ret internalError).

(** ** [GET /api/listings/:id] *)

Module ListingDetail.
(** [{ ...listing, cropType, seller, bidCount }]; [cropType] carries [id]
    and [name], [seller] carries [id], [name] and [location]. *)
Record t := mk
  { listing : Listing.t; cropType : option (Z * string);
    seller : option (Z * string * string); bidCount : Z }.
End ListingDetail.

Definition getListingRoute (id : string) : Promise (Reply ListingDetail.t) :=
  try_catch
    (match parseInt id with
     | None => ret (Refusal 400 "Invalid listing ID")
     | Some listingId =>
         listing <- getListing listingId ;;
         match listing with
         | None => ret (Refusal 404 "Listing not found")
         | Some listing =>
             cropType <- getCropType (Listing.cropTypeId listing) ;;
             seller <- getUser (Listing.userId listing) ;;
             bids <- getBidsByListingId listingId ;;
             ret (Answer 200
                    (ListingDetail.mk listing
                       (match cropType with
                        | Some cropType =>
                            Some (CropType.id cropType, CropType.name cropType)
                        | None => None
                        end)
                       (match seller with
                        | Some seller =>
                            Some (User.id seller, User.name seller,
                                  User.location seller)
                        | None => None
                        end)
                       (Z.of_nat (length bids))))
         end
     end)
    (fun _ => ret internalError).

(** ** [PUT /api/barter-offers/:id/status] *)

(** [["accepted", "rejected"].includes(status)]. *)
Definition includes (values : list string) (v : JsValue) : bool :=
  existsb (fun s => strictEq (JString s) v) values.

(** The string a value is known to be once [includes] accepted it. *)
Definition asString (v : JsValue) : string :=
  match v with
  | JString s => s
  | _ => ""
  end.

(** [status] is the field of that name of the request body, which
    [express.json()] leaves an object; undefined when the body has none. *)
Definition putBarterOfferStatusRoute (idParam : string) (status : JsValue)
  : Promise (Reply BarterOffer.t) :=
  try_catch
    (match parseInt idParam with
     | None => ret (Refusal 400 "Invalid barter offer ID")
     | Some id =>
         if negb (truthy status) || negb (includes ["accepted"; "rejected"] status)
         then ret (Refusal 400 "Invalid status")
         else
           updatedOffer <- updateBarterOfferStatus id (asString status) ;;
           match updatedOffer with
           | None => ret (Refusal 404 "Barter offer not found")
           | Some updatedOffer => ret (Answer 200 updatedOffer)
           end
     end)
    (fun _ => ret internalError).

(** ** Vocabulary for the routes *)

(** [Number.MAX_SAFE_INTEGER]: up to it the runtime holds every integer
    exactly, so [parseInt] above agrees with it. *)
Definition MAX_SAFE_INTEGER : Z := 9007199254740991.

(** [c] is one of the digits 0 to 9. *)
Definition isDecimalDigit (c : ascii) : bool :=
  match digitValue c with
  | Some v => v <? 10
  | None => false
  end.

(** [r] does not start with the [x] of a hexadecimal prefix. *)
Definition noHexMark (r : string) : bool :=
  match r with
  | EmptyString => true
  | String x _ => negb (Ascii.eqb x "x" || Ascii.eqb x "X")
  end.

(** [rest] can follow a decimal numeral without changing what [parseInt]
    reads: it is empty or starts with something that is neither a decimal
    digit nor the [x] of a hexadecimal prefix. *)
Definition endsNumeral (rest : string) : bool :=
  match rest with
  | EmptyString => true
  | String c _ =>
      negb (isDecimalDigit c) && negb (Ascii.eqb c "x")
      && negb (Ascii.eqb c "X")
  end.

(** The statuses a barter offer takes through the routes. *)
Definition offerStatus (s : string) : Prop :=
  s = "pending" \/ s = "accepted" \/ s = "rejected".

Definition offersWellStatused (s : MemStorage.t) : Prop :=
  forall o, In o (map_values (MemStorage.barterOffers s)) ->
            offerStatus (BarterOffer.status o).

(** The value of a decimal numeral read after the value [a]. *)
Fixpoint uintValue (d : Decimal.uint) (a : Z) : Z :=
  match d with
  | Decimal.Nil => a
  | Decimal.D0 l => uintValue l (a * 10 + 0)
  | Decimal.D1 l => uintValue l (a * 10 + 1)
  | Decimal.D2 l => uintValue l (a * 10 + 2)
  | Decimal.D3 l => uintValue l (a * 10 + 3)
  | Decimal.D4 l => uintValue l (a * 10 + 4)
  | Decimal.D5 l => uintValue l (a * 10 + 5)
  | Decimal.D6 l => uintValue l (a * 10 + 6)
  | Decimal.D7 l => uintValue l (a * 10 + 7)
  | Decimal.D8 l => uintValue l (a * 10 + 8)
  | Decimal.D9 l => uintValue l (a * 10 + 9)
  end.

(** The public columns of a user. *)
Definition publicUser (user : User.t) : PublicUser.t :=
  PublicUser.mk (User.id user) (User.username user) (User.name user)
    (User.location user) (User.phoneNumber user) (User.role user).

(** What the listing route reports for the listing [l] stored under the
    key [k]. *)
Definition listingDetail (s : MemStorage.t) (k : Z) (l : Listing.t)
  : ListingDetail.t :=
  ListingDetail.mk l
    (option_map (fun c => (CropType.id c, CropType.name c))
       (map_get (Listing.cropTypeId l) (MemStorage.cropTypes s)))
    (option_map (fun u => (User.id u, User.name u, User.location u))
       (map_get (Listing.userId l) (MemStorage.users s)))
    (Z.of_nat
       (length (filter (fun bid => Bid.listingId bid =? k)
                  (map_values (MemStorage.bids s))))).

(** The offer with another status. *)
Definition withStatus (o : BarterOffer.t) (status : string) : BarterOffer.t :=
  BarterOffer.mk (BarterOffer.id o) (BarterOffer.offerUserId o)
    (BarterOffer.receiverUserId o) (BarterOffer.createdAt o) status.


(** ** The lists of listings and bids *)

(** [new Map(entries)]: the entries are set one after the other, so a key
    that comes twice keeps its first place and its last value. *)
Definition Map_of {V} (entries : list (Z * V)) : JsMap V :=
  fold_left (fun m e => map_set (fst e) (snd e) m) entries map_new.

(** [[...new Set(a)]]: the values of [a] without repetition, in the order
    of their first appearance. *)
Definition Set_values (a : list Z) : list Z :=
  fold_left
    (fun seen x => if existsb (Z.eqb x) seen then seen else seen ++ [x]) a [].

(** [a.filter(Boolean)] on records that may be undefined. *)
Definition filter_Boolean {A} (a : list (option A)) : list A :=
  flat_map (fun x => match x with Some y => [y] | None => [] end) a.

(** [count || 0] for a count that may be undefined. *)
Definition orZero (count : option Z) : Z :=
  match count with
  | Some n => n
  | None => 0
  end.

(** [new Map(allBids.map((bids, i) => [listingIds[i], bids.length]))];
    [allBids] has one entry for each of [listingIds], in the same order. *)
Definition bidCountMap_of (listingIds : list Z) (allBids : list (list Bid.t))
  : JsMap Z :=
  Map_of (map (fun e => (fst e, Z.of_nat (length (snd e))))
            (combine listingIds allBids)).

(** [cropType ? { id: cropType.id, name: cropType.name } : undefined]. *)
Definition cropTypeSummary (cropType : option CropType.t)
  : option (Z * string) :=
  match cropType with
  | Some cropType => Some (CropType.id cropType, CropType.name cropType)
  | None => None
  end.

(** [user ? { id: user.id, name: user.name, location: user.location }
    : undefined]. *)
Definition userSummary (user : option User.t) : option (Z * string * string) :=
  match user with
  | Some user => Some (User.id user, User.name user, User.location user)
  | None => None
  end.

(** [GET /api/listings]. *)
Definition getListingsRoute : Promise (Reply (list ListingDetail.t)) :=
  try_catch
    (listings <- getListings ;;
     cropTypes <- getCropTypes ;;
     let cropTypeMap := Map_of (map (fun ct => (CropType.id ct, ct)) cropTypes) in
     let userIds := Set_values (map Listing.userId listings) in
     users <- mapM getUser userIds ;;
     let userMap :=
       Map_of (map (fun u => (User.id u, u)) (filter_Boolean users)) in
     let listingIds := map Listing.id listings in
     allBids <- mapM getBidsByListingId listingIds ;;
     let bidCountMap := bidCountMap_of listingIds allBids in
     let enrichedListings :=
       map (fun listing =>
              let cropType := map_get (Listing.cropTypeId listing) cropTypeMap in
              let user := map_get (Listing.userId listing) userMap in
              let bidCount :=
                orZero (map_get (Listing.id listing) bidCountMap) in
              ListingDetail.mk listing (cropTypeSummary cropType)
                (userSummary user) bidCount)
         listings in
     ret (Answer 200 enrichedListings))
    (fun _ => ret internalError).

Module UserListing.
(** [{ ...listing, cropType, bidCount }]. *)
Record t := mk
  { listing : Listing.t; cropType : option (Z * string); bidCount : Z }.
End UserListing.

(** [GET /api/users/:userId/listings]. *)
Definition getUserListingsRoute (userId : string)
  : Promise (Reply (list UserListing.t)) :=
  try_catch
    (match parseInt userId with
     | None => ret (Refusal 400 "Invalid user ID")
     | Some userId =>
         user <- getUser userId ;;
         match user with
         | None => ret (Refusal 404 "User not found")
         | Some _ =>
             listings <- getListingsByUserId userId ;;
             cropTypes <- getCropTypes ;;
             let cropTypeMap :=
               Map_of (map (fun ct => (CropType.id ct, ct)) cropTypes) in
             let listingIds := map Listing.id listings in
             allBids <- mapM getBidsByListingId listingIds ;;
             let bidCountMap := bidCountMap_of listingIds allBids in
             let enrichedListings :=
               map (fun listing =>
                      let cropType :=
                        map_get (Listing.cropTypeId listing) cropTypeMap in
                      let bidCount :=
                        orZero (map_get (Listing.id listing) bidCountMap) in
                      UserListing.mk listing (cropTypeSummary cropType)
                        bidCount)
                 listings in
             ret (Answer 200 enrichedListings)
         end
     end)
    (fun _ => ret internalError).

Module BidDetail.
(** [{ ...bid, user }]; [user] carries [id], [name] and [location]. *)
Record t := mk { bid : Bid.t; user : option (Z * string * string) }.
End BidDetail.

(** [GET /api/listings/:listingId/bids]. *)
Definition getListingBidsRoute (listingId : string)
  : Promise (Reply (list BidDetail.t)) :=
  try_catch
    (match parseInt listingId with
     | None => ret (Refusal 400 "Invalid listing ID")
     | Some listingId =>
         listing <- getListing listingId ;;
         match listing with
         | None => ret (Refusal 404 "Listing not found")
         | Some _ =>
             bids <- getBidsByListingId listingId ;;
             let userIds := Set_values (map Bid.userId bids) in
             users <- mapM getUser userIds ;;
             let userMap :=
               Map_of (map (fun u => (User.id u, u)) (filter_Boolean users)) in
             let enrichedBids :=
               map (fun bid =>
                      let user := map_get (Bid.userId bid) userMap in
                      BidDetail.mk bid (userSummary user))
                 bids in
             ret (Answer 200 enrichedBids)
         end
     end)
    (fun _ => ret internalError).

(** ** Vocabulary for the lists *)

(** The number of stored bids on the listing [k]. *)
Definition bidsOn (s : MemStorage.t) (k : Z) : Z :=
  Z.of_nat
    (length (filter (fun bid => Bid.listingId bid =? k)
               (map_values (MemStorage.bids s)))).

(** A listing as [GET /api/users/:userId/listings] shows it. *)
Definition listedOfUser (s : MemStorage.t) (l : Listing.t) : UserListing.t :=
  UserListing.mk l
    (cropTypeSummary (map_get (Listing.cropTypeId l) (MemStorage.cropTypes s)))
    (bidsOn s (Listing.id l)).

(** A bid as [GET /api/listings/:listingId/bids] shows it. *)
Definition listedBid (s : MemStorage.t) (b : Bid.t) : BidDetail.t :=
  BidDetail.mk b (userSummary (map_get (Bid.userId b) (MemStorage.users s))).


(** ** Vocabulary for recording a price *)

(** The record [createPriceHistory] makes of [data] in the world [w]: the
    next identifier, the columns of [data], and the clock when [data] names
    no date. *)
Definition recorded (data : InsertPriceHistory.t) (w : World) : PriceHistory.t :=
  PriceHistory.mk (MemStorage.priceHistoryId (storage w))
    (InsertPriceHistory.cropTypeId data) (InsertPriceHistory.location data)
    (InsertPriceHistory.price data) (InsertPriceHistory.quality data)
    (match InsertPriceHistory.recordedDate data with
     | Some d => d
     | None => clock w
     end).

(** * Properties *)

(** ** Arrays: [filter], [sort], [slice] *)

Lemma filter_twice {A} (f g : A -> bool) (a : list A) :
  filter f (filter g a) = filter (fun x => g x && f x) a.
Proof.
  induction a as [|x a IH]; simpl; [reflexivity|].
  destruct (g x); simpl; [destruct (f x)|]; now rewrite IH.
Qed.

Lemma filter_nil_iff {A} (f : A -> bool) (a : list A) :
  filter f a = [] <-> forall x, In x a -> f x = false.
Proof.
  induction a as [|y a IH]; simpl.
  - split; [intros _ x []|reflexivity].
  - destruct (f y) eqn:E; split.
    + discriminate.
    + intros H. rewrite (H y (or_introl eq_refl)) in E. discriminate.
    + intros H x [<-|Hx]; [assumption|]. now apply IH.
    + intros H. apply IH. intros x Hx. apply H. now right.
Qed.

Lemma in_firstn {A} (n : nat) (a : list A) x : In x (firstn n a) -> In x a.
Proof.
  intros H. rewrite <- (firstn_skipn n a). apply in_or_app. now left.
Qed.

Lemma in_skipn {A} (n : nat) (a : list A) x : In x (skipn n a) -> In x a.
Proof.
  intros H. rewrite <- (firstn_skipn n a). apply in_or_app. now right.
Qed.

Lemma slice_from_0 {A} (e : nat) (a : list A) : slice 0 e a = firstn e a.
Proof. reflexivity. Qed.

Section SortFacts.
Context {A : Type} (cmp : A -> A -> Z).
Hypothesis cmp_total : forall x y, 0 < cmp x y -> cmp y x <= 0.
Hypothesis cmp_trans :
  forall x y z, before cmp x y -> before cmp y z -> before cmp x z.

Lemma sort_insert_perm x a : Permutation (x :: a) (sort_insert cmp x a).
Proof.
  induction a as [|y a IH]; simpl; [reflexivity|].
  destruct (cmp x y <=? 0); [reflexivity|].
  rewrite perm_swap. now constructor.
Qed.

Lemma sort_perm a : Permutation a (sort cmp a).
Proof.
  induction a as [|x a IH]; simpl; [constructor|].
  rewrite <- sort_insert_perm. now constructor.
Qed.

Lemma sort_length a : length (sort cmp a) = length a.
Proof. symmetry. apply Permutation_length, sort_perm. Qed.

Lemma sort_insert_sorted x a :
  StronglySorted (before cmp) a ->
  StronglySorted (before cmp) (sort_insert cmp x a).
Proof.
  induction 1 as [|y a Hs IH Hy]; simpl.
  - repeat constructor.
  - destruct (cmp x y <=? 0) eqn:E.
    + apply Z.leb_le in E. constructor; [now constructor|].
      constructor; [exact E|].
      eapply Forall_impl; [|exact Hy]. intros z Hz. now apply cmp_trans with y.
    + apply Z.leb_gt in E. constructor; [exact IH|].
      apply (Permutation_Forall (sort_insert_perm x a)).
      constructor; [now apply cmp_total|exact Hy].
Qed.

Lemma sort_sorted a : StronglySorted (before cmp) (sort cmp a).
Proof.
  induction a as [|x a IH]; simpl; [constructor|].
  now apply sort_insert_sorted.
Qed.
End SortFacts.

(** In a sorted array every element of a prefix stands before every
    element of the rest. *)
Lemma sorted_prefix_before {A} (R : A -> A -> Prop) (n : nat) (a : list A) :
  StronglySorted R a ->
  forall x y, In x (firstn n a) -> In y (skipn n a) -> R x y.
Proof.
  intros Hs. revert n. induction Hs as [|z a Hs IH Hz]; intros n x y.
  - rewrite firstn_nil. intros [].
  - destruct n as [|n]; simpl; [intros []|].
    intros [<-|Hx] Hy.
    + rewrite Forall_forall in Hz. apply Hz.
      apply (in_skipn n). exact Hy.
    + now apply (IH n).
Qed.

Lemma sorted_firstn {A} (R : A -> A -> Prop) (n : nat) (a : list A) :
  StronglySorted R a -> StronglySorted R (firstn n a).
Proof.
  intros Hs. revert n. induction Hs as [|z a Hs IH Hz]; intros n.
  - rewrite firstn_nil. constructor.
  - destruct n as [|n]; simpl; constructor; [apply IH|].
    rewrite Forall_forall in *. intros y Hy. apply Hz.
    eapply in_firstn; eauto.
Qed.

(** ** The price predictor *)

Lemma predictPrice_cases w cropTypeId location quality :
  predictPrice cropTypeId location quality w =
  match matchingHistory w cropTypeId location quality with
  | [] => (Normal (defaultPrice quality), w)
  | _ :: _ =>
      (Normal (avgRecentPrice (matchingHistory w cropTypeId location quality)
               * predictionFactor (random w (draws w)))%Q,
       afterDraw w)
  end.
Proof.
  unfold predictPrice, getPriceHistoryByCropTypeAndLocation, bind, this, ret.
  simpl. rewrite filter_twice.
  change (filter _ (map_values (MemStorage.priceHistory (storage w))))
    with (matchingHistory w cropTypeId location quality).
  now destruct (matchingHistory w cropTypeId location quality).
Qed.

Lemma reduce_sumPrices (a : list PriceHistory.t) (init : Q) :
  (reduce (fun sum h => sum + PriceHistory.price h) init a
   == init + sumPrices a)%Q.
Proof.
  unfold reduce. revert init.
  induction a as [|h a IH]; intros init; simpl; [lra|].
  rewrite IH. lra.
Qed.

Lemma avgRecentPrice_mean (a : list PriceHistory.t) :
  (avgRecentPrice a == meanPrice (recentPrices a))%Q.
Proof.
  unfold avgRecentPrice, meanPrice.
  rewrite reduce_sumPrices. now rewrite Qplus_0_l.
Qed.

Lemma byRecordedDateDesc_total x y :
  0 < byRecordedDateDesc x y -> byRecordedDateDesc y x <= 0.
Proof. unfold byRecordedDateDesc. lia. Qed.

Lemma byRecordedDateDesc_trans x y z :
  before byRecordedDateDesc x y -> before byRecordedDateDesc y z ->
  before byRecordedDateDesc x z.
Proof. unfold before, byRecordedDateDesc. lia. Qed.

Lemma before_noOlder a b : before byRecordedDateDesc a b <-> noOlder a b.
Proof. unfold before, byRecordedDateDesc, noOlder. lia. Qed.

Lemma sortedHistory_sorted (a : list PriceHistory.t) :
  StronglySorted noOlder (sort byRecordedDateDesc a).
Proof.
  pose proof (sort_sorted byRecordedDateDesc byRecordedDateDesc_total
                byRecordedDateDesc_trans a) as H.
  induction H as [|x l Hs IH Hx]; constructor; [exact IH|].
  eapply Forall_impl; [|exact Hx]. intros y. apply before_noOlder.
Qed.

Lemma recentPrices_firstn (a : list PriceHistory.t) :
  recentPrices a = firstn 3 (sort byRecordedDateDesc a).
Proof.
  unfold recentPrices. rewrite slice_from_0.
  destruct (Nat.le_ge_cases 3 (length (sort byRecordedDateDesc a))) as [H|H].
  - now rewrite Nat.min_l.
  - rewrite Nat.min_r by exact H.
    rewrite !firstn_all2; [reflexivity|lia|lia].
Qed.

Lemma recentPrices_length (a : list PriceHistory.t) :
  length (recentPrices a) = Nat.min (length a) 3.
Proof.
  rewrite recentPrices_firstn, length_firstn, sort_length. lia.
Qed.

Lemma strictEq_string (v : JsValue) (s : string) :
  strictEq v (JString s) = true <-> v = JString s.
Proof.
  destruct v; simpl; try (split; [discriminate|discriminate]).
  rewrite String.eqb_eq. split; [now intros ->|now intros [= ->]].
Qed.

Lemma strictEq_JsInt (a b : Z) : strictEq (JsInt a) (JsInt b) = true <-> a = b.
Proof.
  unfold JsInt; simpl. rewrite Qeq_bool_iff. unfold Qeq; simpl. lia.
Qed.

(** For a request of the declared types the comparison is equality of the
    three fields. *)
Lemma matchesRequest_typed (c : Z) (l q : string) (h : PriceHistory.t) :
  matchesRequest (JsInt c) (JString l) (JString q) h = true
  <-> PriceHistory.cropTypeId h = c /\ PriceHistory.location h = l
      /\ PriceHistory.quality h = q.
Proof.
  unfold matchesRequest. rewrite !andb_true_iff, strictEq_JsInt.
  simpl. rewrite !String.eqb_eq. tauto.
Qed.

Lemma matchingHistory_nil w cropTypeId location quality :
  matchingHistory w cropTypeId location quality = [] <->
  forall h, In h (map_values (MemStorage.priceHistory (storage w))) ->
            matchesRequest cropTypeId location quality h = false.
Proof. apply filter_nil_iff. Qed.

Lemma bonus_other (q : JsValue) :
  q <> JString "A" -> q <> JString "B" -> bonus q = 0%Q.
Proof.
  intros HA HB. unfold bonus.
  destruct (strictEq q (JString "A")) eqn:EA;
    [now apply strictEq_string in EA|].
  destruct (strictEq q (JString "B")) eqn:EB;
    [now apply strictEq_string in EB|reflexivity].
Qed.

(** C1 -- When no price history entry matches the requested crop type,
    location and quality (each by strict equality), [predictPrice] returns
    exactly [20 + bonus quality], where the bonus is 10 for "A", 5 for "B"
    and 0 for any other quality; the world is left as it was, so no random
    factor is drawn in this branch. *)
Theorem predictPrice_default_without_history w cropTypeId location quality :
  (forall h, In h (map_values (MemStorage.priceHistory (storage w))) ->
             matchesRequest cropTypeId location quality h = false) ->
  predictPrice cropTypeId location quality w
  = (Normal (20 + bonus quality)%Q, w)
  /\ bonus (JString "A") = 10%Q
  /\ bonus (JString "B") = 5%Q
  /\ (quality <> JString "A" -> quality <> JString "B" -> bonus quality = 0%Q).
Proof.
  intros Hnone. split; [|split; [reflexivity|split; [reflexivity|]]].
  - rewrite predictPrice_cases.
    apply matchingHistory_nil in Hnone. now rewrite Hnone.
  - apply bonus_other.
Qed.

Lemma binary64_predictPrice_cases w cropTypeId location quality :
  Binary64.predictPrice cropTypeId location quality w =
  match matchingHistory w cropTypeId location quality with
  | [] => (Normal (Binary64.defaultPrice quality), w)
  | _ :: _ =>
      (Normal (Binary64.avgRecentPrice
                 (matchingHistory w cropTypeId location quality)
               * Binary64.predictionFactor (Binary64.nextDraw w))%float,
       afterDraw w)
  end.
Proof.
  unfold Binary64.predictPrice, getPriceHistoryByCropTypeAndLocation, bind,
    this, ret.
  simpl. rewrite filter_twice.
  change (filter _ (map_values (MemStorage.priceHistory (storage w))))
    with (matchingHistory w cropTypeId location quality).
  now destruct (matchingHistory w cropTypeId location quality).
Qed.

Lemma fold_left_prices (a : list PriceHistory.t) (init : float) :
  fold_left (fun sum h => (sum + Binary64.price h)%float) a init
  = fold_left PrimFloat.add (map Binary64.price a) init.
Proof.
  revert init. induction a as [|h a IH]; intros init; simpl;
    [reflexivity|apply IH].
Qed.

Lemma binary64_avgRecentPrice_mean (a : list PriceHistory.t) :
  Binary64.avgRecentPrice a
  = Binary64.mean (map Binary64.price (recentPrices a)).
Proof.
  unfold Binary64.avgRecentPrice, Binary64.mean, reduce.
  now rewrite fold_left_prices, length_map.
Qed.

(** C2, as stated, fails on the numbers of the runtime.  Three entries
    match, each priced at the binary64 number 0.1, so the arithmetic mean
    of their prices is that number; the prediction before the random
    factor is 0.10000000000000002, the binary64 number next above it,
    because the sum of the three prices is rounded before it is divided. *)
Lemma mean_of_three_tenths_rounded :
  let matching :=
    matchingHistory tenthsWorld (JsInt 1) (JString "Pune") (JString "A") in
  length matching = 3%nat
  /\ map Binary64.price matching = [0.1; 0.1; 0.1]%float
  /\ (meanPrice matching == Binary64.toQ 0.1)%Q
  /\ Binary64.avgRecentPrice matching = 0.10000000000000002%float
  /\ ~ (Binary64.toQ (Binary64.avgRecentPrice matching)
        == meanPrice matching)%Q.
Proof.
  cbv zeta. split; [reflexivity|]. split; [vm_compute; reflexivity|].
  split; [vm_compute; reflexivity|]. split; [vm_compute; reflexivity|].
  vm_compute. discriminate.
Qed.

(** C2, amended -- When N >= 1 entries match the request, they split into
    the [min N 3] entries the prediction uses and the rest; every used
    entry is recorded no earlier than every entry of the rest, and the
    used entries are in descending order of [recordedDate].  The
    prediction before the random factor, [avgRecentPrice], is the mean of
    the used entries' prices as binary64 arithmetic gives it: the prices
    are added to 0 one after another, the most recent first, and the sum
    is divided by their number, each sum and the quotient rounded to the
    nearest binary64 number.  [predictPrice] returns the rounded product
    of that mean and the factor, and takes one draw. *)
Theorem predictPrice_mean_of_most_recent w cropTypeId location quality :
  matchingHistory w cropTypeId location quality <> [] ->
  let matching := matchingHistory w cropTypeId location quality in
  exists recent older,
    Permutation matching (recent ++ older)
    /\ length recent = Nat.min (length matching) 3
    /\ (forall r o, In r recent -> In o older -> noOlder r o)
    /\ StronglySorted noOlder recent
    /\ Binary64.avgRecentPrice matching
       = Binary64.mean (map Binary64.price recent)
    /\ Binary64.predictPrice cropTypeId location quality w
       = (Normal (Binary64.avgRecentPrice matching
                  * Binary64.predictionFactor (Binary64.nextDraw w))%float,
          afterDraw w).
Proof.
  intros Hne matching. subst matching.
  set (matching := matchingHistory w cropTypeId location quality) in *.
  exists (recentPrices matching), (skipn 3 (sort byRecordedDateDesc matching)).
  repeat split.
  - rewrite recentPrices_firstn, firstn_skipn. apply sort_perm.
  - apply recentPrices_length.
  - intros r o. rewrite recentPrices_firstn.
    apply sorted_prefix_before, sortedHistory_sorted.
  - rewrite recentPrices_firstn.
    apply sorted_firstn, sortedHistory_sorted.
  - apply binary64_avgRecentPrice_mean.
  - rewrite binary64_predictPrice_cases. fold matching.
    destruct matching; [now contradiction Hne|reflexivity].
Qed.

Lemma sumPrices_positive (a : list PriceHistory.t) :
  a <> [] -> (forall h, In h a -> (0 < PriceHistory.price h)%Q) ->
  (0 < sumPrices a)%Q.
Proof.
  induction a as [|x a IH]; [contradiction|]. intros _ Hpos. simpl.
  assert (0 < PriceHistory.price x)%Q as Hx by (apply Hpos; now left).
  destruct a as [|y a].
  - simpl. lra.
  - assert (0 < sumPrices (y :: a))%Q as Hs.
    { apply IH; [discriminate|]. intros h Hh. apply Hpos. now right. }
    lra.
Qed.

Lemma recentPrices_incl (a : list PriceHistory.t) h :
  In h (recentPrices a) -> In h a.
Proof.
  rewrite recentPrices_firstn. intros H. apply in_firstn in H.
  eapply Permutation_in; [symmetry; apply sort_perm|exact H].
Qed.

Lemma avgRecentPrice_positive (a : list PriceHistory.t) :
  a <> [] -> (forall h, In h a -> (0 < PriceHistory.price h)%Q) ->
  (0 < avgRecentPrice a)%Q.
Proof.
  intros Hne Hpos. rewrite avgRecentPrice_mean. unfold meanPrice.
  assert (recentPrices a <> []) as Hr.
  { intros E. pose proof (recentPrices_length a) as HL. rewrite E in HL.
    destruct a; [contradiction|]. simpl in HL. lia. }
  apply Qlt_shift_div_l.
  - rewrite <- (Zlt_Qlt 0). destruct (recentPrices a); [contradiction|].
    simpl. lia.
  - rewrite Qmult_0_l. apply sumPrices_positive; [exact Hr|].
    intros h Hh. apply Hpos, recentPrices_incl, Hh.
Qed.

Lemma defaultPrice_positive (quality : JsValue) : (0 < defaultPrice quality)%Q.
Proof.
  unfold defaultPrice.
  destruct (strictEq quality (JString "A")); [reflexivity|].
  destruct (strictEq quality (JString "B")); reflexivity.
Qed.

(** C3 -- When every price on record is positive, [predictPrice] returns a
    positive number for every request and every random factor between 0.95
    and 1.05. *)
Theorem predictPrice_positive w cropTypeId location quality :
  pricesPositive (storage w) ->
  (0.95 <= predictionFactor (random w (draws w)))%Q ->
  (predictionFactor (random w (draws w)) <= 1.05)%Q ->
  exists p w',
    predictPrice cropTypeId location quality w = (Normal p, w') /\ (0 < p)%Q.
Proof.
  intros Hpos Hlo _. rewrite predictPrice_cases.
  destruct (matchingHistory w cropTypeId location quality) as [|h a] eqn:E.
  - eexists _, _. split; [reflexivity|apply defaultPrice_positive].
  - eexists _, _. split; [reflexivity|].
    apply Qmult_lt_0_compat; [|lra].
    apply avgRecentPrice_positive; [discriminate|].
    intros x Hx. apply Hpos. rewrite <- E in Hx.
    unfold matchingHistory in Hx. now apply filter_In in Hx.
Qed.

(** ** Crop type lookup by name *)

Lemma getCropTypeByName_for_string {R : Runtime} (s : string)
  (values : list CropType.t) w :
  getCropTypeByName_for (JString s) values w
  = (Normal (find (fun c => String.eqb (toLowerCase (CropType.name c))
                              (toLowerCase s)) values), w).
Proof.
  induction values as [|c values IH]; [reflexivity|].
  simpl. unfold bind, ret. simpl.
  destruct (String.eqb _ _); [reflexivity|exact IH].
Qed.

Lemma getCropTypeByName_string {R : Runtime} (s : string) w :
  getCropTypeByName (JString s) w
  = (Normal (find (fun c => String.eqb (toLowerCase (CropType.name c))
                              (toLowerCase s))
               (map_values (MemStorage.cropTypes (storage w)))), w).
Proof.
  unfold getCropTypeByName, bind, this. simpl.
  apply getCropTypeByName_for_string.
Qed.

Lemma getCropTypeByName_for_world {R : Runtime} name values w :
  snd (getCropTypeByName_for name values w) = w.
Proof.
  destruct name; try (destruct values; reflexivity).
  now rewrite getCropTypeByName_for_string.
Qed.

Lemma getCropTypeByName_world {R : Runtime} name w :
  snd (getCropTypeByName name w) = w.
Proof.
  unfold getCropTypeByName, bind, this. simpl.
  apply getCropTypeByName_for_world.
Qed.

(** A stored crop type is what a lookup returns. *)
Lemma getCropTypeByName_stored {R : Runtime} name w c :
  fst (getCropTypeByName name w) = Normal (Some c) ->
  In c (map_values (MemStorage.cropTypes (storage w))).
Proof.
  destruct name;
    try (unfold getCropTypeByName, bind, this; simpl;
         destruct (map_values _); simpl; discriminate).
  rewrite getCropTypeByName_string. simpl. intros [= H].
  now apply find_some in H.
Qed.

(** The search of the loop finds the first crop type of the name. *)
Lemma find_firstNamed {R : Runtime} (s : string) (stored : list CropType.t)
  (c : CropType.t) :
  find (fun c => String.eqb (toLowerCase (CropType.name c)) (toLowerCase s))
    stored = Some c
  <-> firstNamed s stored c.
Proof.
  unfold firstNamed. induction stored as [|a stored IH]; simpl.
  - split; [discriminate|]. intros (before & after & E & _).
    now destruct before.
  - destruct (String.eqb _ _) eqn:Ea.
    + apply String.eqb_eq in Ea. split.
      * intros [= <-]. exists [], stored. now repeat split.
      * intros (before & after & E & _ & Hb).
        destruct before as [|b before]; simpl in E; injection E as -> E.
        -- reflexivity.
        -- apply Forall_inv in Hb. contradiction.
    + apply String.eqb_neq in Ea. rewrite IH. split.
      * intros (before & after & -> & Ec & Hb).
        exists (a :: before), after. split; [reflexivity|].
        split; [exact Ec|]. now constructor.
      * intros (before & after & E & Ec & Hb).
        destruct before as [|b before]; simpl in E; injection E as -> E.
        -- contradiction.
        -- exists before, after. split; [exact E|]. split; [exact Ec|].
           now apply Forall_inv_tail in Hb.
Qed.

Lemma find_none_iff {A} (f : A -> bool) (l : list A) :
  find f l = None <-> Forall (fun x => f x = false) l.
Proof.
  induction l as [|a l IH]; simpl; [now split|].
  destruct (f a) eqn:E.
  - split; [discriminate|]. intros H. apply Forall_inv in H. congruence.
  - rewrite IH. split; [now constructor|apply Forall_inv_tail].
Qed.

(** The lookup returns no crop type exactly for a name of none. *)
Lemma getCropTypeByName_none {R : Runtime} name w :
  fst (getCropTypeByName name w) = Normal None <-> namesNoCropType name w.
Proof.
  unfold namesNoCropType.
  destruct name;
    try (unfold getCropTypeByName, bind, this; simpl;
         destruct (map_values _); simpl;
         split; intros H; first [reflexivity|discriminate H]).
  rewrite getCropTypeByName_string. cbn [fst]. split.
  - intros [= H]. apply find_none_iff in H.
    eapply Forall_impl; [|exact H]. intros c Hc. now apply String.eqb_neq.
  - intros H. f_equal. apply find_none_iff.
    eapply Forall_impl; [|exact H]. intros c Hc. now apply String.eqb_neq.
Qed.

(** The lookup returns the first stored crop type of the name. *)
Lemma getCropTypeByName_some {R : Runtime} name w c :
  fst (getCropTypeByName name w) = Normal (Some c)
  <-> exists s,
      name = JString s
      /\ firstNamed s (map_values (MemStorage.cropTypes (storage w))) c.
Proof.
  destruct name;
    try (split;
         [unfold getCropTypeByName, bind, this; simpl;
          destruct (map_values _); simpl; discriminate
         |intros (s0 & [=] & _)]).
  rewrite getCropTypeByName_string. cbn [fst]. split.
  - intros [= H]. exists s. split; [reflexivity|]. now apply find_firstNamed.
  - intros (s0 & [= <-] & H). f_equal. now apply find_firstNamed.
Qed.

(** ** The prediction route *)

Lemma resolveCropTypeId_cases {R : Runtime} body w :
  resolveCropTypeId body w =
  if nameConsulted body then
    match fst (getCropTypeByName (PredictBody.cropTypeName body) w) with
    | Normal None => (Normal (inl (badRequest "Invalid crop type name")), w)
    | Normal (Some c) => (Normal (inr (JsInt (CropType.id c))), w)
    | Throw e => (Throw e, w)
    end
  else (Normal (inr (PredictBody.cropTypeId body)), w).
Proof.
  unfold resolveCropTypeId, nameConsulted.
  destruct (negb _ && _); [|reflexivity].
  unfold bind.
  pose proof (getCropTypeByName_world (PredictBody.cropTypeName body) w) as Hw.
  destruct (getCropTypeByName (PredictBody.cropTypeName body) w) as [[[c|]|e] w'];
    simpl in *; now subst.
Qed.

Lemma predictPrice_normal cropTypeId location quality w :
  exists p w', predictPrice cropTypeId location quality w = (Normal p, w').
Proof.
  rewrite predictPrice_cases.
  destruct (matchingHistory _ _ _ _); eexists _, _; reflexivity.
Qed.

(** The handler from the field test on, for a resolved identifier. *)
Lemma predictPriceRoute_continue resolved body w :
  (if negb (truthy resolved) || negb (truthy (PredictBody.location body))
      || negb (truthy (PredictBody.quality body))
   then ret (badRequest "Missing required fields")
   else
     price <- predictPrice resolved (PredictBody.location body)
                (PredictBody.quality body) ;;
     coin <- Math_random ;;
     ret (predictionResponse price coin)) w
  = if allPresent resolved body then
      let w1 := snd (predictPrice resolved (PredictBody.location body)
                       (PredictBody.quality body) w) in
      match fst (predictPrice resolved (PredictBody.location body)
                   (PredictBody.quality body) w) with
      | Normal price =>
          (Normal (predictionResponse price (random w1 (draws w1))),
           afterDraw w1)
      | Throw e => (Throw e, w1)
      end
    else (Normal (badRequest "Missing required fields"), w).
Proof.
  unfold allPresent.
  destruct (truthy resolved), (truthy (PredictBody.location body)),
    (truthy (PredictBody.quality body)); try reflexivity.
  unfold bind, orb, negb, andb.
  destruct (predictPrice _ _ _ w) as [[p|e] w1]; reflexivity.
Qed.

Lemma predictPriceRoute_cases {R : Runtime} body w :
  predictPriceRoute body w =
  match fst (resolveCropTypeId body w) with
  | Throw _ => (Normal internalServerError, w)
  | Normal (inl response) => (Normal response, w)
  | Normal (inr resolved) =>
      if allPresent resolved body then
        let w1 := snd (predictPrice resolved (PredictBody.location body)
                         (PredictBody.quality body) w) in
        match fst (predictPrice resolved (PredictBody.location body)
                     (PredictBody.quality body) w) with
        | Normal price =>
            (Normal (predictionResponse price (random w1 (draws w1))),
             afterDraw w1)
        | Throw _ => (Normal internalServerError, w1)
        end
      else (Normal (badRequest "Missing required fields"), w)
  end.
Proof.
  unfold predictPriceRoute, try_catch, predictPriceRoute_try.
  unfold bind at 1.
  rewrite resolveCropTypeId_cases.
  destruct (nameConsulted body);
    [destruct (fst (getCropTypeByName _ w)) as [[c|]|e]|];
    cbn [fst snd]; try reflexivity;
    rewrite predictPriceRoute_continue;
    destruct (allPresent _ body); try reflexivity;
    cbv zeta; destruct (fst (predictPrice _ _ _ w)); reflexivity.
Qed.

Lemma allPresent_false_iff resolved body :
  allPresent resolved body = false
  <-> falsy resolved \/ falsy (PredictBody.location body)
      \/ falsy (PredictBody.quality body).
Proof.
  unfold allPresent, falsy.
  destruct (truthy resolved), (truthy (PredictBody.location body)),
    (truthy (PredictBody.quality body)); simpl; intuition discriminate.
Qed.

Lemma absent_falsy v : absent v -> falsy v.
Proof. now intros ->. Qed.

Lemma unknown_excludes_missing {R : Runtime} body w :
  unknownCropType body w -> ~ missingRequiredField body w.
Proof.
  intros [Hc Hl] (resolved & Hr & _). unfold resolvesTo in Hr.
  rewrite Hc in Hr. destruct Hr as (s & c & Es & Hf & _).
  apply getCropTypeByName_none in Hl.
  assert (fst (getCropTypeByName (PredictBody.cropTypeName body) w)
          = Normal (Some c)) as Hs
      by (apply getCropTypeByName_some; now exists s).
  congruence.
Qed.

(** Where the name is consulted and the lookup returns [c], the request
    resolves to the identifier of [c] and to nothing else. *)
Lemma resolvesTo_name {R : Runtime} body w c resolved :
  nameConsulted body = true ->
  fst (getCropTypeByName (PredictBody.cropTypeName body) w) = Normal (Some c) ->
  resolvesTo body w resolved <-> resolved = JsInt (CropType.id c).
Proof.
  intros Hc Hl. unfold resolvesTo. rewrite Hc. split.
  - intros (s & c' & Es & Hf & ->).
    assert (fst (getCropTypeByName (PredictBody.cropTypeName body) w)
            = Normal (Some c')) as Hs
        by (apply getCropTypeByName_some; now exists s).
    congruence.
  - intros ->. apply getCropTypeByName_some in Hl.
    destruct Hl as (s & Es & Hf). now exists s, c.
Qed.

Lemma resolvesTo_throw {R : Runtime} body w e resolved :
  nameConsulted body = true ->
  fst (getCropTypeByName (PredictBody.cropTypeName body) w) = Throw e ->
  ~ resolvesTo body w resolved.
Proof.
  intros Hc Hl. unfold resolvesTo. rewrite Hc.
  intros (s & c & Es & Hf & _).
  assert (fst (getCropTypeByName (PredictBody.cropTypeName body) w)
          = Normal (Some c)) as Hs
      by (apply getCropTypeByName_some; now exists s).
  congruence.
Qed.

Lemma resolvesTo_id {R : Runtime} body w resolved :
  nameConsulted body = false ->
  resolvesTo body w resolved <-> resolved = PredictBody.cropTypeId body.
Proof. intros Hc. unfold resolvesTo. now rewrite Hc. Qed.

(** The three ways the prediction route ends: the two rejections of the
    input, each leaving the world as it was, or an answer that is no
    rejection of the input. *)
Lemma predictPriceRoute_outcome {R : Runtime} body w :
  (unknownCropType body w
   /\ predictPriceRoute body w
      = (Normal (badRequest "Invalid crop type name"), w))
  \/ (missingRequiredField body w
      /\ predictPriceRoute body w
         = (Normal (badRequest "Missing required fields"), w))
  \/ (~ unknownCropType body w /\ ~ missingRequiredField body w
      /\ exists resp w', predictPriceRoute body w = (Normal resp, w')
                         /\ status resp <> 400).
Proof.
  rewrite predictPriceRoute_cases, resolveCropTypeId_cases.
  unfold unknownCropType, missingRequiredField.
  destruct (nameConsulted body) eqn:Hc;
    [destruct (fst (getCropTypeByName _ w)) as [[c|]|e] eqn:Hl|];
    cbn [fst snd].
  - (* the name resolves *)
    assert (~ namesNoCropType (PredictBody.cropTypeName body) w) as Hn
        by (rewrite <- getCropTypeByName_none; congruence).
    destruct (allPresent (JsInt (CropType.id c)) body) eqn:Hp.
    + right; right. split; [now intros [_ ?]|]. split.
      * intros (r & Hr & Ha).
        apply (resolvesTo_name body w c r Hc Hl) in Hr. subst r.
        apply allPresent_false_iff in Ha. congruence.
      * destruct (predictPrice_normal (JsInt (CropType.id c))
                    (PredictBody.location body) (PredictBody.quality body) w)
          as (p & w1 & E).
        rewrite E. cbn. eexists _, _. split; [reflexivity|discriminate].
    + right; left. split; [|reflexivity].
      exists (JsInt (CropType.id c)).
      split; [now apply (resolvesTo_name body w c _ Hc Hl)|].
      now apply allPresent_false_iff.
  - (* the name resolves to nothing *)
    left. split; [|reflexivity]. split; [reflexivity|].
    now apply getCropTypeByName_none.
  - (* the lookup throws *)
    assert (~ namesNoCropType (PredictBody.cropTypeName body) w) as Hn
        by (rewrite <- getCropTypeByName_none; congruence).
    right; right. split; [now intros [_ ?]|]. split.
    + intros (r & Hr & _). now apply (resolvesTo_throw body w e r Hc Hl) in Hr.
    + eexists _, _. split; [reflexivity|discriminate].
  - (* the identifier of the request is used *)
    destruct (allPresent (PredictBody.cropTypeId body) body) eqn:Hp.
    + right; right. split; [intros [[=] _]|]. split.
      * intros (r & Hr & Ha). apply (resolvesTo_id body w r Hc) in Hr. subst r.
        apply allPresent_false_iff in Ha. congruence.
      * destruct (predictPrice_normal (PredictBody.cropTypeId body)
                    (PredictBody.location body) (PredictBody.quality body) w)
          as (p & w1 & E).
        rewrite E. cbn. eexists _, _. split; [reflexivity|discriminate].
    + right; left. split; [|reflexivity].
      exists (PredictBody.cropTypeId body).
      split; [now apply resolvesTo_id|]. now apply allPresent_false_iff.
Qed.

(** ** The prediction route on rounded numbers *)

Lemma binary64_resolveCropTypeId_cases {R : Runtime} body w :
  Binary64.resolveCropTypeId body w =
  if nameConsulted body then
    match fst (getCropTypeByName (PredictBody.cropTypeName body) w) with
    | Normal None =>
        (Normal (inl (Binary64.badRequest "Invalid crop type name")), w)
    | Normal (Some c) => (Normal (inr (JsInt (CropType.id c))), w)
    | Throw e => (Throw e, w)
    end
  else (Normal (inr (PredictBody.cropTypeId body)), w).
Proof.
  unfold Binary64.resolveCropTypeId, nameConsulted.
  destruct (negb _ && _); [|reflexivity].
  unfold bind.
  pose proof (getCropTypeByName_world (PredictBody.cropTypeName body) w) as Hw.
  destruct (getCropTypeByName (PredictBody.cropTypeName body) w) as [[[c|]|e] w'];
    simpl in *; now subst.
Qed.

Lemma binary64_predictPrice_normal cropTypeId location quality w :
  exists p w',
    Binary64.predictPrice cropTypeId location quality w = (Normal p, w').
Proof.
  rewrite binary64_predictPrice_cases.
  destruct (matchingHistory _ _ _ _); eexists _, _; reflexivity.
Qed.

Lemma binary64_predictPriceRoute_cases {R : Runtime} body w :
  Binary64.predictPriceRoute body w =
  match fst (Binary64.resolveCropTypeId body w) with
  | Throw _ => (Normal Binary64.internalServerError, w)
  | Normal (inl response) => (Normal response, w)
  | Normal (inr resolved) =>
      if allPresent resolved body then
        let w1 := snd (Binary64.predictPrice resolved
                         (PredictBody.location body)
                         (PredictBody.quality body) w) in
        match fst (Binary64.predictPrice resolved (PredictBody.location body)
                     (PredictBody.quality body) w) with
        | Normal price =>
            (Normal (Binary64.predictionResponse price (Binary64.nextDraw w1)),
             afterDraw w1)
        | Throw _ => (Normal Binary64.internalServerError, w1)
        end
      else (Normal (Binary64.badRequest "Missing required fields"), w)
  end.
Proof.
  unfold Binary64.predictPriceRoute, try_catch, Binary64.predictPriceRoute_try.
  unfold bind at 1.
  rewrite binary64_resolveCropTypeId_cases.
  destruct (nameConsulted body);
    [destruct (fst (getCropTypeByName _ w)) as [[c|]|e]|];
    cbn [fst snd]; try reflexivity;
    unfold allPresent;
    (destruct (truthy _), (truthy (PredictBody.location body)),
       (truthy (PredictBody.quality body)); try reflexivity;
     unfold bind, orb, negb, andb;
     destruct (Binary64.predictPrice _ _ _ w) as [[p|e'] w1]; reflexivity).
Qed.

(** The handler takes the same branch on rounded numbers as on exact ones:
    the two answer with the same status and the same message, where the
    answer is a message, and leave the same world. *)
Lemma binary64_predictPriceRoute_branch {R : Runtime} body w :
  exists resp resp64 w',
    predictPriceRoute body w = (Normal resp, w')
    /\ Binary64.predictPriceRoute body w = (Normal resp64, w')
    /\ Binary64.status resp64 = status resp
    /\ (forall m,
          Binary64.json resp64 = Binary64.Message m <-> json resp = Message m).
Proof.
  rewrite predictPriceRoute_cases, binary64_predictPriceRoute_cases.
  rewrite resolveCropTypeId_cases, binary64_resolveCropTypeId_cases.
  assert (forall s,
             exists resp resp64 w',
               (Normal (badRequest s), w) = (Normal resp, w')
               /\ (Normal (Binary64.badRequest s), w) = (Normal resp64, w')
               /\ Binary64.status resp64 = status resp
               /\ (forall m,
                     Binary64.json resp64 = Binary64.Message m
                     <-> json resp = Message m)) as Hbad.
  { intros s. eexists _, _, _. split; [reflexivity|]. split; [reflexivity|].
    split; [reflexivity|]. intros m. cbn. split; intros [= <-]; reflexivity. }
  assert (forall resolved,
             exists resp resp64 w',
               (let w1 := snd (predictPrice resolved (PredictBody.location body)
                                 (PredictBody.quality body) w) in
                match fst (predictPrice resolved (PredictBody.location body)
                             (PredictBody.quality body) w) with
                | Normal price =>
                    (Normal (predictionResponse price (random w1 (draws w1))),
                     afterDraw w1)
                | Throw _ => (Normal internalServerError, w1)
                end) = (Normal resp, w')
               /\ (let w1 := snd (Binary64.predictPrice resolved
                                    (PredictBody.location body)
                                    (PredictBody.quality body) w) in
                   match fst (Binary64.predictPrice resolved
                                (PredictBody.location body)
                                (PredictBody.quality body) w) with
                   | Normal price =>
                       (Normal (Binary64.predictionResponse price
                                  (Binary64.nextDraw w1)),
                        afterDraw w1)
                   | Throw _ => (Normal Binary64.internalServerError, w1)
                   end) = (Normal resp64, w')
               /\ Binary64.status resp64 = status resp
               /\ (forall m,
                     Binary64.json resp64 = Binary64.Message m
                     <-> json resp = Message m)) as Hgo.
  { intros resolved.
    rewrite predictPrice_cases, binary64_predictPrice_cases.
    destruct (matchingHistory w resolved _ _); cbn [fst snd];
      eexists _, _, _; (split; [reflexivity|]); (split; [reflexivity|]);
      (split; [reflexivity|]); intros m; cbn; split; discriminate. }
  destruct (nameConsulted body);
    [destruct (fst (getCropTypeByName _ w)) as [[c|]|e]|]; cbn [fst snd].
  - destruct (allPresent _ body); [apply Hgo|apply Hbad].
  - apply Hbad.
  - eexists _, _, _. split; [reflexivity|]. split; [reflexivity|].
    split; [reflexivity|]. intros m. cbn. split; intros [= <-]; reflexivity.
  - destruct (allPresent _ body); [apply Hgo|apply Hbad].
Qed.

(** ** Rejected requests *)

(** C5, as stated, fails for a request whose [cropTypeId] is the number
    0: no name is given, none of the three fields is absent, and yet the
    request is rejected for a missing field. *)
Lemma zero_cropTypeId_not_absent :
  let body :=
    PredictBody.mk (JNumber 0) JUndefined (JString "Nashik") (JString "B") in
  absent (PredictBody.cropTypeName body)
  /\ ~ absent (PredictBody.cropTypeId body)
  /\ ~ absent (PredictBody.location body)
  /\ ~ absent (PredictBody.quality body)
  /\ predictPriceRoute (R := asciiRuntime) body sampleWorld
     = (Normal (badRequest "Missing required fields"), sampleWorld)
  /\ status (badRequest "Missing required fields") = 400.
Proof.
  cbv zeta. split; [reflexivity|].
  split; [discriminate|]. split; [discriminate|]. split; [discriminate|].
  split; [|reflexivity].
  rewrite predictPriceRoute_cases. reflexivity.
Qed.

(** C5, amended -- The prediction route always answers.  Its answer has
    status 400 exactly when (a) the crop type name is consulted (the
    request has a truthy name and no truthy [cropTypeId]) and is a string
    that names no stored crop type, letter case apart, or any value where
    no crop type is stored, or (b) one of the [cropTypeId] after name
    resolution, the location and the quality is falsy: absent, or [null],
    [false], the number 0 or the empty string.
    In case (a) the answer is the "Invalid crop type name" message, in case
    (b) the "Missing required fields" message; in both the answer carries
    no prediction and the world is untouched.  A request with one of the
    three fields absent is among those of case (b).  The handler answers
    with the same status and message, and leaves the same world, when its
    numbers are rounded as the runtime rounds them. *)
Theorem predictPriceRoute_invalid_input {R : Runtime} body w :
  exists resp w',
    predictPriceRoute body w = (Normal resp, w')
    /\ (status resp = 400
        <-> unknownCropType body w \/ missingRequiredField body w)
    /\ (unknownCropType body w ->
        resp = badRequest "Invalid crop type name" /\ w' = w)
    /\ (missingRequiredField body w ->
        resp = badRequest "Missing required fields" /\ w' = w)
    /\ (forall resolved,
          resolvesTo body w resolved ->
          absent resolved \/ absent (PredictBody.location body)
          \/ absent (PredictBody.quality body) ->
          missingRequiredField body w)
    /\ (exists resp64,
          Binary64.predictPriceRoute body w = (Normal resp64, w')
          /\ Binary64.status resp64 = status resp
          /\ forall m,
               Binary64.json resp64 = Binary64.Message m
               <-> json resp = Message m).
Proof.
  assert (forall resolved,
          resolvesTo body w resolved ->
          absent resolved \/ absent (PredictBody.location body)
          \/ absent (PredictBody.quality body) ->
          missingRequiredField body w) as Habsent.
  { intros resolved Hr Ha. exists resolved. split; [exact Hr|].
    destruct Ha as [Ha|[Ha|Ha]]; apply absent_falsy in Ha; tauto. }
  destruct (binary64_predictPriceRoute_branch body w)
    as (resp & resp64 & w' & E0 & E64 & H64).
  exists resp, w'. split; [exact E0|].
  assert (exists resp64,
          Binary64.predictPriceRoute body w = (Normal resp64, w')
          /\ Binary64.status resp64 = status resp
          /\ forall m,
               Binary64.json resp64 = Binary64.Message m
               <-> json resp = Message m) as Hlast
      by (exists resp64; split; [exact E64|exact H64]).
  destruct (predictPriceRoute_outcome body w)
    as [[Ha E]|[[Hb E]|(Hna & Hnb & resp1 & w1 & E & Hs)]];
    rewrite E in E0; injection E0 as <- <-.
  - split; [split; [now left|reflexivity]|].
    split; [now split|]. split; [|split; [exact Habsent|exact Hlast]].
    intros Hb. now apply unknown_excludes_missing in Ha.
  - split; [split; [now right|reflexivity]|].
    split; [|split; [now split|split; [exact Habsent|exact Hlast]]].
    intros Ha. now apply unknown_excludes_missing in Ha.
  - split; [split; [contradiction|intros [?|?]; contradiction]|].
    split; [intros; contradiction|].
    split; [intros; contradiction|split; [exact Habsent|exact Hlast]].
Qed.

(** ** Range construction *)




(** ** The forecast *)

Lemma sameButDraws_refl w : sameButDraws w w.
Proof. now repeat split. Qed.

Lemma sameButDraws_trans w1 w2 w3 :
  sameButDraws w1 w2 -> sameButDraws w2 w3 -> sameButDraws w1 w3.
Proof.
  intros (A & B & C) (A' & B' & C'). repeat split; congruence.
Qed.

Lemma randomInRange_same w w' :
  sameButDraws w w' -> randomInRange w -> randomInRange w'.
Proof. intros (_ & E & _) H n. rewrite E. apply H. Qed.

(** [map] with an effectful callback that only draws random numbers: it
    completes, draws only, and relates every element to its image, by [R0]
    always and by [R] when the draws are in range. *)
Lemma mapM_draws {A B} (f : A -> Promise B) (R0 R : A -> B -> Prop) :
  (forall x w, exists y w',
      f x w = (Normal y, w') /\ sameButDraws w w' /\ R0 x y
      /\ (randomInRange w -> R x y)) ->
  forall a w, exists ys w',
      mapM f a w = (Normal ys, w') /\ sameButDraws w w'
      /\ Forall2 R0 a ys
      /\ (randomInRange w -> Forall2 R a ys).
Proof.
  intros Hf. induction a as [|x a IH]; intros w.
  - exists [], w. repeat split; auto using sameButDraws_refl.
  - destruct (Hf x w) as (y & w1 & E1 & S1 & Q1 & R1).
    destruct (IH w1) as (ys & w2 & E2 & S2 & Q2 & R2).
    exists (y :: ys), w2. simpl. unfold bind. rewrite E1, E2.
    split; [reflexivity|]. split; [eapply sameButDraws_trans; eauto|].
    split; [now constructor|].
    intros Hr. constructor; [auto|].
    apply R2. eapply randomInRange_same; eauto.
Qed.

Lemma randomPoint_spec (w : World) :
  exists v,
    (r <- Math_random ;; ret (Math_floor (r * 50) + 20)) w
    = (Normal v, afterDraw w)
    /\ (randomInRange w -> inForecastRange v).
Proof.
  eexists. split; [reflexivity|].
  intros Hr. destruct (Hr (draws w)) as [Hlo Hhi].
  unfold inForecastRange, Math_floor.
  set (r := random w (draws w)) in *.
  assert (0 <= Qfloor (r * 50))%Z.
  { change 0%Z with (Qfloor 0). apply Qfloor_resp_le. lra. }
  assert (Qfloor (r * 50) < 50)%Z.
  { apply Z.lt_nge. intros Hge.
    pose proof (Qfloor_le (r * 50)) as Hf.
    rewrite Zle_Qle in Hge. change (inject_Z 50) with 50%Q in Hge. lra. }
  lia.
Qed.

Lemma cropData_spec (crop : CropType.t) (w : World) :
  exists series w',
    cropData crop w = (Normal series, w') /\ sameButDraws w w'
    /\ (randomInRange w -> seriesFor (CropType.name crop) series).
Proof.
  unfold cropData.
  destruct (String.eqb_spec (CropType.name crop) "Tomato") as [ET|NT];
    [|destruct (String.eqb_spec (CropType.name crop) "Rice") as [ER|NR];
      [|destruct (String.eqb_spec (CropType.name crop) "Onion") as [EO|NO]]].
  - exists tomatoCurve, w. split; [reflexivity|].
    split; [apply sameButDraws_refl|]. intros _. rewrite ET.
    repeat split; intros; congruence.
  - exists riceCurve, w. split; [reflexivity|].
    split; [apply sameButDraws_refl|]. intros _. rewrite ER.
    repeat split; intros; congruence.
  - exists onionCurve, w. split; [reflexivity|].
    split; [apply sameButDraws_refl|]. intros _. rewrite EO.
    repeat split; intros; congruence.
  - destruct (mapM_draws
                (fun _ : string =>
                   r <- Math_random ;; ret (Math_floor (r * 50) + 20))
                (fun _ _ => True) (fun _ v => inForecastRange v))
      with (a := months) (w := w) as (series & w' & E & S & L & R).
    { intros _ w0. destruct (randomPoint_spec w0) as (v & Ev & Hv).
      exists v, (afterDraw w0). split; [exact Ev|].
      split; [now repeat split|]. split; [exact I|exact Hv]. }
    exists series, w'. split; [exact E|]. split; [exact S|].
    intros Hr. apply Forall2_length in L.
    split; [now rewrite <- L|].
    repeat split; try (intros; contradiction).
    intros _ _ _. specialize (R Hr).
    clear - R. induction R; constructor; auto.
Qed.

Lemma cropDataset_spec (crop : CropType.t) (w : World) :
  exists d w',
    cropDataset crop w = (Normal d, w') /\ sameButDraws w w'
    /\ (cropId d = CropType.id crop /\ cropName d = CropType.name crop)
    /\ (randomInRange w -> datasetFor crop d).
Proof.
  destruct (cropData_spec crop w) as (series & w' & E & S & H).
  exists (mkDataset (CropType.id crop) (CropType.name crop) series), w'.
  unfold cropDataset, bind. rewrite E.
  repeat split; try apply S; apply H; assumption.
Qed.

(** The forecast completes for every world, with the fixed labels and
    demand tiers and one dataset for each of the first three crop types. *)
Lemma getForecastData_spec (w : World) :
  exists ds w',
    getForecastData w
    = (Normal (mkForecastReport months ds fixedDemandGroups), w')
    /\ sameButDraws w w'
    /\ Forall2 (fun crop d => cropId d = CropType.id crop
                              /\ cropName d = CropType.name crop)
         (topCrops w) ds
    /\ (randomInRange w -> Forall2 datasetFor (topCrops w) ds).
Proof.
  unfold getForecastData, getCropTypes, bind, this, ret. cbn [fst snd].
  rewrite slice_from_0. fold (topCrops w).
  destruct (mapM_draws cropDataset
              (fun crop d => cropId d = CropType.id crop
                             /\ cropName d = CropType.name crop)
              datasetFor (cropDataset_spec) (topCrops w) w)
    as (ds & w' & E & S & L & R).
  exists ds, w'. rewrite E. repeat split; try apply S; assumption.
Qed.

(** C6 -- With draws in the range of [Math.random], the forecast returns
    the fixed six labels and one dataset for each of the first three crop
    types, in stored order; each series has six points, the curve of
    Tomato, Rice or Onion for a crop of that name and points between 20 and
    69 otherwise.  For crop types stored in the order Rice, Wheat, Tomato
    the datasets are Rice with [50,55,52,50,48,45], Wheat with six points
    between 20 and 69 and Tomato with [30,45,60,70,65,55]. *)
Theorem getForecastData_top_crops w :
  randomInRange w ->
  exists ds w',
    getForecastData w
    = (Normal (mkForecastReport months ds fixedDemandGroups), w')
    /\ months = ["May"; "Jun"; "Jul"; "Aug"; "Sep"; "Oct"]
    /\ Forall2 datasetFor (topCrops w) ds
    /\ (forall rice wheat tomato rest,
          map_values (MemStorage.cropTypes (storage w))
          = rice :: wheat :: tomato :: rest ->
          CropType.name rice = "Rice" -> CropType.name wheat = "Wheat" ->
          CropType.name tomato = "Tomato" ->
          exists wheatSeries,
            ds = [mkDataset (CropType.id rice) "Rice" [50; 55; 52; 50; 48; 45];
                  mkDataset (CropType.id wheat) "Wheat" wheatSeries;
                  mkDataset (CropType.id tomato) "Tomato" [30; 45; 60; 70; 65; 55]]
            /\ length wheatSeries = 6%nat
            /\ Forall inForecastRange wheatSeries).
Proof.
  intros Hr.
  destruct (getForecastData_spec w) as (ds & w' & E & _ & _ & H).
  specialize (H Hr). exists ds, w'.
  split; [exact E|]. split; [reflexivity|]. split; [exact H|].
  intros rice wheat tomato rest Hcrops Nr Nw Nt.
  unfold topCrops in H. rewrite Hcrops in H. simpl in H.
  inversion H as [|? dr ? ? Dr H1]; subst; clear H.
  inversion H1 as [|? dw ? ? Dw H2]; subst; clear H1.
  inversion H2 as [|? dt ? ? Dt H3]; subst; clear H2.
  inversion H3; subst; clear H3.
  destruct Dr as (Ir & Cr & _ & _ & Sr & _).
  destruct Dw as (Iw & Cw & Lw & _ & _ & _ & Sw).
  destruct Dt as (It & Ct & _ & St & _).
  exists (data dw).
  destruct dr as [ir nr sr], dw as [iw nw sw], dt as [it nt st].
  simpl in *. rewrite Nr in *. rewrite Nw in *. rewrite Nt in *.
  rewrite (Sr eq_refl), (St eq_refl). subst.
  split; [reflexivity|]. split; [exact Lw|].
  apply Sw; discriminate.
Qed.

(** C7 -- For every world the forecast completes and its demand groups are
    the same three lists; the high tier is Green Chillies, Tomato and
    Eggplant whatever the storage holds. *)
Theorem getForecastData_demand_groups w :
  exists report w',
    getForecastData w = (Normal report, w')
    /\ demandGroups report = fixedDemandGroups
    /\ high (demandGroups report) = ["Green Chillies"; "Tomato"; "Eggplant"]
    /\ moderate (demandGroups report) = ["Rice"; "Onion"; "Cauliflower"]
    /\ low (demandGroups report) = ["Potato"; "Cabbage"; "Carrots"].
Proof.
  destruct (getForecastData_spec w) as (ds & w' & E & _).
  eexists _, w'. split; [exact E|]. now repeat split.
Qed.

Lemma predictPrice_storage cropTypeId location quality w :
  storage (snd (predictPrice cropTypeId location quality w)) = storage w.
Proof.
  rewrite predictPrice_cases. now destruct (matchingHistory _ _ _ _).
Qed.

Lemma getForecastData_storage w : storage (snd (getForecastData w)) = storage w.
Proof.
  destruct (getForecastData_spec w) as (ds & w' & E & S & _).
  rewrite E. apply S.
Qed.

(** C8 -- [predictPrice], [getForecastData] and the history lookup leave
    the storage as they found it, every collection and every counter, and
    so do the two routes that call them: nothing is created, changed or
    deleted, and no result is stored. *)
Theorem predictions_leave_storage {R : Runtime} w cropTypeId location quality
  body :
  storage (snd (predictPrice cropTypeId location quality w)) = storage w
  /\ storage (snd (getForecastData w)) = storage w
  /\ snd (getPriceHistoryByCropTypeAndLocation cropTypeId location w) = w
  /\ storage (snd (predictPriceRoute body w)) = storage w
  /\ storage (snd (forecastRoute w)) = storage w.
Proof.
  split; [apply predictPrice_storage|].
  split; [apply getForecastData_storage|].
  split; [reflexivity|]. split.
  - rewrite predictPriceRoute_cases.
    destruct (fst (resolveCropTypeId body w)) as [[r|resolved]|e];
      try reflexivity.
    destruct (allPresent resolved body); [|reflexivity].
    cbv zeta.
    pose proof (predictPrice_storage resolved (PredictBody.location body)
                  (PredictBody.quality body) w) as Hs.
    destruct (predictPrice _ _ _ w) as [[p|e] w1]; exact Hs.
  - unfold forecastRoute, try_catch, bind.
    pose proof (getForecastData_storage w) as Hs.
    destruct (getForecastData w) as [[r|e] w1]; exact Hs.
Qed.

(** ** Requests by identifier and by name *)

Lemma matchingHistory_unknown_id w n location quality :
  identifiesNoCropType (storage w) n ->
  historyRefersToCropTypes (storage w) ->
  matchingHistory w (JNumber n) location quality = [].
Proof.
  intros Hid Href. apply matchingHistory_nil. intros h Hh.
  destruct (Href h Hh) as (c & Hc & Ec).
  unfold matchesRequest, JsInt. simpl.
  destruct (Qeq_bool (inject_Z (PriceHistory.cropTypeId h)) n) eqn:E;
    [|reflexivity].
  apply Qeq_bool_iff in E. rewrite <- Ec in E. now apply Hid in E.
Qed.

(** C9, as stated, fails for the identifier 0: no sample crop type has it,
    location and quality are present, and yet the request is rejected for
    a missing field instead of being answered from the default price. *)
Lemma zero_cropTypeId_rejected :
  let body :=
    PredictBody.mk (JNumber 0) JUndefined (JString "Pune") (JString "A") in
  identifiesNoCropType (storage sampleWorld) 0
  /\ truthy (PredictBody.location body) = true
  /\ truthy (PredictBody.quality body) = true
  /\ predictPriceRoute (R := asciiRuntime) body sampleWorld
     = (Normal (badRequest "Missing required fields"), sampleWorld)
  /\ ~ (exists coin w',
          predictPriceRoute (R := asciiRuntime) body sampleWorld
          = (Normal (predictionResponse (20 + bonus (JString "A")) coin), w')).
Proof.
  assert (predictPriceRoute (R := asciiRuntime)
            (PredictBody.mk (JNumber 0) JUndefined (JString "Pune") (JString "A"))
            sampleWorld
          = (Normal (badRequest "Missing required fields"), sampleWorld)) as E
      by (rewrite predictPriceRoute_cases; reflexivity).
  cbv zeta. split; [|split; [reflexivity|split; [reflexivity|split]]].
  - intros c Hc. unfold Qeq; simpl.
    assert (forallb (fun c => negb (CropType.id c =? 0))
              (map_values (MemStorage.cropTypes (storage sampleWorld))) = true)
      as Hall by (vm_compute; reflexivity).
    rewrite forallb_forall in Hall. specialize (Hall c Hc).
    apply negb_true_iff, Z.eqb_neq in Hall. lia.
  - exact E.
  - intros (coin & w' & E'). rewrite E in E'. discriminate.
Qed.

(** C9, amended -- For a number other than 0 that identifies no stored
    crop type, location and quality present, in a storage whose price
    history refers to stored crop types only: whatever name the request
    carries, [predictPrice] is called, finds no matching history and
    returns [20 + bonus quality], and the request is answered with the
    range built from that price.  The "Invalid crop type name" answer is
    given only when the name was consulted, which takes a request without
    a usable [cropTypeId]. *)
Theorem predictPriceRoute_unknown_numeric_id {R : Runtime} w n name location
  quality :
  ~ (n == 0)%Q ->
  identifiesNoCropType (storage w) n ->
  historyRefersToCropTypes (storage w) ->
  truthy location = true -> truthy quality = true ->
  matchingHistory w (JNumber n) location quality = []
  /\ predictPrice (JNumber n) location quality w
     = (Normal (20 + bonus quality)%Q, w)
  /\ predictPriceRoute (PredictBody.mk (JNumber n) name location quality) w
     = (Normal (predictionResponse (20 + bonus quality) (random w (draws w))),
        afterDraw w)
  /\ (forall body w0 w',
        predictPriceRoute body w0
        = (Normal (badRequest "Invalid crop type name"), w') ->
        nameConsulted body = true
        /\ truthy (PredictBody.cropTypeId body) = false).
Proof.
  intros Hn Hid Href Hl Hq.
  pose proof (matchingHistory_unknown_id w n location quality Hid Href) as Hm.
  assert (predictPrice (JNumber n) location quality w
          = (Normal (20 + bonus quality)%Q, w)) as Hp
      by (rewrite predictPrice_cases, Hm; reflexivity).
  assert (truthy (JNumber n) = true) as Ht.
  { simpl. apply negb_true_iff. apply not_true_is_false.
    intros E. now apply Qeq_bool_iff in E. }
  split; [exact Hm|]. split; [exact Hp|]. split.
  - rewrite predictPriceRoute_cases, resolveCropTypeId_cases.
    unfold nameConsulted, allPresent. cbn [PredictBody.cropTypeId
      PredictBody.location PredictBody.quality fst snd].
    rewrite Ht, Hl, Hq. cbn [negb andb fst snd]. rewrite Ht, Hp. reflexivity.
  - intros body w0 w' E.
    destruct (predictPriceRoute_outcome body w0)
      as [[[Hc _] _]|[[_ E']|(_ & _ & resp & w1 & E' & Hs)]].
    + split; [exact Hc|]. unfold nameConsulted in Hc.
      apply andb_true_iff in Hc. now apply negb_true_iff.
    + rewrite E in E'. discriminate.
    + rewrite E in E'. injection E' as <- _. now contradiction Hs.
Qed.

(** C10 -- A name that lowercases like the name of a stored crop type is
    resolved to a stored crop type of that lowercased name, whatever its
    letter case; a request that carries such a name in place of the
    identifier, with location and quality, is answered with status 200.
    Locations are compared as they are: the history lookup returns only
    entries whose location equals the requested string, and none for
    "PUNE" where it finds some for "Pune". *)
Theorem getCropTypeByName_case_insensitive {R : Runtime} w c s :
  In c (map_values (MemStorage.cropTypes (storage w))) ->
  toLowerCase s = toLowerCase (CropType.name c) ->
  (exists c',
      getCropTypeByName (JString s) w = (Normal (Some c'), w)
      /\ In c' (map_values (MemStorage.cropTypes (storage w)))
      /\ toLowerCase (CropType.name c') = toLowerCase s)
  /\ (forall body,
        cropTypeIdsPositive (storage w) ->
        truthy (PredictBody.cropTypeId body) = false ->
        PredictBody.cropTypeName body = JString s -> s <> "" ->
        truthy (PredictBody.location body) = true ->
        truthy (PredictBody.quality body) = true ->
        exists resp w',
          predictPriceRoute body w = (Normal resp, w') /\ status resp = 200)
  /\ (forall cropTypeId location h,
        In h (matchingLocation w cropTypeId (JString location)) ->
        PriceHistory.location h = location)
  /\ (toLowerCase "PUNE" = toLowerCase "Pune"
      /\ matchingLocation sampleWorld (JsInt 1) (JString "PUNE") = []
      /\ matchingLocation sampleWorld (JsInt 1) (JString "Pune") <> []).
Proof.
  intros Hc Hs.
  assert (exists c',
      getCropTypeByName (JString s) w = (Normal (Some c'), w)
      /\ In c' (map_values (MemStorage.cropTypes (storage w)))
      /\ toLowerCase (CropType.name c') = toLowerCase s) as Hfind.
  { rewrite getCropTypeByName_string.
    destruct (find _ _) as [c'|] eqn:F.
    - exists c'. split; [reflexivity|].
      apply find_some in F. destruct F as [Hin E].
      now apply String.eqb_eq in E.
    - exfalso. apply find_none with (x := c) in F; [|exact Hc].
      rewrite Hs, String.eqb_refl in F. discriminate. }
  split; [exact Hfind|]. split; [|split].
  - intros body Hpos Hid Hname Hne Hl Hq.
    destruct Hfind as (c' & E & Hin & _).
    rewrite predictPriceRoute_cases, resolveCropTypeId_cases.
    unfold nameConsulted. rewrite Hid, Hname.
    assert (truthy (JString s) = true) as Ht.
    { simpl. apply negb_true_iff. now apply String.eqb_neq. }
    rewrite Ht, E. cbn [negb andb fst snd].
    assert (allPresent (JsInt (CropType.id c')) body = true) as Ha.
    { unfold allPresent. rewrite Hl, Hq.
      assert (truthy (JsInt (CropType.id c')) = true) as ->; [|reflexivity].
      simpl. apply negb_true_iff, not_true_is_false. intros E0.
      apply Qeq_bool_iff in E0. unfold Qeq in E0; simpl in E0.
      specialize (Hpos c' Hin). lia. }
    rewrite Ha.
    destruct (predictPrice_normal (JsInt (CropType.id c'))
                (PredictBody.location body) (PredictBody.quality body) w)
      as (p & w1 & Ep).
    rewrite Ep. eexists _, _. split; reflexivity.
  - intros cropTypeId location h Hh.
    unfold matchingLocation, getPriceHistoryByCropTypeAndLocation, bind, this,
      ret in Hh. cbn [fst snd] in Hh.
    apply filter_In in Hh. destruct Hh as [_ Hh].
    apply andb_true_iff in Hh. destruct Hh as [_ Hh].
    simpl in Hh. now apply String.eqb_eq in Hh.
  - split; [now rewrite !toLowerCase_ascii by reflexivity|].
    split; [vm_compute; reflexivity|]. vm_compute. discriminate.
Qed.

(** ** The storage after [initSampleData] *)

Lemma map_set_values {V} (k : Z) (v x : V) (m : JsMap V) :
  In x (map_values (map_set k v m)) -> x = v \/ In x (map_values m).
Proof.
  induction m as [|[k' v'] m IH]; simpl.
  - intros [<-|[]]. now left.
  - destruct (k =? k'); simpl.
    + intros [<-|H]; [now left|right; now right].
    + intros [<-|H]; [right; now left|].
      destruct (IH H) as [->|H']; [now left|right; now right].
Qed.

Lemma Math_max_lower (x y : Q) : (x <= Math_max x y)%Q.
Proof.
  unfold Math_max. destruct (Qle_bool x y) eqn:E.
  - now apply Qle_bool_iff.
  - apply Qle_refl.
Qed.

(** A loop whose passes complete and keep [I] completes and keeps [I]. *)
Lemma forEach_invariant {A B} (f : A -> Promise B) (I : World -> Prop)
  (a : list A) :
  (forall x w, In x a -> I w -> exists y w', f x w = (Normal y, w') /\ I w') ->
  forall w, I w -> exists w', forEach f a w = (Normal tt, w') /\ I w'.
Proof.
  induction a as [|x a IH]; intros Hf w Hw.
  - exists w. now split.
  - destruct (Hf x w (or_introl eq_refl) Hw) as (y & w1 & E1 & H1).
    destruct (IH (fun x w Hx => Hf x w (or_intror Hx)) w1 H1)
      as (w2 & E2 & H2).
    exists w2. simpl. unfold bind. rewrite E1. now split.
Qed.

Lemma initSampleCropTypes_fresh rnd d c :
  initSampleCropTypes (mkWorld MemStorage.empty rnd d c)
  = (Normal tt,
     mkWorld (MemStorage.mk map_new seededCropTypes map_new map_new map_new
                map_new 1 11 1 1 1 1) rnd d c).
Proof. reflexivity. Qed.

Lemma initSamplePrice_seeded monthsBefore i location quality month w :
  1 <= i <= 10 -> seeded (storage w) ->
  exists h w',
    initSamplePrice monthsBefore i location quality month w = (Normal h, w')
    /\ seeded (storage w').
Proof.
  intros Hi [Hc Hh]. eexists _, _.
  split; [cbv [initSamplePrice createPriceHistory bind Date_now Math_random
               this set_this ret InsertPriceHistory.recordedDate];
          reflexivity|].
  split; [exact Hc|]. cbn. intros h H.
  apply map_set_values in H. destruct H as [->|H]; [|now apply Hh].
  cbn. split; [apply Math_max_lower|exact Hi].
Qed.

(** A loop as one pass of an enclosing loop. *)
Lemma forEach_pass {A B} (f : A -> Promise B) (I : World -> Prop)
  (a : list A) :
  (forall x w, In x a -> I w -> exists y w', f x w = (Normal y, w') /\ I w') ->
  forall w, I w -> exists y w', forEach f a w = (Normal y, w') /\ I w'.
Proof.
  intros Hf w Hw.
  destruct (forEach_invariant f I a Hf w Hw) as (w' & E & H).
  now exists tt, w'.
Qed.

Lemma initSamplePriceHistory_seeded monthsBefore w :
  seeded (storage w) ->
  exists w',
    initSamplePriceHistory monthsBefore w = (Normal tt, w')
    /\ seeded (storage w').
Proof.
  unfold initSamplePriceHistory. revert w.
  apply forEach_invariant with (I := fun w => seeded (storage w)).
  intros i w Hi.
  assert (1 <= i <= 10) as Hi' by (simpl in Hi; intuition lia).
  revert w. apply forEach_pass with (I := fun w => seeded (storage w)).
  intros location w _. revert w.
  apply forEach_pass with (I := fun w => seeded (storage w)).
  intros quality w _. revert w.
  apply forEach_pass with (I := fun w => seeded (storage w)).
  intros month w _. now apply initSamplePrice_seeded.
Qed.

Lemma seeded_pricesPositive s : seeded s -> pricesPositive s.
Proof.
  intros [_ H] h Hh. destruct (H h Hh) as [Hp _]. lra.
Qed.

Lemma seeded_cropTypeIdsPositive s : seeded s -> cropTypeIdsPositive s.
Proof.
  intros [Hc _] c Hin. rewrite Hc in Hin. simpl in Hin.
  repeat (destruct Hin as [<-|Hin]; [simpl; lia|]). destruct Hin.
Qed.

Lemma seeded_historyRefersToCropTypes s :
  seeded s -> historyRefersToCropTypes s.
Proof.
  intros [Hc H] h Hh. destruct (H h Hh) as [_ Hi]. rewrite Hc.
  exists (CropType.mk (PriceHistory.cropTypeId h)
            (nth (Z.to_nat (PriceHistory.cropTypeId h) - 1) sampleCropTypes "")).
  split; [|reflexivity].
  assert (PriceHistory.cropTypeId h = 1 \/ PriceHistory.cropTypeId h = 2
          \/ PriceHistory.cropTypeId h = 3 \/ PriceHistory.cropTypeId h = 4
          \/ PriceHistory.cropTypeId h = 5 \/ PriceHistory.cropTypeId h = 6
          \/ PriceHistory.cropTypeId h = 7 \/ PriceHistory.cropTypeId h = 8
          \/ PriceHistory.cropTypeId h = 9 \/ PriceHistory.cropTypeId h = 10)
    as Hcases by lia.
  repeat (destruct Hcases as [->|Hcases]; [simpl; tauto|]).
  rewrite Hcases. simpl. tauto.
Qed.

(** The storage [initSampleData] leaves, whatever the draws, the clock and
    the calendar: the ten crop types in the order of the source, positive
    prices, and a stored crop type for every price. *)
Lemma initSampleData_seeded monthsBefore rnd d c :
  exists w',
    initSampleData monthsBefore (mkWorld MemStorage.empty rnd d c)
    = (Normal tt, w')
    /\ map CropType.name (map_values (MemStorage.cropTypes (storage w')))
       = sampleCropTypes
    /\ pricesPositive (storage w')
    /\ cropTypeIdsPositive (storage w')
    /\ historyRefersToCropTypes (storage w').
Proof.
  unfold initSampleData, bind. rewrite initSampleCropTypes_fresh.
  destruct (initSamplePriceHistory_seeded monthsBefore
              (mkWorld (MemStorage.mk map_new seededCropTypes map_new map_new
                          map_new map_new 1 11 1 1 1 1) rnd d c))
    as (w' & E & H).
  { split; [reflexivity|intros h []]. }
  exists w'. split; [exact E|]. split.
  - destruct H as [-> _]. reflexivity.
  - auto using seeded_pricesPositive, seeded_cropTypeIdsPositive,
      seeded_historyRefersToCropTypes.
Qed.

(** ** The theorems at the sample world *)

Lemma sampleRandom_range (n : nat) :
  (0 <= sampleRandom n)%Q /\ (sampleRandom n < 1)%Q.
Proof.
  unfold sampleRandom, Qle, Qlt.
  assert (Nat.modulo n 10 < 10)%nat as H
      by (apply Nat.mod_upper_bound; discriminate).
  set (m := Nat.modulo n 10) in *. cbn [Qnum Qden]. lia.
Qed.

Lemma sampleWorld_randomInRange : randomInRange sampleWorld.
Proof. intros n. apply sampleRandom_range. Qed.

Lemma predictPrice_default_without_history_witness :
  (forall h,
      In h (map_values (MemStorage.priceHistory (storage sampleWorld))) ->
      matchesRequest (JsInt 1) (JString "Delhi") (JString "A") h = false)
  /\ predictPrice (JsInt 1) (JString "Delhi") (JString "A") sampleWorld
     = (Normal (20 + bonus (JString "A"))%Q, sampleWorld).
Proof.
  assert (forall h,
      In h (map_values (MemStorage.priceHistory (storage sampleWorld))) ->
      matchesRequest (JsInt 1) (JString "Delhi") (JString "A") h = false) as H.
  { intros h Hh. apply negb_true_iff. revert h Hh.
    apply (proj1 (forallb_forall
                    (fun h => negb (matchesRequest (JsInt 1) (JString "Delhi")
                                      (JString "A") h)) _)).
    vm_compute. reflexivity. }
  split; [exact H|].
  apply (predictPrice_default_without_history sampleWorld (JsInt 1)
           (JString "Delhi") (JString "A") H).
Defined.

Lemma predictPrice_mean_of_most_recent_witness :
  matchingHistory sampleWorld (JsInt 1) (JString "Pune") (JString "A") <> []
  /\ exists recent older,
      Permutation
        (matchingHistory sampleWorld (JsInt 1) (JString "Pune") (JString "A"))
        (recent ++ older)
      /\ length recent = 3%nat
      /\ Binary64.avgRecentPrice
           (matchingHistory sampleWorld (JsInt 1) (JString "Pune")
              (JString "A"))
         = Binary64.mean (map Binary64.price recent)
      /\ Binary64.predictPrice (JsInt 1) (JString "Pune") (JString "A")
           sampleWorld
         = (Normal 21.849999999999998%float, afterDraw sampleWorld).
Proof.
  assert (matchingHistory sampleWorld (JsInt 1) (JString "Pune") (JString "A")
          <> []) as H by (vm_compute; discriminate).
  split; [exact H|].
  destruct (predictPrice_mean_of_most_recent sampleWorld (JsInt 1)
              (JString "Pune") (JString "A") H)
    as (recent & older & Hperm & Hlen & _ & _ & Hmean & Hp).
  exists recent, older. split; [exact Hperm|]. split; [|split; [exact Hmean|]].
  - rewrite Hlen. vm_compute. reflexivity.
  - rewrite Hp. vm_compute. reflexivity.
Defined.

Lemma sampleWorld_seeded :
  map CropType.name (map_values (MemStorage.cropTypes (storage sampleWorld)))
  = sampleCropTypes
  /\ pricesPositive (storage sampleWorld)
  /\ cropTypeIdsPositive (storage sampleWorld)
  /\ historyRefersToCropTypes (storage sampleWorld).
Proof.
  unfold sampleWorld, freshWorld.
  destruct (initSampleData_seeded sampleMonthsBefore sampleRandom 0
              1700000000000) as (w' & E & H).
  rewrite E. exact H.
Qed.

Lemma sampleWorld_pricesPositive : pricesPositive (storage sampleWorld).
Proof. exact (proj1 (proj2 sampleWorld_seeded)). Qed.

Lemma sampleWorld_cropTypeIdsPositive :
  cropTypeIdsPositive (storage sampleWorld).
Proof. exact (proj1 (proj2 (proj2 sampleWorld_seeded))). Qed.

Lemma sampleWorld_historyRefersToCropTypes :
  historyRefersToCropTypes (storage sampleWorld).
Proof. exact (proj2 (proj2 (proj2 sampleWorld_seeded))). Qed.

Lemma predictPrice_positive_witness :
  pricesPositive (storage sampleWorld)
  /\ (0.95 <= predictionFactor (random sampleWorld (draws sampleWorld)))%Q
  /\ (predictionFactor (random sampleWorld (draws sampleWorld)) <= 1.05)%Q
  /\ exists p w',
      predictPrice (JsInt 1) (JString "Pune") (JString "A") sampleWorld
      = (Normal p, w') /\ (0 < p)%Q.
Proof.
  assert (0.95 <= predictionFactor (random sampleWorld (draws sampleWorld)))%Q
    as Hlo by (vm_compute; discriminate).
  assert (predictionFactor (random sampleWorld (draws sampleWorld)) <= 1.05)%Q
    as Hhi by (vm_compute; discriminate).
  split; [exact sampleWorld_pricesPositive|].
  split; [exact Hlo|]. split; [exact Hhi|].
  apply (predictPrice_positive sampleWorld (JsInt 1) (JString "Pune")
           (JString "A") sampleWorld_pricesPositive Hlo Hhi).
Defined.


Lemma getForecastData_top_crops_witness :
  randomInRange sampleWorld
  /\ exists wheatSeries w',
      getForecastData sampleWorld
      = (Normal
           (mkForecastReport months
              [mkDataset 1 "Rice" [50; 55; 52; 50; 48; 45];
               mkDataset 2 "Wheat" wheatSeries;
               mkDataset 3 "Tomato" [30; 45; 60; 70; 65; 55]]
              fixedDemandGroups), w')
      /\ length wheatSeries = 6%nat
      /\ Forall inForecastRange wheatSeries.
Proof.
  split; [exact sampleWorld_randomInRange|].
  destruct (getForecastData_top_crops sampleWorld sampleWorld_randomInRange)
    as (ds & w' & E & _ & _ & H).
  destruct (H (CropType.mk 1 "Rice") (CropType.mk 2 "Wheat")
              (CropType.mk 3 "Tomato")
              (skipn 3 (map_values seededCropTypes))
              eq_refl eq_refl eq_refl eq_refl)
    as (wheatSeries & Eds & Hlen & Hrange).
  exists wheatSeries, w'. rewrite Eds in E.
  split; [exact E|]. split; [exact Hlen|exact Hrange].
Defined.

Lemma predictPriceRoute_unknown_numeric_id_witness :
  ~ (99 == 0)%Q
  /\ identifiesNoCropType (storage sampleWorld) 99
  /\ historyRefersToCropTypes (storage sampleWorld)
  /\ predictPrice (JNumber 99) (JString "Pune") (JString "A") sampleWorld
     = (Normal (20 + 10)%Q, sampleWorld)
  /\ predictPriceRoute (R := asciiRuntime)
       (PredictBody.mk (JNumber 99) (JString "Rice") (JString "Pune")
          (JString "A")) sampleWorld
     = (Normal (mkResponse 200
                  (Prediction 27.00 33.00 (rupee ++ "27-33")%string 30.00
                     "below")),
        afterDraw sampleWorld).
Proof.
  assert (~ (99 == 0)%Q) as H0 by (intros E; discriminate E).
  assert (identifiesNoCropType (storage sampleWorld) 99) as H1.
  { intros c Hc E. apply Qeq_bool_iff in E.
    assert (negb (Qeq_bool (inject_Z (CropType.id c)) 99) = true) as Hb.
    { revert c Hc E. intros c Hc _. revert c Hc.
      apply (proj1 (forallb_forall
                      (fun c => negb (Qeq_bool (inject_Z (CropType.id c)) 99))
                      _)).
      vm_compute. reflexivity. }
    rewrite E in Hb. discriminate Hb. }
  pose proof sampleWorld_historyRefersToCropTypes as H2.
  split; [exact H0|]. split; [exact H1|]. split; [exact H2|].
  destruct (predictPriceRoute_unknown_numeric_id (R := asciiRuntime)
              sampleWorld 99
              (JString "Rice") (JString "Pune") (JString "A")
              H0 H1 H2 eq_refl eq_refl) as (_ & Hp & Hr & _).
  split; [exact Hp|]. rewrite Hr. vm_compute. reflexivity.
Defined.

Lemma getCropTypeByName_case_insensitive_witness :
  In (CropType.mk 1 "Rice")
    (map_values (MemStorage.cropTypes (storage sampleWorld)))
  /\ @toLowerCase asciiRuntime "rIcE" = @toLowerCase asciiRuntime "Rice"
  /\ getCropTypeByName (R := asciiRuntime) (JString "rIcE") sampleWorld
     = (Normal (Some (CropType.mk 1 "Rice")), sampleWorld)
  /\ exists resp w',
      predictPriceRoute (R := asciiRuntime)
        (PredictBody.mk JUndefined (JString "rIcE") (JString "Pune")
           (JString "A")) sampleWorld
      = (Normal resp, w')
      /\ status resp = 200.
Proof.
  assert (In (CropType.mk 1 "Rice")
            (map_values (MemStorage.cropTypes (storage sampleWorld)))) as H1
      by (vm_compute; left; reflexivity).
  assert (@toLowerCase asciiRuntime "rIcE" = @toLowerCase asciiRuntime "Rice")
    as H2 by reflexivity.
  split; [exact H1|]. split; [exact H2|].
  destruct (getCropTypeByName_case_insensitive (R := asciiRuntime) sampleWorld
              (CropType.mk 1 "Rice") "rIcE" H1 H2) as (_ & Hroute & _).
  split; [vm_compute; reflexivity|].
  apply (Hroute (PredictBody.mk JUndefined (JString "rIcE") (JString "Pune")
                   (JString "A"))).
  - exact sampleWorld_cropTypeIdsPositive.
  - reflexivity.
  - reflexivity.
  - discriminate.
  - reflexivity.
  - reflexivity.
Defined.

(** * Further properties of the storage *)

(** ** The [Map] *)

Lemma map_get_set_same {V} (k : Z) (v : V) (m : JsMap V) :
  map_get k (map_set k v m) = Some v.
Proof.
  induction m as [|[k' v'] m IH]; simpl.
  - now rewrite Z.eqb_refl.
  - destruct (k =? k') eqn:E; simpl; rewrite ?Z.eqb_refl, ?E; auto.
Qed.

Lemma map_get_set_other {V} (j k : Z) (v : V) (m : JsMap V) :
  j <> k -> map_get j (map_set k v m) = map_get j m.
Proof.
  intros Hjk. induction m as [|[k' v'] m IH]; simpl.
  - now apply Z.eqb_neq in Hjk as ->.
  - destruct (k =? k') eqn:E; simpl.
    + apply Z.eqb_eq in E. subst k'. now apply Z.eqb_neq in Hjk as ->.
    + now rewrite IH.
Qed.

Lemma map_set_fresh {V} (k : Z) (v : V) (m : JsMap V) :
  ~ In k (keys m) -> map_set k v m = m ++ [(k, v)].
Proof.
  induction m as [|[k' v'] m IH]; simpl; [reflexivity|].
  intros Hk. destruct (k =? k') eqn:E.
  - apply Z.eqb_eq in E. subst. tauto.
  - rewrite IH; tauto.
Qed.

Lemma map_set_in_place {V} (k : Z) (v old : V) (before after : JsMap V) :
  ~ In k (keys before) ->
  map_set k v (before ++ (k, old) :: after) = before ++ (k, v) :: after.
Proof.
  induction before as [|[k' v'] before IH]; simpl.
  - now rewrite Z.eqb_refl.
  - intros Hk. destruct (k =? k') eqn:E.
    + apply Z.eqb_eq in E. subst. tauto.
    + rewrite IH; tauto.
Qed.

Lemma map_get_split {V} (k : Z) (v : V) (m : JsMap V) :
  map_get k m = Some v ->
  exists before after,
    m = before ++ (k, v) :: after /\ ~ In k (keys before).
Proof.
  induction m as [|[k' v'] m IH]; simpl; [discriminate|].
  destruct (k =? k') eqn:E.
  - intros [= <-]. apply Z.eqb_eq in E. subst.
    exists [], m. split; [reflexivity|intros []].
  - intros H. destruct (IH H) as (before & after & -> & Hn).
    exists ((k', v') :: before), after. split; [reflexivity|].
    simpl. apply Z.eqb_neq in E. intros [?|?]; [congruence|tauto].
Qed.

Lemma map_get_in {V} (k : Z) (v : V) (m : JsMap V) :
  map_get k m = Some v -> In (k, v) m.
Proof.
  intros H. destruct (map_get_split k v m H) as (b & a & -> & _).
  apply in_or_app. right. now left.
Qed.

Lemma map_get_none {V} (k : Z) (m : JsMap V) :
  map_get k m = None <-> ~ In k (keys m).
Proof.
  induction m as [|[k' v'] m IH]; simpl; [tauto|].
  destruct (k =? k') eqn:E.
  - apply Z.eqb_eq in E. subst. split; [discriminate|tauto].
  - apply Z.eqb_neq in E. rewrite IH. split; [intros H [?|?]|]; try tauto.
    congruence.
Qed.

Lemma keys_map_set {V} (k : Z) (v : V) (m : JsMap V) :
  keys (map_set k v m) = if in_dec Z.eq_dec k (keys m) then keys m
                         else keys m ++ [k].
Proof.
  destruct (in_dec Z.eq_dec k (keys m)) as [Hin|Hn].
  - induction m as [|[k' v'] m IH]; simpl in *; [contradiction|].
    destruct (k =? k') eqn:E.
    + apply Z.eqb_eq in E. now subst.
    + apply Z.eqb_neq in E. simpl. f_equal. apply IH.
      destruct Hin; [congruence|assumption].
  - rewrite map_set_fresh by exact Hn. unfold keys. now rewrite map_app.
Qed.

Lemma wellKeyed_set_new {V} (n : Z) (v : V) (m : JsMap V) :
  wellKeyed n m -> wellKeyed (n + 1) (map_set n v m).
Proof.
  intros [Hd Hb].
  assert (~ In n (keys m)) as Hn by (intros H; apply Hb in H; lia).
  rewrite map_set_fresh by exact Hn. unfold wellKeyed, keys in *.
  rewrite map_app. simpl. split.
  - apply NoDup_app; [exact Hd|repeat constructor; intros []|].
    intros k Hk [<-|[]]. contradiction.
  - intros k Hk. apply in_app_or in Hk. destruct Hk as [Hk|[<-|[]]];
      [apply Hb in Hk|]; lia.
Qed.

Lemma wellKeyed_set_old {V} (n k : Z) (v old : V) (m : JsMap V) :
  map_get k m = Some old -> wellKeyed n m -> wellKeyed n (map_set k v m).
Proof.
  intros Hg [Hd Hb]. unfold wellKeyed. rewrite keys_map_set.
  destruct (in_dec Z.eq_dec k (keys m)) as [_|Hn]; [now split|].
  apply map_get_none in Hn. congruence.
Qed.

Lemma indexed_set {V} (id : V -> Z) (k : Z) (v : V) (m : JsMap V) :
  id v = k -> indexed id m -> indexed id (map_set k v m).
Proof.
  intros Hv Hm. induction m as [|[k' v'] m IH]; simpl.
  - intros j x [[= <- <-]|[]]. exact Hv.
  - destruct (k =? k') eqn:E.
    + intros j x [[= <- <-]|H]; [exact Hv|]. apply Hm. now right.
    + intros j x [[= <- <-]|H]; [apply Hm; now left|].
      apply IH; [|exact H]. intros j' x' H'. apply Hm. now right.
Qed.


(** ** Creating and looking up *)

(** X1 -- Each [create...] method gives the new record the current value of
    its counter as [id] and completes; looking that [id] up right after
    returns the record, and looking up any other identifier answers as it
    did before.  A new bid or barter offer is "pending". *)
Theorem create_then_get_by_id w :
  (forall user, exists u w',
      createUser user w = (Normal u, w')
      /\ User.id u = MemStorage.userId (storage w)
      /\ getUser (User.id u) w' = (Normal (Some u), w')
      /\ forall j, j <> User.id u -> fst (getUser j w') = fst (getUser j w))
  /\ (forall name, exists c w',
      createCropType name w = (Normal c, w')
      /\ CropType.id c = MemStorage.cropTypeId (storage w)
      /\ CropType.name c = name
      /\ getCropType (CropType.id c) w' = (Normal (Some c), w')
      /\ forall j, j <> CropType.id c ->
                   fst (getCropType j w') = fst (getCropType j w))
  /\ (forall listing, exists l w',
      createListing listing w = (Normal l, w')
      /\ Listing.id l = MemStorage.listingId (storage w)
      /\ Listing.createdAt l = clock w
      /\ getListing (Listing.id l) w' = (Normal (Some l), w')
      /\ forall j, j <> Listing.id l ->
                   fst (getListing j w') = fst (getListing j w))
  /\ (forall bid, exists b w',
      createBid bid w = (Normal b, w')
      /\ Bid.id b = MemStorage.bidId (storage w)
      /\ Bid.status b = "pending"
      /\ getBid (Bid.id b) w' = (Normal (Some b), w')
      /\ forall j, j <> Bid.id b -> fst (getBid j w') = fst (getBid j w))
  /\ (forall offer, exists o w',
      createBarterOffer offer w = (Normal o, w')
      /\ BarterOffer.id o = MemStorage.barterOfferId (storage w)
      /\ BarterOffer.status o = "pending"
      /\ getBarterOffer (BarterOffer.id o) w' = (Normal (Some o), w')
      /\ forall j, j <> BarterOffer.id o ->
                   fst (getBarterOffer j w') = fst (getBarterOffer j w)).
Proof.
  repeat split; intros x;
    unfold createUser, createCropType, createListing, createBid,
      createBarterOffer, getUser, getCropType, getListing, getBid,
      getBarterOffer, bind, this, set_this, Date_now, ret;
    cbn [fst snd storage]; eexists _, _;
    (split; [reflexivity|]); cbn;
    repeat (split; [reflexivity|]);
    (split; [now rewrite map_get_set_same|]);
    intros j Hj; now rewrite map_get_set_other.
Qed.

Lemma getUserByUsername_for_find username values :
  getUserByUsername_for username values
  = find (fun u => String.eqb (User.username u) username) values.
Proof.
  induction values as [|u values IH]; simpl; [reflexivity|].
  now rewrite IH.
Qed.

Lemma getUserByUsername_for_app username before after :
  getUserByUsername_for username (before ++ after)
  = match getUserByUsername_for username before with
    | Some u => Some u
    | None => getUserByUsername_for username after
    end.
Proof.
  induction before as [|u before IH]; simpl; [reflexivity|].
  destruct (String.eqb _ _); [reflexivity|exact IH].
Qed.

(** X2 -- [getUserByUsername] returns the earliest stored user whose
    username equals the argument, letter case included, and nothing when
    there is none.  [createUser] does not look at usernames: after it has
    stored a user under a fresh key, a username that was taken still leads
    to its earlier holder, and a username that was free leads to the new
    user exactly when it is the new user's. *)
Theorem getUserByUsername_earliest w username user :
  (forall k, In k (keys (MemStorage.users (storage w))) ->
             k < MemStorage.userId (storage w)) ->
  let w' := snd (createUser user w) in
  (forall u, result (getUserByUsername username) w = Some (Some u) <->
             exists before after,
               map_values (MemStorage.users (storage w)) = before ++ u :: after
               /\ User.username u = username
               /\ forall x, In x before -> User.username x <> username)
  /\ (result (getUserByUsername username) w = Some None <->
      forall x, In x (map_values (MemStorage.users (storage w))) ->
                User.username x <> username)
  /\ (forall u, result (getUserByUsername username) w = Some (Some u) ->
                result (getUserByUsername username) w' = Some (Some u))
  /\ (result (getUserByUsername username) w = Some None ->
      result (getUserByUsername username) w'
      = Some (if String.eqb (InsertUser.username user) username
              then result (createUser user) w else None)).
Proof.
  intros Hfresh w'.
  assert (forall w0, result (getUserByUsername username) w0
                     = Some (find (fun u => String.eqb (User.username u) username)
                               (map_values (MemStorage.users (storage w0)))))
    as Eres.
  { intros w0. unfold result, getUserByUsername, bind, this, ret. cbn.
    now rewrite getUserByUsername_for_find. }
  assert (map_values (MemStorage.users (storage w'))
          = map_values (MemStorage.users (storage w))
            ++ match result (createUser user) w with
               | Some u => [u]
               | None => []
               end) as Eapp.
  { subst w'. cbn. rewrite map_set_fresh.
    - unfold map_values. now rewrite map_app.
    - intros H. apply Hfresh in H. lia. }
  split; [|split; [|split]].
  - intros u. rewrite Eres. split.
    + intros [= F].
      set (p := fun u0 => String.eqb (User.username u0) username) in *.
      revert F. generalize (map_values (MemStorage.users (storage w))).
      induction l as [|x l IH]; simpl; [discriminate|].
      destruct (p x) eqn:Ex.
      * intros [= ->]. exists [], l. split; [reflexivity|].
        split; [now apply String.eqb_eq|intros ? []].
      * intros F. destruct (IH F) as (before & after & -> & Hu & Hb).
        exists (x :: before), after. split; [reflexivity|].
        split; [exact Hu|]. intros y [<-|Hy]; [|now apply Hb].
        now apply String.eqb_neq.
    + intros (before & after & -> & Hu & Hb). f_equal.
      induction before as [|x before IH]; simpl.
      * apply String.eqb_eq in Hu. now rewrite Hu.
      * assert (String.eqb (User.username x) username = false) as ->
            by (apply String.eqb_neq, Hb; now left).
        apply IH. intros y Hy. apply Hb. now right.
  - rewrite Eres. split.
    + intros [= F] x Hx. apply (find_none _ _ F) in Hx.
      now apply String.eqb_neq.
    + intros H. f_equal. destruct (find _ _) as [u|] eqn:F; [|reflexivity].
      apply find_some in F. destruct F as [Hin E].
      apply String.eqb_eq in E. now apply H in Hin.
  - intros u. rewrite !Eres, Eapp, <- !getUserByUsername_for_find,
      getUserByUsername_for_app.
    now intros [= ->].
  - rewrite !Eres, Eapp, <- !getUserByUsername_for_find,
      getUserByUsername_for_app.
    intros [= ->]. cbn. destruct (String.eqb _ _); reflexivity.
Qed.


(** ** What the storage keeps *)

Lemma consistent_empty : consistent MemStorage.empty.
Proof.
  unfold consistent, wellKeyed, indexed, MemStorage.empty, map_new; cbn.
  repeat split; try constructor; intros; contradiction.
Qed.

Ltac run_storage :=
  unfold createUser, createCropType, createListing, updateListing, createBid,
    updateBidStatus, createBarterOffer, updateBarterOfferStatus,
    createPriceHistory, bind, this, set_this, Date_now, ret;
  cbn [fst snd storage].

Lemma createCropType_consistent name w :
  consistent (storage w) ->
  exists c w', createCropType name w = (Normal c, w')
               /\ consistent (storage w').
Proof.
  intros (Hu & [Hck Hci] & Hl & Hb & Ho & Hp). run_storage.
  eexists _, _. split; [reflexivity|]. cbn.
  repeat split; try apply Hu; try apply Hl; try apply Hb; try apply Ho;
    try apply Hp;
    try (apply wellKeyed_set_new; assumption);
    try (apply indexed_set; [reflexivity|assumption]).
Qed.

Lemma createPriceHistory_consistent data w :
  consistent (storage w) ->
  exists h w', createPriceHistory data w = (Normal h, w')
               /\ consistent (storage w').
Proof.
  intros (Hu & Hc & Hl & Hb & Ho & [Hpk Hpi]). run_storage.
  destruct (InsertPriceHistory.recordedDate data); cbn;
    (eexists _, _; split; [reflexivity|]); cbn;
    (repeat split; try apply Hu; try apply Hc; try apply Hl; try apply Hb;
     try apply Ho;
     try (apply wellKeyed_set_new; assumption);
     try (apply indexed_set; [reflexivity|assumption])).
Qed.

Lemma createUser_consistent user w :
  consistent (storage w) ->
  exists u w', createUser user w = (Normal u, w')
               /\ consistent (storage w').
Proof.
  intros ([Hk Hi] & Hc & Hl & Hb & Ho & Hp). run_storage.
  eexists _, _. split; [reflexivity|]. cbn.
  repeat split; try apply Hc; try apply Hl; try apply Hb; try apply Ho;
    try apply Hp;
    try (apply wellKeyed_set_new; assumption);
    try (apply indexed_set; [reflexivity|assumption]).
Qed.

Lemma createListing_consistent listing w :
  consistent (storage w) ->
  exists l w', createListing listing w = (Normal l, w')
               /\ consistent (storage w').
Proof.
  intros (Hu & Hc & Hl & Hb & Ho & Hp). run_storage.
  eexists _, _. split; [reflexivity|]. cbn.
  repeat split; try apply Hu; try apply Hc; try apply Hb; try apply Ho;
    try apply Hp; apply wellKeyed_set_new; assumption.
Qed.

Lemma initSamplePriceHistory_consistent monthsBefore w :
  consistent (storage w) ->
  exists w', initSamplePriceHistory monthsBefore w = (Normal tt, w')
             /\ consistent (storage w').
Proof.
  revert w. unfold initSamplePriceHistory.
  apply forEach_invariant with (I := fun w => consistent (storage w)).
  intros i w _. revert w.
  apply forEach_pass with (I := fun w => consistent (storage w)).
  intros location w _. revert w.
  apply forEach_pass with (I := fun w => consistent (storage w)).
  intros quality w _. revert w.
  apply forEach_pass with (I := fun w => consistent (storage w)).
  intros month w _ Hw.
  unfold initSamplePrice, bind, Date_now, Math_random. cbn [fst snd].
  apply createPriceHistory_consistent. exact Hw.
Qed.

Lemma MemStorage_constructor_consistent monthsBefore w :
  exists w', MemStorage_constructor monthsBefore w = (Normal tt, w')
             /\ consistent (storage w').
Proof.
  unfold MemStorage_constructor, initSampleData_full, initSampleCropTypes,
    bind, set_this. cbn [fst snd].
  set (w0 := mkWorld MemStorage.empty (random w) (draws w) (clock w)).
  assert (H0 : consistent (storage w0)) by apply consistent_empty.
  clearbody w0.
  destruct (forEach_invariant createCropType
              (fun w => consistent (storage w)) sampleCropTypes) with (w := w0)
    as (w1 & E1 & H1); [|exact H0|].
  { intros name w' _. apply createCropType_consistent. }
  rewrite E1.
  destruct (forEach_invariant createUser
              (fun w => consistent (storage w)) sampleUsers) with (w := w1)
    as (w2 & E2 & H2); [|exact H1|].
  { intros user w' _. apply createUser_consistent. }
  rewrite E2.
  destruct (forEach_invariant createListing
              (fun w => consistent (storage w)) sampleListings) with (w := w2)
    as (w3 & E3 & H3); [|exact H2|].
  { intros listing w' _. apply createListing_consistent. }
  rewrite E3.
  now apply initSamplePriceHistory_consistent.
Qed.

Lemma call_consistent c w :
  consistent (storage w) ->
  exists w', call c w = (Normal tt, w') /\ consistent (storage w').
Proof.
  intros Hw. destruct c; cbn [call].
  - destruct (createUser_consistent user w Hw) as (u & w' & E & H).
    exists w'. unfold bind. now rewrite E.
  - destruct (createCropType_consistent name w Hw) as (c & w' & E & H).
    exists w'. unfold bind. now rewrite E.
  - destruct (createListing_consistent listing w Hw) as (l & w' & E & H).
    exists w'. unfold bind. now rewrite E.
  - (* updateListing *)
    run_storage.
    destruct (map_get id (MemStorage.listings (storage w))) as [l|] eqn:G.
    + eexists. split; [reflexivity|]. cbn.
      destruct Hw as (Hu & Hc & Hl & Hb & Ho & Hp).
      repeat split; try apply Hu; try apply Hc; try apply Hb; try apply Ho;
        try apply Hp; eapply wellKeyed_set_old; eassumption.
    + exists w. now split.
  - (* createBid *)
    destruct Hw as (Hu & Hc & Hl & [Hk Hi] & Ho & Hp). run_storage.
    eexists. split; [reflexivity|]. cbn.
    repeat split; try apply Hu; try apply Hc; try apply Hl; try apply Ho;
      try apply Hp;
      try (apply wellKeyed_set_new; assumption);
      try (apply indexed_set; [reflexivity|assumption]).
  - (* updateBidStatus *)
    run_storage.
    destruct (map_get id (MemStorage.bids (storage w))) as [b|] eqn:G.
    + eexists. split; [reflexivity|]. cbn.
      destruct Hw as (Hu & Hc & Hl & [Hk Hi] & Ho & Hp).
      repeat split; try apply Hu; try apply Hc; try apply Hl; try apply Ho;
        try apply Hp;
        try (eapply wellKeyed_set_old; eassumption).
      apply indexed_set; [|assumption]. cbn.
      apply Hi. now apply map_get_in.
    + exists w. now split.
  - (* createBarterOffer *)
    destruct Hw as (Hu & Hc & Hl & Hb & [Hk Hi] & Hp). run_storage.
    eexists. split; [reflexivity|]. cbn.
    repeat split; try apply Hu; try apply Hc; try apply Hl; try apply Hb;
      try apply Hp;
      try (apply wellKeyed_set_new; assumption);
      try (apply indexed_set; [reflexivity|assumption]).
  - (* updateBarterOfferStatus *)
    run_storage.
    destruct (map_get id (MemStorage.barterOffers (storage w))) as [o|] eqn:G.
    + eexists. split; [reflexivity|]. cbn.
      destruct Hw as (Hu & Hc & Hl & Hb & [Hk Hi] & Hp).
      repeat split; try apply Hu; try apply Hc; try apply Hl; try apply Hb;
        try apply Hp;
        try (eapply wellKeyed_set_old; eassumption).
      apply indexed_set; [|assumption]. cbn.
      apply Hi. now apply map_get_in.
    + exists w. now split.
  - destruct (createPriceHistory_consistent priceHistoryData w Hw)
      as (h & w' & E & H).
    exists w'. unfold bind. now rewrite E.
  - destruct (predictPrice_normal cropTypeId location quality w)
      as (p & w' & E).
    exists w'. unfold bind. rewrite E. split; [reflexivity|].
    pose proof (predictPrice_storage cropTypeId location quality w) as Hs.
    rewrite E in Hs. cbn in Hs. now rewrite Hs.
  - destruct (getForecastData_spec w) as (ds & w' & E & S & _).
    exists w'. unfold bind. rewrite E. split; [reflexivity|].
    destruct S as [-> _]. exact Hw.
Qed.

Lemma calls_consistent (cs : list Call) w :
  consistent (storage w) ->
  exists w', forEach call cs w = (Normal tt, w') /\ consistent (storage w').
Proof.
  apply (forEach_invariant call (fun w => consistent (storage w)) cs).
  intros x w0 _ Hw. destruct (call_consistent x w0 Hw) as (w1 & E1 & H1).
  now exists tt, w1.
Qed.

(** X3 -- The constructor completes in every world, and after it so does
    every sequence of calls of the public methods of the storage
    (creations, updates, predictions, forecasts).  They leave a storage in
    which each collection has distinct keys below its counter and,
    listings apart, every record is stored under its own [id].  So an
    identifier is never handed out twice, and [getUser], [getCropType],
    [getBid] and [getBarterOffer] return a record carrying the identifier
    asked for. *)
Theorem calls_keep_consistent (cs : list Call) monthsBefore w0 :
  exists w1 w',
    MemStorage_constructor monthsBefore w0 = (Normal tt, w1)
    /\ forEach call cs w1 = (Normal tt, w')
    /\ consistent (storage w')
    /\ (forall id u, result (getUser id) w' = Some (Some u) -> User.id u = id)
    /\ (forall id x, result (getCropType id) w' = Some (Some x) ->
                     CropType.id x = id)
    /\ (forall id b, result (getBid id) w' = Some (Some b) -> Bid.id b = id)
    /\ (forall id o, result (getBarterOffer id) w' = Some (Some o) ->
                     BarterOffer.id o = id).
Proof.
  destruct (MemStorage_constructor_consistent monthsBefore w0)
    as (w1 & E1 & H1).
  destruct (calls_consistent cs w1 H1) as (w' & E & H).
  exists w1, w'. split; [exact E1|]. split; [exact E|]. split; [exact H|].
  destruct H as ([_ Hu] & [_ Hc] & _ & [_ Hb] & [_ Ho] & _).
  repeat split; intros id x; unfold result, getUser, getCropType, getBid,
    getBarterOffer, bind, this, ret; cbn; intros [= G];
    apply map_get_in in G; auto.
Qed.


Lemma map_set_existing {V} (k : Z) (v old : V) (m : JsMap V) :
  map_get k m = Some old ->
  exists before after,
    m = before ++ (k, old) :: after
    /\ map_set k v m = before ++ (k, v) :: after.
Proof.
  intros G. destruct (map_get_split k old m G) as (before & after & -> & Hn).
  exists before, after. split; [reflexivity|].
  now apply map_set_in_place.
Qed.

Lemma map_values_app {V} (a b : JsMap V) :
  map_values (a ++ b) = map_values a ++ map_values b.
Proof. apply map_app. Qed.

Lemma wellKeyed_fresh {V} (n : Z) (m : JsMap V) :
  wellKeyed n m -> ~ In n (keys m).
Proof. intros [_ Hb] H. apply Hb in H. lia. Qed.

(** X4 -- In a storage whose keys are below the counters, a creation
    appends: the listing, bid, barter offer, crop type or price just
    created comes last in what the matching [get...] method lists, after
    everything listed before in unchanged order; the lists filtered by
    user or by listing grow by the new record exactly when it belongs to
    them. *)
Theorem creations_append w :
  consistent (storage w) ->
  (forall listing userId,
      let w' := snd (createListing listing w) in
      exists l,
        result (createListing listing) w = Some l
        /\ result getListings w'
           = option_map (fun a => a ++ [l]) (result getListings w)
        /\ result (getListingsByUserId userId) w'
           = option_map
               (fun a => a ++ (if Listing.userId l =? userId then [l] else []))
               (result (getListingsByUserId userId) w))
  /\ (forall bid listingId userId,
      let w' := snd (createBid bid w) in
      exists b,
        result (createBid bid) w = Some b
        /\ result getBids w'
           = option_map (fun a => a ++ [b]) (result getBids w)
        /\ result (getBidsByListingId listingId) w'
           = option_map
               (fun a => a ++ (if Bid.listingId b =? listingId then [b] else []))
               (result (getBidsByListingId listingId) w)
        /\ result (getBidsByUserId userId) w'
           = option_map
               (fun a => a ++ (if Bid.userId b =? userId then [b] else []))
               (result (getBidsByUserId userId) w))
  /\ (forall offer userId,
      let w' := snd (createBarterOffer offer w) in
      exists o,
        result (createBarterOffer offer) w = Some o
        /\ result getBarterOffers w'
           = option_map (fun a => a ++ [o]) (result getBarterOffers w)
        /\ result (getBarterOffersByUserId userId) w'
           = option_map
               (fun a => a ++ (if (BarterOffer.offerUserId o =? userId)
                                  || (BarterOffer.receiverUserId o =? userId)
                               then [o] else []))
               (result (getBarterOffersByUserId userId) w))
  /\ (forall name,
      let w' := snd (createCropType name w) in
      exists c,
        result (createCropType name) w = Some c
        /\ result getCropTypes w'
           = option_map (fun a => a ++ [c]) (result getCropTypes w))
  /\ (forall data,
      let w' := snd (createPriceHistory data w) in
      exists h,
        result (createPriceHistory data) w = Some h
        /\ result getPriceHistory w'
           = option_map (fun a => a ++ [h]) (result getPriceHistory w)).
Proof.
  intros (Hu & [Hc _] & Hl & [Hb _] & [Ho _] & [Hp _]).
  apply wellKeyed_fresh in Hc, Hl, Hb, Ho, Hp.
  split; [|split; [|split; [|split]]].
  - intros listing userId w'. subst w'. eexists.
    unfold result, createListing, getListings, getListingsByUserId, bind, this,
      set_this, Date_now, ret. cbn [fst snd storage option_map].
    cbn [set_listings MemStorage.listings].
    rewrite (map_set_fresh _ _ _ Hl), map_values_app, filter_app.
    repeat split.
  - intros bid listingId userId w'. subst w'. eexists.
    unfold result, createBid, getBids, getBidsByListingId, getBidsByUserId,
      bind, this, set_this, Date_now, ret. cbn [fst snd storage option_map].
    cbn [set_bids MemStorage.bids].
    rewrite (map_set_fresh _ _ _ Hb), map_values_app, !filter_app.
    repeat split.
  - intros offer userId w'. subst w'. eexists.
    unfold result, createBarterOffer, getBarterOffers, getBarterOffersByUserId,
      bind, this, set_this, Date_now, ret. cbn [fst snd storage option_map].
    cbn [set_barterOffers MemStorage.barterOffers].
    rewrite (map_set_fresh _ _ _ Ho), map_values_app, filter_app.
    repeat split.
  - intros name w'. subst w'. eexists.
    unfold result, createCropType, getCropTypes, bind, this, set_this, ret.
    cbn [fst snd storage option_map MemStorage.cropTypes].
    rewrite (map_set_fresh _ _ _ Hc), map_values_app.
    repeat split.
  - intros data w'. subst w'.
    unfold result, createPriceHistory, getPriceHistory, bind, this, set_this,
      Date_now, ret.
    destruct (InsertPriceHistory.recordedDate data);
      cbn [fst snd storage option_map MemStorage.priceHistory];
      rewrite (map_set_fresh _ _ _ Hp), map_values_app;
      eexists; repeat split.
Qed.


(** ** Updating *)

Lemma mergeListing_twice listing u :
  mergeListing (mergeListing listing u) u = mergeListing listing u.
Proof.
  destruct u as [a b c d e f g h i j]. unfold mergeListing. cbn.
  destruct a, b, c, d, e, f, g, h, i, j; reflexivity.
Qed.

Lemma map_set_twice {V} (k : Z) (v v' : V) (m : JsMap V) :
  map_set k v' (map_set k v m) = map_set k v' m.
Proof.
  induction m as [|[k' x] m IH]; simpl.
  - now rewrite Z.eqb_refl.
  - destruct (k =? k') eqn:E; simpl; rewrite ?Z.eqb_refl, ?E;
      [reflexivity|now rewrite IH].
Qed.

(** X5 -- [updateListing] on an identifier that is not stored returns
    nothing and leaves the world as it is.  On a stored one it returns the
    stored listing overlaid with the given columns, puts it in the place of
    the old one (same key, same position, all other listings and the
    counter untouched), and [getListing] then returns it; a column the
    update does not give keeps its value.  The key is not a column: an
    update that gives an [id] changes the [id] the record shows, and the
    record is still found under the old key.  Applying the same update a
    second time changes nothing more. *)
Theorem updateListing_in_place w id u :
  (result (getListing id) w = Some None ->
   updateListing id u w = (Normal None, w))
  /\ (forall listing,
        result (getListing id) w = Some (Some listing) ->
        let updated := mergeListing listing u in
        let w' := snd (updateListing id u w) in
        updateListing id u w = (Normal (Some updated), w')
        /\ result (getListing id) w' = Some (Some updated)
        /\ (forall j, j <> id ->
                      result (getListing j) w' = result (getListing j) w)
        /\ (exists before after,
               MemStorage.listings (storage w)
               = before ++ (id, listing) :: after
               /\ MemStorage.listings (storage w')
                  = before ++ (id, updated) :: after)
        /\ storage w'
           = set_listings (storage w) (MemStorage.listings (storage w'))
               (MemStorage.listingId (storage w))
        /\ (PartialListing.id u = None -> Listing.id updated = Listing.id listing)
        /\ (forall id', PartialListing.id u = Some id' ->
                        Listing.id updated = id')
        /\ updateListing id u w' = (Normal (Some updated), w')).
Proof.
  unfold result, getListing, updateListing, bind, this, set_this, ret.
  cbn [fst snd storage]. split.
  - intros [= G]. now rewrite G.
  - intros listing [= G]. rewrite G. cbn [fst snd storage].
    cbn [set_listings MemStorage.listings MemStorage.listingId].
    split; [reflexivity|].
    split; [now rewrite map_get_set_same|].
    split; [intros j Hj; now rewrite map_get_set_other|].
    split.
    { destruct (map_set_existing id (mergeListing listing u) listing _ G)
        as (before & after & E1 & E2).
      exists before, after. now split. }
    split; [reflexivity|].
    split; [intros E; unfold mergeListing; cbn; now rewrite E|].
    split; [intros id' E; unfold mergeListing; cbn; now rewrite E|].
    rewrite map_get_set_same. cbn [fst snd storage].
    cbn [set_listings MemStorage.listings MemStorage.listingId
           MemStorage.users MemStorage.cropTypes MemStorage.bids
           MemStorage.barterOffers MemStorage.priceHistory MemStorage.userId
           MemStorage.cropTypeId MemStorage.bidId MemStorage.barterOfferId
           MemStorage.priceHistoryId].
    now rewrite mergeListing_twice, map_set_twice.
Qed.

(** X6 -- [updateBidStatus] and [updateBarterOfferStatus] on an identifier
    that is not stored return nothing and leave the world as it is.  On a
    stored one they return the stored record with the new status and every
    other column as it was, put it in the place of the old one, and change
    nothing else in the storage; any string is taken as status, whatever
    the status was before. *)
Theorem updateStatus_in_place w id status :
  (result (getBid id) w = Some None ->
   updateBidStatus id status w = (Normal None, w))
  /\ (forall bid,
        result (getBid id) w = Some (Some bid) ->
        let updated :=
          Bid.mk (Bid.id bid) (Bid.listingId bid) (Bid.userId bid)
            (Bid.amount bid) (Bid.createdAt bid) status in
        let w' := snd (updateBidStatus id status w) in
        updateBidStatus id status w = (Normal (Some updated), w')
        /\ result (getBid id) w' = Some (Some updated)
        /\ (forall j, j <> id -> result (getBid j) w' = result (getBid j) w)
        /\ (exists before after,
               MemStorage.bids (storage w) = before ++ (id, bid) :: after
               /\ MemStorage.bids (storage w')
                  = before ++ (id, updated) :: after)
        /\ storage w'
           = set_bids (storage w) (MemStorage.bids (storage w'))
               (MemStorage.bidId (storage w)))
  /\ (result (getBarterOffer id) w = Some None ->
      updateBarterOfferStatus id status w = (Normal None, w))
  /\ (forall offer,
        result (getBarterOffer id) w = Some (Some offer) ->
        let updated :=
          BarterOffer.mk (BarterOffer.id offer) (BarterOffer.offerUserId offer)
            (BarterOffer.receiverUserId offer) (BarterOffer.createdAt offer)
            status in
        let w' := snd (updateBarterOfferStatus id status w) in
        updateBarterOfferStatus id status w = (Normal (Some updated), w')
        /\ result (getBarterOffer id) w' = Some (Some updated)
        /\ (forall j, j <> id ->
                      result (getBarterOffer j) w' = result (getBarterOffer j) w)
        /\ (exists before after,
               MemStorage.barterOffers (storage w)
               = before ++ (id, offer) :: after
               /\ MemStorage.barterOffers (storage w')
                  = before ++ (id, updated) :: after)
        /\ storage w'
           = set_barterOffers (storage w)
               (MemStorage.barterOffers (storage w'))
               (MemStorage.barterOfferId (storage w))).
Proof.
  unfold result, getBid, updateBidStatus, getBarterOffer,
    updateBarterOfferStatus, bind, this, set_this, ret.
  cbn [fst snd storage].
  split; [intros [= G]; now rewrite G|].
  split.
  - intros bid [= G]. rewrite G. cbn [fst snd storage].
    cbn [set_bids MemStorage.bids MemStorage.bidId].
    split; [reflexivity|].
    split; [now rewrite map_get_set_same|].
    split; [intros j Hj; now rewrite map_get_set_other|].
    split; [|reflexivity].
    destruct (map_set_existing id
                (Bid.mk (Bid.id bid) (Bid.listingId bid) (Bid.userId bid)
                   (Bid.amount bid) (Bid.createdAt bid) status) bid _ G)
      as (before & after & E1 & E2).
    exists before, after. now split.
  - split; [intros [= G]; now rewrite G|].
    intros offer [= G]. rewrite G. cbn [fst snd storage].
    cbn [set_barterOffers MemStorage.barterOffers MemStorage.barterOfferId].
    split; [reflexivity|].
    split; [now rewrite map_get_set_same|].
    split; [intros j Hj; now rewrite map_get_set_other|].
    split; [|reflexivity].
    destruct (map_set_existing id
                (BarterOffer.mk (BarterOffer.id offer)
                   (BarterOffer.offerUserId offer)
                   (BarterOffer.receiverUserId offer)
                   (BarterOffer.createdAt offer) status) offer _ G)
      as (before & after & E1 & E2).
    exists before, after. now split.
Qed.


(** ** The sample data *)

Lemma MemStorage_constructor_records monthsBefore w0 :
  map historyKey
    (map_values
       (MemStorage.priceHistory
          (storage (snd (MemStorage_constructor monthsBefore w0)))))
  = seedKeys
  /\ draws (snd (MemStorage_constructor monthsBefore w0))
     = (900 + draws w0)%nat
  /\ random (snd (MemStorage_constructor monthsBefore w0)) = random w0.
Proof. split; [|split]; vm_compute; reflexivity. Qed.

Lemma matchesRequest_sameKey (i : Z) (l q : string) (h : PriceHistory.t) :
  matchesRequest (JsInt i) (JString l) (JString q) h
  = sameKey (historyKey h) (i, l, q).
Proof.
  unfold matchesRequest, sameKey, historyKey, JsInt. cbn.
  f_equal. f_equal.
  destruct (Z.eqb_spec (PriceHistory.cropTypeId h) i) as [->|Hn].
  - apply Qeq_bool_iff. reflexivity.
  - apply not_true_is_false. intros E. apply Qeq_bool_iff in E.
    unfold Qeq in E; cbn in E. lia.
Qed.

Lemma filter_length_map {A B} (f : A -> B) (p : B -> bool) (a : list A) :
  length (filter (fun x => p (f x)) a) = length (filter p (map f a)).
Proof.
  induction a as [|x a IH]; simpl; [reflexivity|].
  destruct (p (f x)); simpl; now rewrite IH.
Qed.

Lemma matchingHistory_length_keys w (i : Z) (l q : string) :
  length (matchingHistory w (JsInt i) (JString l) (JString q))
  = length (filter (fun k => sameKey k (i, l, q))
              (map historyKey
                 (map_values (MemStorage.priceHistory (storage w))))).
Proof.
  unfold matchingHistory.
  rewrite <- (filter_length_map historyKey (fun k => sameKey k (i, l, q))).
  f_equal. apply filter_ext. intros h. apply matchesRequest_sameKey.
Qed.

(** The invariant of the loops that create the sample prices. *)
Lemma initSamplePrice_seededPrice monthsBefore i location quality month w :
  1 <= i <= 10 -> In location sampleLocations -> In quality sampleQualities ->
  randomInRange w
  /\ (forall h, In h (map_values (MemStorage.priceHistory (storage w))) ->
                seededPrice h) ->
  exists h w',
    initSamplePrice monthsBefore i location quality month w = (Normal h, w')
    /\ randomInRange w'
    /\ (forall h, In h (map_values (MemStorage.priceHistory (storage w'))) ->
                  seededPrice h).
Proof.
  intros Hi Hl Hq [Hr Hh]. eexists _, _.
  split; [cbv [initSamplePrice createPriceHistory bind Date_now Math_random
               this set_this ret InsertPriceHistory.recordedDate];
          reflexivity|].
  split; [exact Hr|]. cbn. intros h H.
  apply map_set_values in H. destruct H as [->|H]; [|now apply Hh].
  unfold seededPrice. cbn. fold (seedBasePrice i quality).
  split; [exact Hi|]. split; [exact Hl|]. split; [exact Hq|].
  destruct (Hr (draws w)) as [Hr0 Hr1].
  set (r := random w (draws w)) in *.
  assert (17 <= seedBasePrice i quality)%Q as Hbase.
  { unfold seedBasePrice.
    assert (1 <= inject_Z i)%Q as H1
        by (change 1%Q with (inject_Z 1); rewrite <- Zle_Qle; lia).
    destruct (String.eqb quality "A"); [lra|].
    destruct (String.eqb quality "B"); lra. }
  assert (Math_max 5 (seedBasePrice i quality + (r * 10 - 5))
          = (seedBasePrice i quality + (r * 10 - 5))%Q) as ->.
  { unfold Math_max.
    assert (Qle_bool 5 (seedBasePrice i quality + (r * 10 - 5)) = true) as ->;
      [apply Qle_bool_iff; lra|reflexivity]. }
  split; lra.
Qed.

Lemma initSamplePriceHistory_seededPrice monthsBefore w :
  randomInRange w
  /\ (forall h, In h (map_values (MemStorage.priceHistory (storage w))) ->
                seededPrice h) ->
  exists w',
    initSamplePriceHistory monthsBefore w = (Normal tt, w')
    /\ randomInRange w'
    /\ (forall h, In h (map_values (MemStorage.priceHistory (storage w'))) ->
                  seededPrice h).
Proof.
  unfold initSamplePriceHistory. revert w.
  apply forEach_invariant
    with (I := fun w =>
                 randomInRange w
                 /\ forall h,
                     In h (map_values (MemStorage.priceHistory (storage w))) ->
                     seededPrice h).
  intros i w Hi.
  assert (1 <= i <= 10) as Hi' by (simpl in Hi; intuition lia).
  revert w.
  apply forEach_pass
    with (I := fun w =>
                 randomInRange w
                 /\ forall h,
                     In h (map_values (MemStorage.priceHistory (storage w))) ->
                     seededPrice h).
  intros location w Hl. revert w.
  apply forEach_pass
    with (I := fun w =>
                 randomInRange w
                 /\ forall h,
                     In h (map_values (MemStorage.priceHistory (storage w))) ->
                     seededPrice h).
  intros quality w Hq. revert w.
  apply forEach_pass
    with (I := fun w =>
                 randomInRange w
                 /\ forall h,
                     In h (map_values (MemStorage.priceHistory (storage w))) ->
                     seededPrice h).
  intros month w _. now apply initSamplePrice_seededPrice.
Qed.

Lemma seedKeys_six (i : Z) (l q : string) :
  1 <= i <= 10 -> In l sampleLocations -> In q sampleQualities ->
  length (filter (fun k => sameKey k (i, l, q)) seedKeys) = 6%nat.
Proof.
  intros Hi Hl Hq.
  assert (i = 1 \/ i = 2 \/ i = 3 \/ i = 4 \/ i = 5 \/ i = 6 \/ i = 7
          \/ i = 8 \/ i = 9 \/ i = 10) as Hc by lia.
  simpl in Hl, Hq.
  decompose [or] Hc; decompose [or] Hl; decompose [or] Hq; subst;
    try contradiction; vm_compute; reflexivity.
Qed.

Lemma initSampleUsers_fresh rnd d c :
  forEach createUser sampleUsers
    (mkWorld (MemStorage.mk map_new seededCropTypes map_new map_new map_new
                map_new 1 11 1 1 1 1) rnd d c)
  = (Normal tt,
     mkWorld (MemStorage.mk seededUsers seededCropTypes map_new map_new
                map_new map_new 5 11 1 1 1 1) rnd d c).
Proof. reflexivity. Qed.

Lemma initSampleListings_fresh rnd d c :
  forEach createListing sampleListings
    (mkWorld (MemStorage.mk seededUsers seededCropTypes map_new map_new
                map_new map_new 5 11 1 1 1 1) rnd d c)
  = (Normal tt,
     mkWorld (MemStorage.mk seededUsers seededCropTypes (seededListings c)
                map_new map_new map_new 5 11 4 1 1 1) rnd d c).
Proof. reflexivity. Qed.

(** The constructor up to the prices. *)
Lemma MemStorage_constructor_unfold monthsBefore w0 :
  MemStorage_constructor monthsBefore w0
  = initSamplePriceHistory monthsBefore
      (mkWorld (MemStorage.mk seededUsers seededCropTypes
                  (seededListings (clock w0)) map_new map_new map_new
                  5 11 4 1 1 1) (random w0) (draws w0) (clock w0)).
Proof.
  unfold MemStorage_constructor, initSampleData_full, bind at 1, set_this.
  unfold bind at 1. rewrite initSampleCropTypes_fresh.
  unfold bind at 1. rewrite initSampleUsers_fresh.
  unfold bind at 1. rewrite initSampleListings_fresh.
  reflexivity.
Qed.

Lemma MemStorage_constructor_run monthsBefore w0 :
  randomInRange w0 ->
  exists w1,
    MemStorage_constructor monthsBefore w0 = (Normal tt, w1)
    /\ forall h,
        In h (map_values (MemStorage.priceHistory (storage w1))) ->
        seededPrice h.
Proof.
  intros Hr. rewrite MemStorage_constructor_unfold.
  destruct (initSamplePriceHistory_seededPrice monthsBefore
              (mkWorld
                 (MemStorage.mk seededUsers seededCropTypes
                    (seededListings (clock w0)) map_new map_new map_new
                    5 11 4 1 1 1) (random w0) (draws w0) (clock w0)))
    as (w1 & E & _ & H).
  { split; [exact Hr|intros h []]. }
  exists w1. split; [exact E|exact H].
Qed.

(** X9 -- With [Math.random] drawing from [0, 1), the constructor
    completes, whatever the world before, the draws, the clock and the
    calendar, with 900 price records: six for each of the ten crop types
    at each of the five locations in each of the three qualities.  Each
    price lies within 5 of [15 + 2 * crop + bonus], so it is at least 12
    and at most 50, and [Math.max(5, ...)] never has to raise it. *)
Theorem MemStorage_constructor_prices monthsBefore w0 :
  randomInRange w0 ->
  exists w1,
    MemStorage_constructor monthsBefore w0 = (Normal tt, w1)
    /\ result getPriceHistory w1
       = Some (map_values (MemStorage.priceHistory (storage w1)))
    /\ length (map_values (MemStorage.priceHistory (storage w1))) = 900%nat
    /\ (forall h, In h (map_values (MemStorage.priceHistory (storage w1))) ->
                  seededPrice h
                  /\ (12 <= PriceHistory.price h)%Q
                  /\ (PriceHistory.price h <= 50)%Q)
    /\ (forall i l q,
          1 <= i <= 10 -> In l sampleLocations -> In q sampleQualities ->
          length (matchingHistory w1 (JsInt i) (JString l) (JString q))
          = 6%nat).
Proof.
  intros Hr.
  destruct (MemStorage_constructor_run monthsBefore w0 Hr) as (w1 & E0 & H).
  destruct (MemStorage_constructor_records monthsBefore w0) as (Hk & _).
  rewrite E0 in Hk. cbn [snd] in Hk.
  exists w1. split; [exact E0|]. split; [reflexivity|]. split.
  { rewrite <- (length_map historyKey), Hk. reflexivity. }
  split.
  - intros h Hh. specialize (H h Hh). split; [exact H|].
    destruct H as (Hi & _ & _ & Hlo & Hhi).
    assert ((17 <= seedBasePrice (PriceHistory.cropTypeId h)
                     (PriceHistory.quality h))%Q
            /\ (seedBasePrice (PriceHistory.cropTypeId h)
                  (PriceHistory.quality h) <= 45)%Q) as [Hb1 Hb2].
    { unfold seedBasePrice.
      assert (1 <= inject_Z (PriceHistory.cropTypeId h))%Q
        by (change 1%Q with (inject_Z 1); rewrite <- Zle_Qle; lia).
      assert (inject_Z (PriceHistory.cropTypeId h) <= 10)%Q
        by (change 10%Q with (inject_Z 10); rewrite <- Zle_Qle; lia).
      destruct (String.eqb _ "A"); [split; lra|].
      destruct (String.eqb _ "B"); split; lra. }
    split; lra.
  - intros i l q Hi Hl Hq.
    rewrite matchingHistory_length_keys, Hk. now apply seedKeys_six.
Qed.

Lemma sumPrices_bounds (a : list PriceHistory.t) (lo hi : Q) :
  (forall h, In h a -> (lo <= PriceHistory.price h <= hi)%Q) ->
  (inject_Z (Z.of_nat (length a)) * lo <= sumPrices a)%Q
  /\ (sumPrices a <= inject_Z (Z.of_nat (length a)) * hi)%Q.
Proof.
  induction a as [|x a IH]; intros H.
  - simpl. change (inject_Z 0) with 0%Q. split; lra.
  - destruct IH as [IHlo IHhi]; [intros h Hh; apply H; now right|].
    destruct (H x (or_introl eq_refl)) as [Hlo Hhi].
    cbn [length sumPrices fold_right]. fold (sumPrices a).
    rewrite Nat2Z.inj_succ, <- Z.add_1_r, inject_Z_plus.
    change (inject_Z 1) with 1%Q. split; lra.
Qed.

Lemma avgRecentPrice_bounds (a : list PriceHistory.t) (lo hi : Q) :
  a <> [] ->
  (forall h, In h a -> (lo <= PriceHistory.price h <= hi)%Q) ->
  (lo <= avgRecentPrice a <= hi)%Q.
Proof.
  intros Hne H. rewrite avgRecentPrice_mean. unfold meanPrice.
  assert (0 < inject_Z (Z.of_nat (length (recentPrices a))))%Q as Hn.
  { rewrite <- (Zlt_Qlt 0), recentPrices_length.
    destruct a; [contradiction|]. simpl. lia. }
  destruct (sumPrices_bounds (recentPrices a) lo hi) as [Hlo Hhi].
  { intros h Hh. apply H, recentPrices_incl, Hh. }
  split.
  - apply Qle_shift_div_l; [exact Hn|]. lra.
  - apply Qle_shift_div_r; [exact Hn|]. lra.
Qed.

Lemma predictionFactor_bounds (r : Q) :
  (0 <= r)%Q -> (r < 1)%Q ->
  (0.95 <= predictionFactor r)%Q /\ (predictionFactor r < 1.05)%Q.
Proof. unfold predictionFactor. intros. split; lra. Qed.

(** X10 -- On the storage the constructor leaves, with [Math.random]
    drawing from [0, 1): a prediction for one of the ten crop types at one
    of the five sample locations in one of the three qualities never takes
    the default price; it is computed from recorded prices, consumes one
    draw, and lies within 8 of [base = 15 + 2 * crop + bonus], being the
    mean of prices within 5 of the base changed by at most 5%. *)
Theorem seeded_prediction_bounds monthsBefore w0 i l q :
  randomInRange w0 ->
  1 <= i <= 10 -> In l sampleLocations -> In q sampleQualities ->
  exists w1 p,
    MemStorage_constructor monthsBefore w0 = (Normal tt, w1)
    /\ matchingHistory w1 (JsInt i) (JString l) (JString q) <> []
    /\ predictPrice (JsInt i) (JString l) (JString q) w1
       = (Normal p, afterDraw w1)
    /\ (seedBasePrice i q - 8 <= p)%Q
    /\ (p <= seedBasePrice i q + 8)%Q.
Proof.
  intros Hr Hi Hl Hq.
  destruct (MemStorage_constructor_run monthsBefore w0 Hr) as (w1 & E0 & H).
  destruct (MemStorage_constructor_records monthsBefore w0)
    as (Hk & _ & Hrnd).
  rewrite E0 in Hk, Hrnd. cbn [snd] in Hk, Hrnd.
  pose proof (matchingHistory_length_keys w1 i l q) as Hlen.
  rewrite Hk, (seedKeys_six i l q Hi Hl Hq) in Hlen.
  exists w1. rewrite predictPrice_cases.
  destruct (matchingHistory w1 (JsInt i) (JString l) (JString q))
    as [|h0 a] eqn:Em; [discriminate|].
  eexists. split; [exact E0|]. split; [discriminate|]. split; [reflexivity|].
  set (base := seedBasePrice i q).
  destruct (avgRecentPrice_bounds (h0 :: a) (base - 5) (base + 5))
    as [Hmlo Hmhi]; [discriminate| |].
  { intros h Hh. rewrite <- Em in Hh. unfold matchingHistory in Hh.
    apply filter_In in Hh. destruct Hh as [Hin Hm].
    apply matchesRequest_typed in Hm. destruct Hm as (Ec & _ & Eq).
    destruct (H h Hin) as (_ & _ & _ & Hlo & Hhi).
    rewrite Ec, Eq in Hlo, Hhi. fold base in Hlo, Hhi. split; lra. }
  destruct (Hr (draws w1)) as [Hr0 Hr1]. rewrite Hrnd in *.
  destruct (predictionFactor_bounds _ Hr0 Hr1) as [Hflo Hfhi].
  set (m := avgRecentPrice (h0 :: a)) in *.
  set (f := predictionFactor (random w0 (draws w1))) in *.
  assert (17 <= base /\ base <= 45)%Q as [Hbase Hbase'].
  { subst base. unfold seedBasePrice.
    assert (1 <= inject_Z i)%Q as H1
        by (change 1%Q with (inject_Z 1); rewrite <- Zle_Qle; lia).
    assert (inject_Z i <= 10)%Q as H10
        by (change 10%Q with (inject_Z 10); rewrite <- Zle_Qle; lia).
    destruct (String.eqb q "A"); [split; lra|].
    destruct (String.eqb q "B"); split; lra. }
  assert (0 <= m)%Q as Hm0 by lra.
  assert (0.95 * m <= f * m)%Q as H1
      by (apply Qmult_le_compat_r; [exact Hflo|exact Hm0]).
  assert (f * m <= 1.05 * m)%Q as H2
      by (apply Qmult_le_compat_r; [lra|exact Hm0]).
  rewrite (Qmult_comm m f). split; lra.
Qed.


(** ** The shape and the cost of a forecast *)

Lemma mapM_counts {A B} (f : A -> Promise B) (cost : A -> nat)
  (P : A -> B -> Prop) :
  (forall x w, exists y,
      f x w = (Normal y, mkWorld (storage w) (random w) (draws w + cost x)
                           (clock w))
      /\ P x y) ->
  forall a w, exists ys,
      mapM f a w
      = (Normal ys, mkWorld (storage w) (random w)
                      (draws w + list_sum (map cost a)) (clock w))
      /\ Forall2 P a ys.
Proof.
  intros Hf. induction a as [|x a IH]; intros w.
  - exists []. cbn. rewrite Nat.add_0_r. destruct w. now split.
  - destruct (Hf x w) as (y & E1 & P1).
    destruct (IH (mkWorld (storage w) (random w) (draws w + cost x) (clock w)))
      as (ys & E2 & P2).
    exists (y :: ys). cbn [mapM]. unfold bind. rewrite E1, E2. cbn.
    rewrite Nat.add_assoc. split; [reflexivity|now constructor].
Qed.

Lemma cropData_counts (crop : CropType.t) (w : World) :
  exists series,
    cropData crop w
    = (Normal series,
       mkWorld (storage w) (random w)
         (draws w + (if hasCurve crop then 0 else 6)) (clock w))
    /\ length series = 6%nat.
Proof.
  unfold cropData, hasCurve.
  destruct (String.eqb (CropType.name crop) "Tomato");
    [|destruct (String.eqb (CropType.name crop) "Rice");
      [|destruct (String.eqb (CropType.name crop) "Onion")]];
    cbn [orb]; try (eexists; unfold ret; rewrite Nat.add_0_r; destruct w;
                    split; reflexivity).
  destruct (mapM_counts
              (fun _ : string =>
                 r <- Math_random ;; ret (Math_floor (r * 50) + 20))
              (fun _ => 1%nat) (fun _ _ => True)) with (a := months) (w := w)
    as (series & E & L).
  { intros _ w0. eexists. split; [|exact I].
    unfold bind, Math_random, ret. cbn. now rewrite Nat.add_1_r. }
  exists series. split; [exact E|]. apply Forall2_length in L. now rewrite <- L.
Qed.

Lemma curveless_cost (a : list CropType.t) :
  list_sum (map (fun c => if hasCurve c then 0%nat else 6%nat) a)
  = (6 * length (filter (fun c => negb (hasCurve c)) a))%nat.
Proof.
  induction a as [|c a IH]; [reflexivity|].
  cbn [map list_sum fold_right filter].
  change (fold_right Nat.add 0%nat
            (map (fun c => if hasCurve c then 0%nat else 6%nat) a))
    with (list_sum (map (fun c => if hasCurve c then 0%nat else 6%nat) a)).
  rewrite IH. destruct (hasCurve c); cbn [negb length]; lia.
Qed.

(** X11 -- The forecast completes in every world, with one dataset for
    each of the first three stored crop types and none when no crop type
    is stored; every series has six points.  It leaves storage and clock
    alone and consumes six draws of [Math.random] for each reported crop
    that is not called Tomato, Rice or Onion, and none for those. *)
Theorem getForecastData_shape w :
  exists ds,
    getForecastData w
    = (Normal (mkForecastReport months ds fixedDemandGroups),
       mkWorld (storage w) (random w)
         (draws w + 6 * length (filter (fun c => negb (hasCurve c)) (topCrops w)))
         (clock w))
    /\ length ds
       = Nat.min 3 (length (map_values (MemStorage.cropTypes (storage w))))
    /\ map cropName ds = map CropType.name (topCrops w)
    /\ map cropId ds = map CropType.id (topCrops w)
    /\ Forall (fun d => length (data d) = 6%nat) ds
    /\ (map_values (MemStorage.cropTypes (storage w)) = [] -> ds = []).
Proof.
  unfold getForecastData, getCropTypes, bind, this, ret. cbn [fst snd].
  rewrite slice_from_0. fold (topCrops w).
  destruct (mapM_counts cropDataset
              (fun c => if hasCurve c then 0%nat else 6%nat)
              (fun c d => cropId d = CropType.id c
                          /\ cropName d = CropType.name c
                          /\ length (data d) = 6%nat))
    with (a := topCrops w) (w := w) as (ds & E & H).
  { intros c w0. destruct (cropData_counts c w0) as (series & Es & Ls).
    eexists. unfold cropDataset, bind. rewrite Es. split; [reflexivity|].
    now repeat split. }
  exists ds. rewrite E.
  rewrite curveless_cost.
  split; [reflexivity|].
  assert (length ds = length (topCrops w)) as Hlen
      by (symmetry; eapply Forall2_length; exact H).
  split; [rewrite Hlen; unfold topCrops; rewrite length_firstn; lia|].
  split; [|split; [|split]].
  - clear E Hlen. induction H as [|c d a ds' (_ & Hn & _) H IH];
      [reflexivity|]. cbn. now rewrite Hn, IH.
  - clear E Hlen. induction H as [|c d a ds' (Hi & _) H IH];
      [reflexivity|]. cbn. now rewrite Hi, IH.
  - clear E Hlen. induction H as [|c d a ds' (_ & _ & Hl) H IH];
      constructor; assumption.
  - intros Hnil. unfold topCrops in Hlen. rewrite Hnil in Hlen.
    destruct ds; [reflexivity|discriminate].
Qed.


(** * Properties of the routes *)

(** ** Reading an identifier *)

Lemma parseDigits_end (rest : string) (acc : option Z) :
  endsNumeral rest = true -> parseDigits 10 rest acc = acc.
Proof.
  destruct rest as [|c r]; [reflexivity|]. cbn [endsNumeral parseDigits].
  unfold isDecimalDigit. rewrite !andb_true_iff. intros [[H _] _].
  destruct (digitValue c) as [v|]; [|reflexivity].
  apply negb_true_iff in H. now rewrite H.
Qed.

Lemma parseDigits_numeral (d : Decimal.uint) (rest : string) (a : Z) :
  endsNumeral rest = true ->
  parseDigits 10 (NilEmpty.string_of_uint d ++ rest) (Some a)
  = Some (uintValue d a).
Proof.
  intros Hrest. revert a.
  induction d; intros a; cbn [NilEmpty.string_of_uint String.append uintValue];
    try (cbn [parseDigits]; change (digitValue _) with (Some 0);
         cbv iota; cbn [Z.ltb Z.compare]; apply IHd);
    try (cbn; apply IHd).
  now apply parseDigits_end.
Qed.

Lemma parseDigits_numeral_start (d : Decimal.uint) (rest : string) :
  d <> Decimal.Nil -> endsNumeral rest = true ->
  parseDigits 10 (NilEmpty.string_of_uint d ++ rest) None
  = Some (uintValue d 0).
Proof.
  intros Hd Hrest.
  destruct d; [contradiction| | | | | | | | | |];
    cbn [NilEmpty.string_of_uint String.append uintValue];
    cbn; now apply parseDigits_numeral.
Qed.

Lemma uintValue_acc (d : Decimal.uint) (acc : positive) :
  uintValue d (Z.pos acc) = Z.pos (Pos.of_uint_acc d acc).
Proof.
  revert acc. induction d; intros acc; cbn [uintValue Pos.of_uint_acc];
    [reflexivity|..];
    match goal with
    | |- uintValue _ ?x = _ =>
        match goal with
        | |- _ = Z.pos (Pos.of_uint_acc _ ?y) =>
            replace x with (Z.pos y) by lia
        end
    end; apply IHd.
Qed.

Lemma uintValue_of_uint (d : Decimal.uint) :
  uintValue d 0 = Z.of_N (Pos.of_uint d).
Proof.
  induction d; cbn [uintValue Pos.of_uint]; [reflexivity|exact IHd|..];
    cbn [Z.mul Z.add]; rewrite uintValue_acc; reflexivity.
Qed.

Lemma to_uint_nonnil (n : N) : N.to_uint n <> Decimal.Nil.
Proof.
  destruct n; [discriminate|]. apply DecimalPos.Unsigned.to_uint_nonnil.
Qed.

Lemma digitsToString_numeral (n : Z) :
  digitsToString n = NilEmpty.string_of_uint (N.to_uint (Z.to_N n)).
Proof.
  unfold digitsToString, NilZero.string_of_uint.
  pose proof (to_uint_nonnil (Z.to_N n)) as H.
  now destruct (N.to_uint (Z.to_N n)).
Qed.

Lemma parseDigits_printed (n : Z) (rest : string) :
  0 <= n -> endsNumeral rest = true ->
  parseDigits 10 (digitsToString n ++ rest) None = Some n.
Proof.
  intros Hn Hrest. rewrite digitsToString_numeral.
  rewrite parseDigits_numeral_start by (apply to_uint_nonnil || exact Hrest).
  rewrite uintValue_of_uint.
  change (Pos.of_uint (N.to_uint (Z.to_N n)))
    with (N.of_uint (N.to_uint (Z.to_N n))).
  rewrite DecimalN.Unsigned.of_to. now rewrite Z2N.id.
Qed.

Lemma trimStart_digit (c : ascii) (r : string) :
  isDecimalDigit c = true -> trimStart (String c r) = String c r.
Proof.
  intros Hc. unfold trimStart. cbn [String.length trimStart_from].
  assert (stripAny whiteSpace (String c r) = None) as ->; [|reflexivity].
  destruct c as [[] [] [] [] [] [] [] []];
    try (vm_compute in Hc; discriminate Hc); reflexivity.
Qed.

Lemma readSign_digit (c : ascii) (r : string) :
  isDecimalDigit c = true -> readSign (String c r) = (1, String c r).
Proof.
  intros Hc.
  destruct c as [[] [] [] [] [] [] [] []];
    try (vm_compute in Hc; discriminate Hc); reflexivity.
Qed.

Lemma readRadix_decimal (c : ascii) (r : string) :
  noHexMark r = true -> readRadix (String c r) = (10, String c r).
Proof.
  destruct r as [|x r]; [reflexivity|]. cbn [noHexMark readRadix].
  intros H. apply negb_true_iff in H. rewrite H.
  now rewrite andb_false_r.
Qed.

Lemma numeral_head (d : Decimal.uint) (rest : string) :
  d <> Decimal.Nil -> endsNumeral rest = true ->
  exists c r,
    (NilEmpty.string_of_uint d ++ rest)%string = String c r
    /\ isDecimalDigit c = true /\ noHexMark r = true.
Proof.
  intros Hd Hrest.
  assert (forall d', noHexMark (NilEmpty.string_of_uint d' ++ rest) = true)
    as Hmark.
  { intros d'. destruct d'; try reflexivity.
    cbn [NilEmpty.string_of_uint String.append].
    destruct rest as [|x r]; [reflexivity|]. cbn [endsNumeral] in Hrest.
    rewrite !andb_true_iff in Hrest. destruct Hrest as [[_ Hx] HX].
    cbn [noHexMark]. apply negb_true_iff in Hx, HX. now rewrite Hx, HX. }
  destruct d; [contradiction|..];
    cbn [NilEmpty.string_of_uint String.append];
    eexists _, _; (split; [reflexivity|]); (split; [reflexivity|apply Hmark]).
Qed.

Lemma parseInt_printed (n : Z) (rest : string) :
  0 <= n -> endsNumeral rest = true ->
  parseInt (digitsToString n ++ rest) = Some n.
Proof.
  intros Hn Hrest.
  pose proof (parseDigits_printed n rest Hn Hrest) as Hp.
  rewrite digitsToString_numeral in *.
  destruct (numeral_head (N.to_uint (Z.to_N n)) rest (to_uint_nonnil _) Hrest)
    as (c & r & E & Hc & Hr).
  rewrite E in *. unfold parseInt.
  rewrite (trimStart_digit c r Hc), (readSign_digit c r Hc),
    (readRadix_decimal c r Hr), Hp.
  f_equal. lia.
Qed.

Lemma getUserRoute_cases id w :
  getUserRoute id w
  = (Normal
       (match parseInt id with
        | None => Refusal 400 "Invalid user ID"
        | Some userId =>
            match map_get userId (MemStorage.users (storage w)) with
            | None => Refusal 404 "User not found"
            | Some user => Answer 200 (publicUser user)
            end
        end), w).
Proof.
  unfold getUserRoute, try_catch, getUser, bind, this, ret.
  destruct (parseInt id) as [n|]; [|reflexivity]. cbn [fst snd].
  now destruct (map_get n (MemStorage.users (storage w))).
Qed.

(** X12 -- [GET /api/users/:id] never changes the world and never
    answers 500.  It answers 400 when [parseInt] reads no number from the
    parameter, 404 when it reads one that is no stored user's key, and
    otherwise 200 with the columns of the user stored there except the
    password.  [parseInt] reads the longest numeral at the start: the
    decimal notation of a number, followed by anything that does not start
    with a digit, an x or an X, is read as that number. *)
Theorem getUserRoute_answers w id :
  (exists r, getUserRoute id w = (Normal r, w) /\ replyStatus r <> 500)
  /\ (parseInt id = None ->
      fst (getUserRoute id w) = Normal (Refusal 400 "Invalid user ID"))
  /\ (forall n,
        parseInt id = Some n -> Z.abs n <= MAX_SAFE_INTEGER ->
        (result (getUser n) w = Some None ->
         fst (getUserRoute id w) = Normal (Refusal 404 "User not found"))
        /\ (forall user,
              result (getUser n) w = Some (Some user) ->
              exists shown,
                fst (getUserRoute id w) = Normal (Answer 200 shown)
                /\ PublicUser.id shown = User.id user
                /\ PublicUser.username shown = User.username user
                /\ PublicUser.name shown = User.name user
                /\ PublicUser.location shown = User.location user
                /\ PublicUser.phoneNumber shown = User.phoneNumber user
                /\ PublicUser.role shown = User.role user))
  /\ (forall n rest,
        0 <= n <= MAX_SAFE_INTEGER -> endsNumeral rest = true ->
        parseInt (digitsToString n ++ rest) = Some n).
Proof.
  rewrite getUserRoute_cases.
  unfold result, getUser, bind, this, ret. cbn [fst snd].
  split.
  { eexists. split; [reflexivity|].
    destruct (parseInt id) as [n|]; [|discriminate].
    destruct (map_get n (MemStorage.users (storage w))); discriminate. }
  split; [now intros ->|]. split.
  - intros n -> _. split; [now intros [= ->]|].
    intros user [= ->]. exists (publicUser user). repeat split; reflexivity.
  - intros n rest [Hn _] Hrest. now apply parseInt_printed.
Qed.


(** ** One listing *)

Lemma getListingRoute_cases id w :
  getListingRoute id w
  = (Normal
       (match parseInt id with
        | None => Refusal 400 "Invalid listing ID"
        | Some k =>
            match map_get k (MemStorage.listings (storage w)) with
            | None => Refusal 404 "Listing not found"
            | Some l => Answer 200 (listingDetail (storage w) k l)
            end
        end), w).
Proof.
  unfold getListingRoute, try_catch, getListing, getCropType, getUser,
    getBidsByListingId, bind, this, ret.
  destruct (parseInt id) as [k|]; [|reflexivity]. cbn [fst snd].
  destruct (map_get k (MemStorage.listings (storage w))) as [l|];
    [|reflexivity].
  unfold listingDetail.
  destruct (map_get (Listing.cropTypeId l) _), (map_get (Listing.userId l) _);
    reflexivity.
Qed.

(** X13 -- [GET /api/listings/:id] never changes the world and never
    answers 500: 400 when [parseInt] reads no number from the parameter,
    404 when it reads one that is no stored listing's key.  For a stored
    key it answers 200 with the listing, the [id] and [name] of its crop
    type and the [id], [name] and [location] of its seller, each left out
    when the listing refers to nothing stored, and with the number of
    stored bids on that key.  In a storage with keys below the counters,
    creating a bid raises that number by one when the bid is on this
    listing and leaves the answer as it was otherwise. *)
Theorem getListingRoute_answers w id :
  (exists r, getListingRoute id w = (Normal r, w) /\ replyStatus r <> 500)
  /\ (parseInt id = None ->
      fst (getListingRoute id w) = Normal (Refusal 400 "Invalid listing ID"))
  /\ (forall k,
        parseInt id = Some k -> Z.abs k <= MAX_SAFE_INTEGER ->
        (result (getListing k) w = Some None ->
         fst (getListingRoute id w)
         = Normal (Refusal 404 "Listing not found"))
        /\ (forall l,
              result (getListing k) w = Some (Some l) ->
              exists d,
                fst (getListingRoute id w) = Normal (Answer 200 d)
                /\ ListingDetail.listing d = l
                /\ Some (ListingDetail.cropType d)
                   = option_map
                       (option_map
                          (fun c => (CropType.id c, CropType.name c)))
                       (result (getCropType (Listing.cropTypeId l)) w)
                /\ Some (ListingDetail.seller d)
                   = option_map
                       (option_map
                          (fun u =>
                             (User.id u, User.name u, User.location u)))
                       (result (getUser (Listing.userId l)) w)
                /\ Some (ListingDetail.bidCount d)
                   = option_map (fun bids => Z.of_nat (length bids))
                       (result (getBidsByListingId k) w)
                /\ (consistent (storage w) ->
                    forall bid,
                      fst (getListingRoute id (snd (createBid bid w)))
                      = Normal
                          (Answer 200
                             (ListingDetail.mk l (ListingDetail.cropType d)
                                (ListingDetail.seller d)
                                (ListingDetail.bidCount d
                                 + (if InsertBid.listingId bid =? k
                                    then 1 else 0))))))).
Proof.
  rewrite getListingRoute_cases.
  unfold result, getListing, getCropType, getUser, getBidsByListingId, bind,
    this, ret. cbn [fst snd].
  split.
  { eexists. split; [reflexivity|].
    destruct (parseInt id) as [k|]; [|discriminate].
    destruct (map_get k (MemStorage.listings (storage w))); discriminate. }
  split; [now intros ->|].
  intros k Ek _. rewrite Ek. split; [now intros [= ->]|].
  intros l [= G]. rewrite G. exists (listingDetail (storage w) k l).
  split; [reflexivity|].
  split; [reflexivity|]. split; [reflexivity|]. split; [reflexivity|].
  split; [reflexivity|].
  intros (_ & _ & _ & [Hb _] & _) bid.
  rewrite getListingRoute_cases, Ek.
  unfold createBid, bind, this, set_this, Date_now, ret.
  cbn [fst snd storage set_bids MemStorage.listings]. rewrite G.
  unfold listingDetail.
  cbn [MemStorage.cropTypes MemStorage.users MemStorage.bids
         ListingDetail.cropType ListingDetail.seller ListingDetail.bidCount].
  rewrite (map_set_fresh _ _ _ (wellKeyed_fresh _ _ Hb)).
  unfold set_bids.
  cbn [MemStorage.cropTypes MemStorage.users MemStorage.bids].
  rewrite map_values_app, filter_app, length_app, Nat2Z.inj_add.
  cbn [map_values map snd filter Bid.listingId].
  destruct (InsertBid.listingId bid =? k); reflexivity.
Qed.


(** ** Answering a barter offer *)

Lemma statusAccepted_cases status :
  negb (truthy status) || negb (includes ["accepted"; "rejected"] status)
  = false
  <-> status = JString "accepted" \/ status = JString "rejected".
Proof.
  unfold includes. cbn [existsb]. rewrite Bool.orb_false_r.
  destruct status as [| |b|n|s|r]; cbn [truthy strictEq negb];
    try (rewrite Bool.orb_true_r; split; [discriminate|intros [|]; discriminate]).
  destruct (String.eqb_spec "accepted" s) as [<-|Ha];
    [split; [now left|reflexivity]|].
  destruct (String.eqb_spec "rejected" s) as [<-|Hr];
    [split; [now right|reflexivity]|].
  cbn [orb negb]. rewrite Bool.orb_true_r.
  split; [discriminate|intros [[= E]|[= E]]; congruence].
Qed.

Lemma putBarterOfferStatusRoute_cases idParam status w :
  putBarterOfferStatusRoute idParam status w
  = match parseInt idParam with
    | None => (Normal (Refusal 400 "Invalid barter offer ID"), w)
    | Some k =>
        if negb (truthy status)
           || negb (includes ["accepted"; "rejected"] status)
        then (Normal (Refusal 400 "Invalid status"), w)
        else
          match map_get k (MemStorage.barterOffers (storage w)) with
          | None => (Normal (Refusal 404 "Barter offer not found"), w)
          | Some o =>
              (Normal (Answer 200 (withStatus o (asString status))),
               snd (updateBarterOfferStatus k (asString status) w))
          end
    end.
Proof.
  unfold putBarterOfferStatusRoute, try_catch, updateBarterOfferStatus, bind,
    this, set_this, ret.
  destruct (parseInt idParam) as [k|]; [|reflexivity].
  destruct (negb (truthy status) || _); [reflexivity|].
  cbn [fst snd].
  destruct (map_get k (MemStorage.barterOffers (storage w))); reflexivity.
Qed.

Lemma offersWellStatused_set s k o n :
  offersWellStatused s -> offerStatus (BarterOffer.status o) ->
  offersWellStatused
    (set_barterOffers s (map_set k o (MemStorage.barterOffers s)) n).
Proof.
  intros Hs Ho x Hx. unfold set_barterOffers in Hx.
  cbn [MemStorage.barterOffers] in Hx.
  apply map_set_values in Hx as [->|Hx]; [exact Ho|now apply Hs].
Qed.

(** X14 -- [PUT /api/barter-offers/:id/status], given a body object
    with the field [status] (undefined when the body has none), never
    answers 500.  It checks first the identifier, then the status, then
    the storage: 400 when the parameter holds no number; 400 when the
    status is anything but the string [accepted] or the string [rejected],
    whether or not the offer exists; 404 when no offer is stored under the
    number.  All three leave the world as it is.  Otherwise it answers 200
    with the stored offer under its new status, whatever the status was
    before, and the world is the one [updateBarterOfferStatus] leaves.  So
    a storage in which every offer is pending, accepted or rejected stays
    so under this route and under [createBarterOffer]. *)
Theorem putBarterOfferStatusRoute_answers w idParam status :
  let route := putBarterOfferStatusRoute idParam status in
  (exists r w', route w = (Normal r, w') /\ replyStatus r <> 500)
  /\ (parseInt idParam = None ->
   route w = (Normal (Refusal 400 "Invalid barter offer ID"), w))
  /\ (forall k,
        parseInt idParam = Some k -> Z.abs k <= MAX_SAFE_INTEGER ->
        (status <> JString "accepted" -> status <> JString "rejected" ->
         route w = (Normal (Refusal 400 "Invalid status"), w))
        /\ (forall s,
              status = JString s -> s = "accepted" \/ s = "rejected" ->
              (result (getBarterOffer k) w = Some None ->
               route w = (Normal (Refusal 404 "Barter offer not found"), w))
              /\ (forall o,
                    result (getBarterOffer k) w = Some (Some o) ->
                    route w
                    = (Normal (Answer 200 (withStatus o s)),
                       snd (updateBarterOfferStatus k s w))
                    /\ result (getBarterOffer k) (snd (route w))
                       = Some (Some (withStatus o s)))))
  /\ (offersWellStatused (storage w) ->
      offersWellStatused (storage (snd (route w)))
      /\ forall offer,
           offersWellStatused (storage (snd (createBarterOffer offer w)))).
Proof.
  intros route. subst route. rewrite putBarterOfferStatusRoute_cases.
  split.
  { destruct (parseInt idParam) as [k|];
      [|eexists _, _; split; [reflexivity|discriminate]].
    destruct (negb (truthy status) || _);
      [eexists _, _; split; [reflexivity|discriminate]|].
    destruct (map_get k (MemStorage.barterOffers (storage w)));
      eexists _, _; (split; [reflexivity|discriminate]). }
  split; [now intros ->|]. split.
  - intros k -> _. split.
    + intros Ha Hr.
      destruct (negb (truthy status) || _) eqn:E; [reflexivity|].
      apply statusAccepted_cases in E. tauto.
    + intros s -> Hs.
      assert (E : negb (truthy (JString s))
                  || negb (includes ["accepted"; "rejected"] (JString s))
                  = false)
        by (apply statusAccepted_cases; destruct Hs as [->| ->]; tauto).
      rewrite E. unfold result, getBarterOffer, bind, this, ret.
      cbn [fst snd asString].
      split; [now intros [= ->]|].
      intros o [= G]. rewrite G. split; [reflexivity|].
      unfold updateBarterOfferStatus, bind, this, set_this, ret.
      cbn [fst snd storage]. rewrite G. cbn [fst snd storage].
      unfold set_barterOffers. cbn [MemStorage.barterOffers].
      now rewrite map_get_set_same.
  - intros Hs. split.
    + destruct (parseInt idParam) as [k|]; [|exact Hs].
      destruct (negb (truthy status) || _) eqn:E; [exact Hs|].
      apply statusAccepted_cases in E.
      destruct (map_get k (MemStorage.barterOffers (storage w))) as [o|] eqn:G;
        [|exact Hs].
      unfold updateBarterOfferStatus, bind, this, set_this, ret.
      cbn [fst snd storage]. rewrite G. cbn [fst snd storage].
      apply offersWellStatused_set; [exact Hs|].
      cbn [BarterOffer.status]. unfold offerStatus.
      destruct E as [-> | ->]; cbn [asString]; tauto.
    + intros offer.
      unfold createBarterOffer, bind, this, set_this, Date_now, ret.
      cbn [fst snd storage].
      apply offersWellStatused_set; [exact Hs|].
      cbn [BarterOffer.status]. unfold offerStatus. tauto.
Qed.


(** ** The lists of listings and bids *)

Lemma Map_of_snoc {V} (es : list (Z * V)) (e : Z * V) :
  Map_of (es ++ [e]) = map_set (fst e) (snd e) (Map_of es).
Proof. unfold Map_of. now rewrite fold_left_app. Qed.

Lemma map_get_set {V} (j k : Z) (v : V) (m : JsMap V) :
  map_get j (map_set k v m) = if j =? k then Some v else map_get j m.
Proof.
  destruct (Z.eqb_spec j k) as [->|H];
    [apply map_get_set_same|now apply map_get_set_other].
Qed.

(** The last entry of a key is the one a [Map] made of entries holds. *)
Lemma Map_of_get_rev {V} (k : Z) (es : list (Z * V)) :
  map_get k (Map_of es) = map_get k (rev es).
Proof.
  induction es as [|[k' v] es IH] using rev_ind; [reflexivity|].
  rewrite Map_of_snoc, map_get_set, rev_app_distr. cbn [fst snd rev app map_get].
  now rewrite IH.
Qed.

Lemma map_get_of_in {V} (k : Z) (v : V) (m : JsMap V) :
  NoDup (keys m) -> In (k, v) m -> map_get k m = Some v.
Proof.
  induction m as [|[k' v'] m IH]; [intros _ []|].
  unfold keys. cbn [map fst map_get]. intros Hnd [[= -> ->]|Hin].
  - now rewrite Z.eqb_refl.
  - inversion Hnd as [|? ? Hk Hm]; subst.
    destruct (Z.eqb_spec k k') as [->|_]; [|now apply IH].
    exfalso. apply Hk. change k' with (fst (k', v)). now apply in_map.
Qed.

(** Entries that all agree with [g], and cover the key, make a [Map] that
    answers as [g] does. *)
Lemma Map_of_get {V} (g : Z -> option V) (es : list (Z * V)) (k : Z) :
  (forall k' v, In (k', v) es -> g k' = Some v) ->
  (forall v, g k = Some v -> In k (keys es)) ->
  map_get k (Map_of es) = g k.
Proof.
  intros Hes Hk. rewrite Map_of_get_rev.
  destruct (map_get k (rev es)) as [v|] eqn:E.
  - apply map_get_in, in_rev in E. symmetry. now apply Hes.
  - apply map_get_none in E. destruct (g k) as [v|] eqn:G; [|reflexivity].
    exfalso. apply E. unfold keys. rewrite map_rev. apply -> in_rev.
    exact (Hk v eq_refl).
Qed.

Lemma Set_values_in (a : list Z) (x : Z) : In x (Set_values a) <-> In x a.
Proof.
  unfold Set_values.
  enough (H : forall seen,
             In x (fold_left
                     (fun seen x =>
                        if existsb (Z.eqb x) seen then seen else seen ++ [x])
                     a seen)
             <-> In x seen \/ In x a)
    by (rewrite H; cbn [In]; tauto).
  induction a as [|y a IH]; intros seen; cbn [fold_left In]; [tauto|].
  rewrite IH. destruct (existsb (Z.eqb y) seen) eqn:E.
  - apply existsb_exists in E as (z & Hz & Ez). apply Z.eqb_eq in Ez. subst z.
    split; [tauto|]. intros [H|[<-|H]]; tauto.
  - rewrite in_app_iff. cbn [In]. tauto.
Qed.

(** A callback that only reads gives [Promise.all] the list of what it
    reads. *)
Lemma mapM_reads {A B} (f : A -> Promise B) (g : A -> B) (w : World) :
  (forall x, f x w = (Normal (g x), w)) ->
  forall a, mapM f a w = (Normal (map g a), w).
Proof.
  intros Hf. induction a as [|x a IH]; [reflexivity|].
  cbn [mapM map]. unfold bind. now rewrite Hf, IH.
Qed.

Lemma cropTypeMap_get (m : JsMap CropType.t) (k : Z) :
  NoDup (keys m) -> indexed CropType.id m ->
  map_get k (Map_of (map (fun ct => (CropType.id ct, ct)) (map_values m)))
  = map_get k m.
Proof.
  intros Hnd Hidx. apply (Map_of_get (fun i => map_get i m)).
  - intros k' v Hin. apply in_map_iff in Hin as (ct & [= <- <-] & Hct).
    apply in_map_iff in Hct as ([j ct'] & E & Hin). cbn [snd] in E. subst ct'.
    rewrite (Hidx _ _ Hin). now apply map_get_of_in.
  - intros v G. apply map_get_in in G. unfold keys. rewrite map_map.
    apply in_map_iff. exists v. split; [exact (Hidx _ _ G)|].
    unfold map_values. change v with (snd (k, v)). now apply in_map.
Qed.

Lemma userMap_get (users : JsMap User.t) (ids : list Z) (uid : Z) :
  indexed User.id users -> In uid ids ->
  map_get uid
    (Map_of (map (fun u => (User.id u, u))
               (filter_Boolean (map (fun id => map_get id users) ids))))
  = map_get uid users.
Proof.
  intros Hidx Hin. apply (Map_of_get (fun i => map_get i users)).
  - intros k' v H. apply in_map_iff in H as (u & [= <- <-] & Hu).
    unfold filter_Boolean in Hu. apply in_flat_map in Hu as (x & Hx & Hu).
    destruct x as [u'|]; [|destruct Hu]. destruct Hu as [->|[]].
    apply in_map_iff in Hx as (i & G & _).
    now rewrite (Hidx _ _ (map_get_in _ _ _ G)).
  - intros v G. unfold keys. rewrite map_map. apply in_map_iff. exists v.
    split; [exact (Hidx _ _ (map_get_in _ _ _ G))|].
    unfold filter_Boolean. apply in_flat_map. exists (Some v).
    split; [|now left]. apply in_map_iff. now exists uid.
Qed.

Lemma combine_map_self {A B} (h : A -> B) (a : list A) :
  combine a (map h a) = map (fun x => (x, h x)) a.
Proof. induction a as [|x a IH]; [reflexivity|]. cbn. now rewrite IH. Qed.

Lemma bidCountMap_get (s : MemStorage.t) (ids : list Z) (k : Z) :
  In k ids ->
  orZero
    (map_get k
       (bidCountMap_of ids
          (map (fun i =>
                  filter (fun bid => Bid.listingId bid =? i)
                    (map_values (MemStorage.bids s)))
             ids)))
  = bidsOn s k.
Proof.
  intros Hin. unfold bidCountMap_of. rewrite combine_map_self, map_map.
  cbn [fst snd].
  rewrite (Map_of_get (fun i => Some (bidsOn s i))); [reflexivity| |].
  - intros k' v H. now apply in_map_iff in H as (i & [= <- <-] & _).
  - intros _ _. unfold keys. rewrite map_map. cbn [fst]. now rewrite map_id.
Qed.

Lemma getListingsRoute_run w :
  consistent (storage w) ->
  getListingsRoute w
  = (Normal
       (Answer 200
          (map (fun l => listingDetail (storage w) (Listing.id l) l)
             (map_values (MemStorage.listings (storage w))))), w).
Proof.
  intros ([_ Hu] & [[Hc _] Hci] & _).
  unfold getListingsRoute, try_catch, getListings, getCropTypes, bind, this,
    ret.
  cbn [fst snd].
  rewrite (mapM_reads getUser
             (fun id => map_get id (MemStorage.users (storage w))) w)
    by reflexivity.
  rewrite (mapM_reads getBidsByListingId
             (fun i =>
                filter (fun bid => Bid.listingId bid =? i)
                  (map_values (MemStorage.bids (storage w)))) w)
    by reflexivity.
  do 3 f_equal. apply map_ext_in. intros l Hl.
  rewrite (cropTypeMap_get _ _ Hc Hci).
  rewrite (userMap_get _ _ _ Hu)
    by (apply Set_values_in; now apply in_map).
  rewrite bidCountMap_get by now apply in_map.
  unfold listingDetail, bidsOn, cropTypeSummary, userSummary.
  destruct (map_get (Listing.cropTypeId l) _), (map_get (Listing.userId l) _);
    reflexivity.
Qed.

(** X15 -- In a storage with keys below the counters and users and crop
    types stored under their own identifiers, [GET /api/listings] answers
    200 without changing the world, with one entry for each stored listing
    in storage order: the listing, the [id] and [name] of the crop type
    stored under its [cropTypeId], the [id], [name] and [location] of the
    user stored under its [userId] (each left out when nothing is stored
    there) and the number of stored bids whose [listingId] is the listing's
    [id].  So a listing stored under its own [id] is shown in the list as
    [GET /api/listings/:id] shows it. *)
Theorem getListingsRoute_answers w :
  consistent (storage w) ->
  getListingsRoute w
  = (Normal
       (Answer 200
          (map (fun l =>
                  ListingDetail.mk l
                    (cropTypeSummary
                       (map_get (Listing.cropTypeId l)
                          (MemStorage.cropTypes (storage w))))
                    (userSummary
                       (map_get (Listing.userId l)
                          (MemStorage.users (storage w))))
                    (bidsOn (storage w) (Listing.id l)))
             (map_values (MemStorage.listings (storage w))))), w)
  /\ forall id k l,
       parseInt id = Some k -> Z.abs k <= MAX_SAFE_INTEGER ->
       result (getListing k) w = Some (Some l) -> Listing.id l = k ->
       exists d ds,
         getListingRoute id w = (Normal (Answer 200 d), w)
         /\ getListingsRoute w = (Normal (Answer 200 ds), w)
         /\ In d ds.
Proof.
  intros Hw. rewrite (getListingsRoute_run w Hw). split.
  - reflexivity.
  - intros id k l Ek _ G Hid.
    unfold result, getListing, bind, this, ret in G. cbn [fst snd] in G.
    injection G as G.
    exists (listingDetail (storage w) k l). eexists.
    rewrite getListingRoute_cases, Ek, G.
    split; [reflexivity|]. split; [reflexivity|].
    apply in_map_iff. exists l. split; [now rewrite Hid|].
    unfold map_values. change l with (snd (k, l)).
    apply in_map. now apply map_get_in.
Qed.

Lemma getUserListingsRoute_cases id w :
  consistent (storage w) ->
  getUserListingsRoute id w
  = (Normal
       (match parseInt id with
        | None => Refusal 400 "Invalid user ID"
        | Some k =>
            match map_get k (MemStorage.users (storage w)) with
            | None => Refusal 404 "User not found"
            | Some _ =>
                Answer 200
                  (map (listedOfUser (storage w))
                     (filter (fun l => Listing.userId l =? k)
                        (map_values (MemStorage.listings (storage w)))))
            end
        end), w).
Proof.
  intros (_ & [[Hc _] Hci] & _).
  unfold getUserListingsRoute, try_catch, getUser, getListingsByUserId,
    getCropTypes, bind, this, ret.
  destruct (parseInt id) as [k|]; [|reflexivity]. cbn [fst snd].
  destruct (map_get k (MemStorage.users (storage w))); [|reflexivity].
  rewrite (mapM_reads getBidsByListingId
             (fun i =>
                filter (fun bid => Bid.listingId bid =? i)
                  (map_values (MemStorage.bids (storage w)))) w)
    by reflexivity.
  do 3 f_equal. apply map_ext_in. intros l Hl.
  rewrite (cropTypeMap_get _ _ Hc Hci).
  rewrite bidCountMap_get by now apply in_map.
  reflexivity.
Qed.

Lemma filter_map_swap {A B} (f : A -> B) (p : B -> bool) (a : list A) :
  filter p (map f a) = map f (filter (fun x => p (f x)) a).
Proof.
  induction a as [|x a IH]; [reflexivity|]. cbn [map filter].
  destruct (p (f x)); cbn [map]; now rewrite IH.
Qed.

(** X16 -- In such a storage [GET /api/users/:userId/listings] never
    changes the world and never answers 500: 400 when [parseInt] reads no
    number from the parameter, 404 when no user is stored under the
    number, and otherwise 200, also for a user without listings, with the
    listings whose [userId] is the number, in storage order, each with the
    [id] and [name] of its crop type and the number of bids on its [id].
    These are the entries [GET /api/listings] shows for that seller,
    without the seller. *)
Theorem getUserListingsRoute_answers w id :
  consistent (storage w) ->
  (exists r, getUserListingsRoute id w = (Normal r, w)
             /\ replyStatus r <> 500)
  /\ (parseInt id = None ->
      fst (getUserListingsRoute id w) = Normal (Refusal 400 "Invalid user ID"))
  /\ (forall k,
        parseInt id = Some k -> Z.abs k <= MAX_SAFE_INTEGER ->
        (result (getUser k) w = Some None ->
         fst (getUserListingsRoute id w)
         = Normal (Refusal 404 "User not found"))
        /\ (forall user,
              result (getUser k) w = Some (Some user) ->
              fst (getUserListingsRoute id w)
              = Normal
                  (Answer 200
                     (map (listedOfUser (storage w))
                        (filter (fun l => Listing.userId l =? k)
                           (map_values (MemStorage.listings (storage w))))))
              /\ exists ds,
                   getListingsRoute w = (Normal (Answer 200 ds), w)
                   /\ fst (getUserListingsRoute id w)
                      = Normal
                          (Answer 200
                             (map (fun d =>
                                     UserListing.mk (ListingDetail.listing d)
                                       (ListingDetail.cropType d)
                                       (ListingDetail.bidCount d))
                                (filter
                                   (fun d =>
                                      Listing.userId (ListingDetail.listing d)
                                      =? k)
                                   ds))))).
Proof.
  intros Hw. rewrite (getUserListingsRoute_cases _ w Hw).
  unfold result, getUser, bind, this, ret. cbn [fst snd].
  split.
  { eexists. split; [reflexivity|].
    destruct (parseInt id) as [k|]; [|discriminate].
    destruct (map_get k (MemStorage.users (storage w))); discriminate. }
  split; [now intros ->|].
  intros k -> _. split; [now intros [= ->]|].
  intros user [= ->]. split; [reflexivity|].
  eexists. split; [exact (getListingsRoute_run w Hw)|].
  rewrite filter_map_swap, map_map. reflexivity.
Qed.

Lemma getListingBidsRoute_cases id w :
  consistent (storage w) ->
  getListingBidsRoute id w
  = (Normal
       (match parseInt id with
        | None => Refusal 400 "Invalid listing ID"
        | Some k =>
            match map_get k (MemStorage.listings (storage w)) with
            | None => Refusal 404 "Listing not found"
            | Some _ =>
                Answer 200
                  (map (listedBid (storage w))
                     (filter (fun bid => Bid.listingId bid =? k)
                        (map_values (MemStorage.bids (storage w)))))
            end
        end), w).
Proof.
  intros ([_ Hu] & _).
  unfold getListingBidsRoute, try_catch, getListing, getBidsByListingId,
    bind, this, ret.
  destruct (parseInt id) as [k|]; [|reflexivity]. cbn [fst snd].
  destruct (map_get k (MemStorage.listings (storage w))); [|reflexivity].
  rewrite (mapM_reads getUser
             (fun id => map_get id (MemStorage.users (storage w))) w)
    by reflexivity.
  do 3 f_equal. apply map_ext_in. intros b Hb.
  rewrite (userMap_get _ _ _ Hu)
    by (apply Set_values_in; now apply in_map).
  reflexivity.
Qed.

(** X17 -- In such a storage [GET /api/listings/:listingId/bids] never
    changes the world and never answers 500: 400 when [parseInt] reads no
    number from the parameter, 404 when no listing is stored under the
    number, and otherwise 200 with the bids whose [listingId] is the
    number, in storage order, each with the [id], [name] and [location] of
    the user stored under its [userId], left out when there is none.
    There are as many of them as the [bidCount] that
    [GET /api/listings/:id] reports for the same parameter. *)
Theorem getListingBidsRoute_answers w id :
  consistent (storage w) ->
  (exists r, getListingBidsRoute id w = (Normal r, w)
             /\ replyStatus r <> 500)
  /\ (parseInt id = None ->
      fst (getListingBidsRoute id w)
      = Normal (Refusal 400 "Invalid listing ID"))
  /\ (forall k,
        parseInt id = Some k -> Z.abs k <= MAX_SAFE_INTEGER ->
        (result (getListing k) w = Some None ->
         fst (getListingBidsRoute id w)
         = Normal (Refusal 404 "Listing not found"))
        /\ (forall l,
              result (getListing k) w = Some (Some l) ->
              exists bids d,
                fst (getListingBidsRoute id w) = Normal (Answer 200 bids)
                /\ Some (map BidDetail.bid bids)
                   = result (getBidsByListingId k) w
                /\ (forall b,
                      In b bids ->
                      Some (BidDetail.user b)
                      = option_map userSummary
                          (result (getUser (Bid.userId (BidDetail.bid b))) w))
                /\ fst (getListingRoute id w) = Normal (Answer 200 d)
                /\ ListingDetail.bidCount d = Z.of_nat (length bids))).
Proof.
  intros Hw.
  rewrite (getListingBidsRoute_cases _ w Hw), getListingRoute_cases.
  unfold result, getListing, getUser, getBidsByListingId, bind, this, ret.
  cbn [fst snd].
  split.
  { eexists. split; [reflexivity|].
    destruct (parseInt id) as [k|]; [|discriminate].
    destruct (map_get k (MemStorage.listings (storage w))); discriminate. }
  split; [now intros ->|].
  intros k -> _. split; [now intros [= ->]|].
  intros l [= ->]. eexists. eexists. split; [reflexivity|].
  split; [|split; [|split; [reflexivity|]]].
  - rewrite map_map. cbn [listedBid BidDetail.bid]. now rewrite map_id.
  - intros b Hb. apply in_map_iff in Hb as (bid & <- & _). reflexivity.
  - unfold listingDetail. cbn [ListingDetail.bidCount].
    now rewrite length_map.
Qed.


(** ** Recording a price, then predicting *)

Lemma createPriceHistory_run data w :
  createPriceHistory data w
  = (Normal (recorded data w),
     mkWorld (storage (snd (createPriceHistory data w))) (random w) (draws w)
       (clock w)).
Proof.
  unfold createPriceHistory, recorded, bind, this, set_this, Date_now, ret.
  cbn [fst snd storage].
  destruct (InsertPriceHistory.recordedDate data); reflexivity.
Qed.

Lemma createPriceHistory_values data w :
  consistent (storage w) ->
  map_values (MemStorage.priceHistory (storage (snd (createPriceHistory data w))))
  = map_values (MemStorage.priceHistory (storage w)) ++ [recorded data w].
Proof.
  intros (_ & _ & _ & _ & _ & [Hp _]).
  unfold createPriceHistory, recorded, bind, this, set_this, Date_now, ret.
  cbn [fst snd storage].
  destruct (InsertPriceHistory.recordedDate data); cbn [fst snd storage];
    cbn [MemStorage.priceHistory];
    rewrite (map_set_fresh _ _ _ (wellKeyed_fresh _ _ Hp)), map_values_app;
    reflexivity.
Qed.

Lemma binary64_avgRecentPrice_single (h : PriceHistory.t) :
  Binary64.avgRecentPrice [h] = Binary64.mean [Binary64.price h].
Proof. apply binary64_avgRecentPrice_mean. Qed.

(** X18 -- In a storage with keys below the counters, [createPriceHistory]
    returns a record with the next identifier and the given columns, dated
    as given or, without a date, by the clock; it draws nothing and leaves
    the clock.  The record joins the history of its own crop type,
    location and quality, after the records already there, and of no other
    request: a prediction for another request returns what it returned
    before.  Where no record matched before, the prediction was the
    default price and is now computed from the recorded price alone: its
    mean, which binary64 arithmetic forms as [(0 + price) / 1], times the
    random factor, for one draw. *)
Theorem createPriceHistory_then_predict w data :
  consistent (storage w) ->
  let w' := snd (createPriceHistory data w) in
  createPriceHistory data w = (Normal (recorded data w), w')
  /\ random w' = random w /\ draws w' = draws w /\ clock w' = clock w
  /\ forall cropTypeId location quality,
       (matchesRequest cropTypeId location quality (recorded data w) = false ->
        matchingHistory w' cropTypeId location quality
        = matchingHistory w cropTypeId location quality
        /\ fst (predictPrice cropTypeId location quality w')
           = fst (predictPrice cropTypeId location quality w))
       /\ (matchesRequest cropTypeId location quality (recorded data w) = true ->
           matchingHistory w' cropTypeId location quality
           = matchingHistory w cropTypeId location quality ++ [recorded data w]
           /\ (matchingHistory w cropTypeId location quality = [] ->
               Binary64.predictPrice cropTypeId location quality w
               = (Normal (Binary64.defaultPrice quality), w)
               /\ Binary64.predictPrice cropTypeId location quality w'
                  = (Normal
                       (Binary64.mean
                          [Binary64.ofQ (InsertPriceHistory.price data)]
                        * Binary64.predictionFactor (Binary64.nextDraw w))%float,
                     afterDraw w'))).
Proof.
  intros Hw w'. pose proof (createPriceHistory_run data w) as E.
  assert (Ew : w' = mkWorld (storage w') (random w) (draws w) (clock w))
    by (subst w'; rewrite E at 1; reflexivity).
  split; [rewrite E at 1; f_equal; symmetry; exact Ew|].
  split; [now rewrite Ew|]. split; [now rewrite Ew|]. split; [now rewrite Ew|].
  intros c l q.
  assert (M : matchingHistory w' c l q
              = matchingHistory w c l q
                  ++ (if matchesRequest c l q (recorded data w)
                      then [recorded data w] else [])).
  { unfold matchingHistory. subst w'.
    rewrite (createPriceHistory_values data w Hw), filter_app.
    reflexivity. }
  split.
  - intros N. rewrite N, app_nil_r in M. split; [exact M|].
    rewrite !predictPrice_cases, M.
    destruct (matchingHistory w c l q); [reflexivity|].
    cbn [fst]. now rewrite Ew.
  - intros Y. rewrite Y in M. split; [exact M|].
    intros N. rewrite binary64_predictPrice_cases, N. split; [reflexivity|].
    rewrite binary64_predictPrice_cases, M, N. cbn [app].
    rewrite binary64_avgRecentPrice_single.
    assert (Binary64.nextDraw w' = Binary64.nextDraw w) as ->
        by (unfold Binary64.nextDraw; now rewrite Ew).
    assert (Binary64.price (recorded data w)
            = Binary64.ofQ (InsertPriceHistory.price data)) as ->
        by (unfold Binary64.price, recorded;
            destruct (InsertPriceHistory.recordedDate data); reflexivity).
    reflexivity.
Qed.


(** ** The properties on the sample market *)

Lemma serverWorld_consistent : consistent (storage serverWorld).
Proof.
  destruct (MemStorage_constructor_consistent sampleMonthsBefore freshWorld)
    as (w1 & E1 & H1).
  unfold serverWorld. rewrite E1. exact H1.
Qed.

Lemma marketWorld_consistent : consistent (storage marketWorld).
Proof.
  destruct (calls_consistent marketCalls serverWorld serverWorld_consistent)
    as (w2 & E2 & H2).
  unfold marketWorld. rewrite E2. exact H2.
Qed.

Lemma getUserByUsername_earliest_witness :
  (forall k, In k (keys (MemStorage.users (storage marketWorld))) ->
             k < MemStorage.userId (storage marketWorld))
  /\ forall u,
       result (getUserByUsername "buyer1") marketWorld = Some (Some u) ->
       result (getUserByUsername "buyer1")
         (snd (createUser
                 (InsertUser.mk "buyer1" "secret" "Another Buyer" "Pune"
                    "+911234567899" "buyer")
                 marketWorld))
       = Some (Some u).
Proof.
  pose proof (proj2 (proj1 (proj1 marketWorld_consistent))) as H.
  split; [exact H|].
  exact (proj1 (proj2 (proj2
           (getUserByUsername_earliest marketWorld "buyer1"
              (InsertUser.mk "buyer1" "secret" "Another Buyer" "Pune"
                 "+911234567899" "buyer") H)))).
Defined.

Lemma creations_append_witness :
  consistent (storage marketWorld)
  /\ forall name,
       exists c,
         result (createCropType name) marketWorld = Some c
         /\ result getCropTypes (snd (createCropType name marketWorld))
            = option_map (fun a => a ++ [c]) (result getCropTypes marketWorld).
Proof.
  split; [exact marketWorld_consistent|].
  exact (proj1 (proj2 (proj2 (proj2
           (creations_append marketWorld marketWorld_consistent))))).
Defined.

Lemma MemStorage_constructor_prices_witness :
  randomInRange freshWorld
  /\ exists w1,
       MemStorage_constructor sampleMonthsBefore freshWorld = (Normal tt, w1)
       /\ length (map_values (MemStorage.priceHistory (storage w1))) = 900%nat
       /\ forall h,
            In h (map_values (MemStorage.priceHistory (storage w1))) ->
            (12 <= PriceHistory.price h)%Q /\ (PriceHistory.price h <= 50)%Q.
Proof.
  split; [exact sampleRandom_range|].
  destruct (MemStorage_constructor_prices sampleMonthsBefore freshWorld
              sampleRandom_range) as (w1 & E & _ & L & P & _).
  exists w1. split; [exact E|]. split; [exact L|].
  intros h Hh. exact (proj2 (P h Hh)).
Defined.

Lemma seeded_prediction_bounds_witness :
  randomInRange freshWorld
  /\ 1 <= 3 <= 10 /\ In "Nagpur" sampleLocations /\ In "B" sampleQualities
  /\ exists w1 p,
       MemStorage_constructor sampleMonthsBefore freshWorld = (Normal tt, w1)
       /\ matchingHistory w1 (JsInt 3) (JString "Nagpur") (JString "B") <> []
       /\ predictPrice (JsInt 3) (JString "Nagpur") (JString "B") w1
          = (Normal p, afterDraw w1)
       /\ (seedBasePrice 3 "B" - 8 <= p)%Q
       /\ (p <= seedBasePrice 3 "B" + 8)%Q.
Proof.
  assert (1 <= 3 <= 10) as H2 by lia.
  assert (In "Nagpur" sampleLocations) as H3
      by (right; right; left; reflexivity).
  assert (In "B" sampleQualities) as H4 by (right; left; reflexivity).
  split; [exact sampleRandom_range|]. split; [exact H2|].
  split; [exact H3|]. split; [exact H4|].
  exact (seeded_prediction_bounds sampleMonthsBefore freshWorld 3 "Nagpur" "B"
           sampleRandom_range H2 H3 H4).
Defined.


Lemma createPriceHistory_then_predict_witness :
  consistent (storage serverWorld)
  /\ matchingHistory serverWorld (JsInt 1) (JString "Delhi") (JString "A") = []
  /\ Binary64.predictPrice (JsInt 1) (JString "Delhi") (JString "A")
       (snd (createPriceHistory
               (InsertPriceHistory.mk 1 "Delhi" 23 "A" None) serverWorld))
     = (Normal (Binary64.mean [Binary64.ofQ 23]
                * Binary64.predictionFactor (Binary64.nextDraw serverWorld))%float,
        afterDraw
          (snd (createPriceHistory
                  (InsertPriceHistory.mk 1 "Delhi" 23 "A" None)
                  serverWorld)))
  /\ (Binary64.mean [Binary64.ofQ 23]
      * Binary64.predictionFactor (Binary64.nextDraw serverWorld))%float
     = 21.849999999999998%float.
Proof.
  assert (matchesRequest (JsInt 1) (JString "Delhi") (JString "A")
            (recorded (InsertPriceHistory.mk 1 "Delhi" 23 "A" None)
               serverWorld) = true) as Y by (vm_compute; reflexivity).
  assert (matchingHistory serverWorld (JsInt 1) (JString "Delhi")
            (JString "A") = []) as N by (vm_compute; reflexivity).
  split; [exact serverWorld_consistent|]. split; [exact N|].
  destruct (createPriceHistory_then_predict serverWorld
              (InsertPriceHistory.mk 1 "Delhi" 23 "A" None)
              serverWorld_consistent) as (_ & _ & _ & _ & A).
  destruct (A (JsInt 1) (JString "Delhi") (JString "A")) as [_ B].
  destruct (B Y) as [_ C]. destruct (C N) as [_ D].
  split; [exact D|]. vm_compute. reflexivity.
Defined.

Lemma updateListing_in_place_witness :
  let u :=
    PartialListing.mk None None None None (Some 45%Q) None None None None
      None in
  let l :=
    Listing.mk 1 1 1 100 42 "A" "Premium Basmati Rice" "Nashik" true
      1700000000000 in
  result (getListing 1) marketWorld = Some (Some l)
  /\ result (getListing 1) (snd (updateListing 1 u marketWorld))
     = Some (Some (mergeListing l u))
  /\ Listing.id (mergeListing l u) = 1.
Proof.
  cbv zeta.
  assert (result (getListing 1) marketWorld
          = Some (Some (Listing.mk 1 1 1 100 42 "A" "Premium Basmati Rice"
                          "Nashik" true 1700000000000))) as G
      by (vm_compute; reflexivity).
  split; [exact G|].
  destruct (proj2 (updateListing_in_place marketWorld 1
                     (PartialListing.mk None None None None (Some 45%Q) None
                        None None None None)) _ G)
    as (_ & E & _ & _ & _ & I & _).
  split; [exact E|exact (I eq_refl)].
Defined.

Lemma updateStatus_in_place_witness :
  let o := BarterOffer.mk 1 1 2 1700000000000 "pending" in
  result (getBarterOffer 1) marketWorld = Some (Some o)
  /\ result (getBarterOffer 1)
       (snd (updateBarterOfferStatus 1 "accepted" marketWorld))
     = Some (Some (BarterOffer.mk 1 1 2 1700000000000 "accepted")).
Proof.
  cbv zeta.
  assert (result (getBarterOffer 1) marketWorld
          = Some (Some (BarterOffer.mk 1 1 2 1700000000000 "pending"))) as G
      by (vm_compute; reflexivity).
  split; [exact G|].
  destruct (proj2 (proj2 (proj2
              (updateStatus_in_place marketWorld 1 "accepted"))) _ G)
    as (_ & E & _).
  exact E.
Defined.

Lemma putBarterOfferStatusRoute_answers_witness :
  let o := BarterOffer.mk 1 1 2 1700000000000 "pending" in
  parseInt "1" = Some 1 /\ Z.abs 1 <= MAX_SAFE_INTEGER
  /\ result (getBarterOffer 1) marketWorld = Some (Some o)
  /\ offersWellStatused (storage marketWorld)
  /\ putBarterOfferStatusRoute "1" (JString "rejected") marketWorld
     = (Normal (Answer 200 (withStatus o "rejected")),
        snd (updateBarterOfferStatus 1 "rejected" marketWorld))
  /\ offersWellStatused
       (storage
          (snd (putBarterOfferStatusRoute "1" (JString "rejected")
                  marketWorld))).
Proof.
  cbv zeta.
  assert (parseInt "1" = Some 1) as P by reflexivity.
  assert (Z.abs 1 <= MAX_SAFE_INTEGER) as B
      by (unfold MAX_SAFE_INTEGER; cbn; lia).
  assert (result (getBarterOffer 1) marketWorld
          = Some (Some (BarterOffer.mk 1 1 2 1700000000000 "pending"))) as G
      by (vm_compute; reflexivity).
  assert (offersWellStatused (storage marketWorld)) as S.
  { assert (map_values (MemStorage.barterOffers (storage marketWorld))
            = [BarterOffer.mk 1 1 2 1700000000000 "pending"]) as V
        by (vm_compute; reflexivity).
    intros o Ho. rewrite V in Ho. destruct Ho as [<-|[]]. now left. }
  split; [exact P|]. split; [exact B|]. split; [exact G|]. split; [exact S|].
  destruct (putBarterOfferStatusRoute_answers marketWorld "1"
              (JString "rejected")) as (_ & _ & A & I).
  split.
  - destruct (A 1 P B) as [_ A2].
    destruct (A2 "rejected" eq_refl (or_intror eq_refl)) as [_ A3].
    exact (proj1 (A3 _ G)).
  - exact (proj1 (I S)).
Defined.

Lemma getUserRoute_answers_witness :
  parseInt " 4!" = Some 4 /\ Z.abs 4 <= MAX_SAFE_INTEGER
  /\ result (getUser 4) marketWorld
     = Some (Some (User.mk 4 "buyer1" "password" "Mohan Patel" "Mumbai"
                     "+911234567893" "buyer"))
  /\ exists shown,
       fst (getUserRoute " 4!" marketWorld) = Normal (Answer 200 shown)
       /\ PublicUser.username shown = "buyer1".
Proof.
  assert (parseInt " 4!" = Some 4) as P by reflexivity.
  assert (Z.abs 4 <= MAX_SAFE_INTEGER) as B
      by (unfold MAX_SAFE_INTEGER; cbn; lia).
  assert (result (getUser 4) marketWorld
          = Some (Some (User.mk 4 "buyer1" "password" "Mohan Patel" "Mumbai"
                          "+911234567893" "buyer"))) as G
      by (vm_compute; reflexivity).
  split; [exact P|]. split; [exact B|]. split; [exact G|].
  destruct (getUserRoute_answers marketWorld " 4!") as (_ & _ & A & _).
  destruct (proj2 (A 4 P B) _ G) as (shown & E & _ & U & _).
  exists shown. split; [exact E|exact U].
Defined.

Lemma getListingRoute_answers_witness :
  parseInt "1abc" = Some 1 /\ Z.abs 1 <= MAX_SAFE_INTEGER
  /\ consistent (storage marketWorld)
  /\ exists d,
       fst (getListingRoute "1abc" marketWorld) = Normal (Answer 200 d)
       /\ ListingDetail.bidCount d = 2
       /\ fst (getListingRoute "1abc"
                 (snd (createBid (InsertBid.mk 1 4 43) marketWorld)))
          = Normal
              (Answer 200
                 (ListingDetail.mk (ListingDetail.listing d)
                    (ListingDetail.cropType d) (ListingDetail.seller d) 3)).
Proof.
  assert (parseInt "1abc" = Some 1) as P by reflexivity.
  assert (Z.abs 1 <= MAX_SAFE_INTEGER) as B
      by (unfold MAX_SAFE_INTEGER; cbn; lia).
  assert (result (getListing 1) marketWorld
          = Some (Some (Listing.mk 1 1 1 100 42 "A" "Premium Basmati Rice"
                          "Nashik" true 1700000000000))) as G
      by (vm_compute; reflexivity).
  assert (option_map (fun bids : list Bid.t => Z.of_nat (length bids))
            (result (getBidsByListingId 1) marketWorld) = Some 2) as C
      by (vm_compute; reflexivity).
  split; [exact P|]. split; [exact B|].
  split; [exact marketWorld_consistent|].
  destruct (getListingRoute_answers marketWorld "1abc") as (_ & _ & A).
  destruct (proj2 (A 1 P B) _ G) as (d & E & L & _ & _ & N & F).
  rewrite C in N. injection N as N.
  exists d. split; [exact E|]. split; [exact N|].
  rewrite (F marketWorld_consistent (InsertBid.mk 1 4 43)), L, N.
  reflexivity.
Defined.

Lemma getListingsRoute_answers_witness :
  consistent (storage marketWorld)
  /\ exists d ds,
       getListingRoute "1" marketWorld = (Normal (Answer 200 d), marketWorld)
       /\ getListingsRoute marketWorld = (Normal (Answer 200 ds), marketWorld)
       /\ In d ds.
Proof.
  assert (parseInt "1" = Some 1) as P by reflexivity.
  assert (Z.abs 1 <= MAX_SAFE_INTEGER) as B
      by (unfold MAX_SAFE_INTEGER; cbn; lia).
  assert (result (getListing 1) marketWorld
          = Some (Some (Listing.mk 1 1 1 100 42 "A" "Premium Basmati Rice"
                          "Nashik" true 1700000000000))) as G
      by (vm_compute; reflexivity).
  split; [exact marketWorld_consistent|].
  exact (proj2 (getListingsRoute_answers marketWorld marketWorld_consistent)
           "1" 1 _ P B G eq_refl).
Defined.

Lemma getUserListingsRoute_answers_witness :
  consistent (storage marketWorld)
  /\ fst (getUserListingsRoute "4" marketWorld) = Normal (Answer 200 [])
  /\ exists listed,
       fst (getUserListingsRoute "2" marketWorld)
       = Normal (Answer 200 [listed])
       /\ UserListing.cropType listed = Some (3, "Tomato").
Proof.
  assert (result (getUser 4) marketWorld
          = Some (Some (User.mk 4 "buyer1" "password" "Mohan Patel" "Mumbai"
                          "+911234567893" "buyer"))) as G4
      by (vm_compute; reflexivity).
  assert (result (getUser 2) marketWorld
          = Some (Some (User.mk 2 "farmer2" "password" "Anita Singh" "Pune"
                          "+911234567891" "farmer"))) as G2
      by (vm_compute; reflexivity).
  assert (map (listedOfUser (storage marketWorld))
            (filter (fun l => Listing.userId l =? 4)
               (map_values (MemStorage.listings (storage marketWorld))))
          = []) as N4 by (vm_compute; reflexivity).
  assert (map (listedOfUser (storage marketWorld))
            (filter (fun l => Listing.userId l =? 2)
               (map_values (MemStorage.listings (storage marketWorld))))
          = [UserListing.mk
               (Listing.mk 2 2 3 50 25 "A" "Fresh Tomatoes" "Pune" true
                  1700000000000)
               (Some (3, "Tomato")) 0]) as N2 by (vm_compute; reflexivity).
  assert (Z.abs 4 <= MAX_SAFE_INTEGER) as B4
      by (unfold MAX_SAFE_INTEGER; cbn; lia).
  assert (Z.abs 2 <= MAX_SAFE_INTEGER) as B2
      by (unfold MAX_SAFE_INTEGER; cbn; lia).
  split; [exact marketWorld_consistent|]. split.
  - destruct (getUserListingsRoute_answers marketWorld "4"
                marketWorld_consistent) as (_ & _ & A).
    destruct (proj2 (A 4 eq_refl B4) _ G4) as (E & _).
    rewrite E, N4. reflexivity.
  - destruct (getUserListingsRoute_answers marketWorld "2"
                marketWorld_consistent) as (_ & _ & A).
    destruct (proj2 (A 2 eq_refl B2) _ G2) as (E & _).
    eexists. rewrite E, N2. split; reflexivity.
Defined.

Lemma getListingBidsRoute_answers_witness :
  consistent (storage marketWorld)
  /\ exists bids,
       fst (getListingBidsRoute "1" marketWorld) = Normal (Answer 200 bids)
       /\ length bids = 2%nat.
Proof.
  assert (Z.abs 1 <= MAX_SAFE_INTEGER) as B
      by (unfold MAX_SAFE_INTEGER; cbn; lia).
  assert (result (getListing 1) marketWorld
          = Some (Some (Listing.mk 1 1 1 100 42 "A" "Premium Basmati Rice"
                          "Nashik" true 1700000000000))) as G
      by (vm_compute; reflexivity).
  assert (option_map (fun bids : list Bid.t => length bids)
            (result (getBidsByListingId 1) marketWorld) = Some 2%nat) as C
      by (vm_compute; reflexivity).
  split; [exact marketWorld_consistent|].
  destruct (getListingBidsRoute_answers marketWorld "1"
              marketWorld_consistent) as (_ & _ & A).
  destruct (proj2 (A 1 eq_refl B) _ G) as (bids & d & E & M & _).
  exists bids. split; [exact E|].
  rewrite <- M in C. cbn [option_map] in C. rewrite length_map in C.
  now injection C.
Defined.
